(** * caching-proxy: a shallow embedding of [src/index.js]

    The platform the program runs on is modelled first: JavaScript strings
    and values, [JSON], the [crypto] MD5 digest, the [node-cache] store,
    [fs], [axios] and the express request and response objects.  Class
    [CachingProxy] and the command line entry point follow the source
    method by method, in a state and exception monad over the store, the
    snapshot file, the clock and a trace of the observable effects.  The
    properties of the program are stated and proved last.

    Requests are handled one at a time: a handler runs to its end before
    the next request is looked at.  Time is [Date.now()], in milliseconds;
    it advances while the origin is answering and between requests. *)

From Stdlib Require Import Arith NArith ZArith List String Ascii Bool Lia.
From Stdlib Require Import SpecFloat.
Import ListNotations.
Open Scope N_scope.

(** ** JavaScript strings

    A JavaScript string is a sequence of UTF-16 code units. *)

Definition jsstring := list N.

Definition js (s : string) : jsstring :=
  map N_of_ascii (list_ascii_of_string s).

Definition jsstring_eqb (a b : jsstring) : bool :=
  if list_eq_dec N.eq_dec a b then true else false.

Definition is_high_surrogate (c : N) : bool := (0xD800 <=? c) && (c <=? 0xDBFF).
Definition is_low_surrogate (c : N) : bool := (0xDC00 <=? c) && (c <=? 0xDFFF).

(** Lower-case hexadecimal digit of a nibble, as a code unit. *)
Definition hex_digit (n : N) : N :=
  if n <? 10 then 48 + n else 87 + n.

Fixpoint uint_codes (u : Decimal.uint) : jsstring :=
  match u with
  | Decimal.Nil => []
  | Decimal.D0 u => 48 :: uint_codes u
  | Decimal.D1 u => 49 :: uint_codes u
  | Decimal.D2 u => 50 :: uint_codes u
  | Decimal.D3 u => 51 :: uint_codes u
  | Decimal.D4 u => 52 :: uint_codes u
  | Decimal.D5 u => 53 :: uint_codes u
  | Decimal.D6 u => 54 :: uint_codes u
  | Decimal.D7 u => 55 :: uint_codes u
  | Decimal.D8 u => 56 :: uint_codes u
  | Decimal.D9 u => 57 :: uint_codes u
  end.

(** [String(i)] for an array index [i]. *)
Definition index_to_string (i : nat) : jsstring :=
  uint_codes (Nat.to_uint i).

(** ** Numbers

    A JavaScript number is an IEEE-754 double: [spec_float] of the standard
    library, with 53 bits of precision and exponents up to 1024. *)

Definition is_digit (c : N) : bool := (48 <=? c) && (c <=? 57).

Fixpoint span (p : N -> bool) (s : jsstring) : jsstring * jsstring :=
  match s with
  | [] => ([], [])
  | c :: r =>
      if p c then let '(a, b) := span p r in (c :: a, b) else ([], s)
  end.

Module Number.

Definition prec : Z := 53.
Definition emax : Z := 1024.

(** The same number, bit for bit: the two zeros differ. *)
Definition eqb (x y : spec_float) : bool :=
  match x, y with
  | S754_zero a, S754_zero b => Bool.eqb a b
  | S754_infinity a, S754_infinity b => Bool.eqb a b
  | S754_nan, S754_nan => true
  | S754_finite a m e, S754_finite b m' e' =>
      Bool.eqb a b && Pos.eqb m m' && Z.eqb e e'
  | _, _ => false
  end.

(** The decimal digits of a natural number, the most significant first;
    a number has no more decimal digits than binary ones. *)
Fixpoint digits_acc (fuel : nat) (n : N) (acc : jsstring) : jsstring :=
  match fuel with
  | O => acc
  | S fuel' =>
      let acc' := (48 + n mod 10) :: acc in
      if n <? 10 then acc' else digits_acc fuel' (n / 10) acc'
  end.

Definition digits (n : N) : jsstring :=
  digits_acc (S (N.to_nat (N.log2 n))) n [].

(** The natural number a string of digits denotes. *)
Definition digits_value (ds : jsstring) : N :=
  fold_left (fun acc c => 10 * acc + (c - 48)) ds 0.

(** The double nearest to [m * 10 ^ e10], ties to even, with the sign
    [neg].  The two tests on the size spare the computation of a power of
    ten that is of no use: with [b] the number of bits of [m], the decimal
    is at least [2 ^ (b - 1 + 3 * e10)] when [e10] is positive, which is
    beyond the largest double from [2 ^ 1024] on, and it is less than
    [2 ^ (b + 3 * e10)] when [e10] is negative, which is below half of the
    smallest double from [2 ^ -1075] down. *)
Definition of_decimal (neg : bool) (m : N) (e10 : Z) : spec_float :=
  match m with
  | N0 => S754_zero neg
  | Npos p =>
      let bits := Z.of_N (N.size m) in
      if (0 <=? e10)%Z then
        if (1024 <? bits + 3 * e10)%Z then S754_infinity neg
        else binary_round prec emax neg (p * Z.to_pos (10 ^ e10)) 0
      else
        if (bits + 3 * e10 <? -1075)%Z then S754_zero neg
        else
          let '(q, e, l) :=
            SFdiv_core_binary prec emax (Zpos p) 0 (10 ^ (- e10))%Z 0 in
          binary_round_aux prec emax neg q e l
  end.

(** The value of a JSON number literal: sign, integer part, fraction,
    exponent. *)
Definition of_literal (tok : jsstring) : spec_float :=
  let '(neg, r) :=
    match tok with
    | 45 :: r => (true, r)
    | _ => (false, tok)
    end in
  let '(int_part, r1) := span is_digit r in
  let '(frac_part, r2) :=
    match r1 with
    | 46 :: r' => span is_digit r'
    | _ => ([], r1)
    end in
  let exponent :=
    match r2 with
    | _ :: 45 :: ds => (- Z.of_N (digits_value ds))%Z
    | _ :: 43 :: ds => Z.of_N (digits_value ds)
    | _ :: ds => Z.of_N (digits_value ds)
    | [] => 0%Z
    end in
  of_decimal neg (digits_value (int_part ++ frac_part))
    (exponent - Z.of_nat (List.length frac_part)).

(** [m * 2 ^ e] as a fraction. *)
Definition fraction (m : positive) (e : Z) : N * N :=
  if (0 <=? e)%Z then (Npos m * 2 ^ Z.to_N e, 1)
  else (Npos m, 2 ^ Z.to_N (- e)).

(** The number of factors 10 that bring [num] up to [den]. *)
Fixpoint scale_up (fuel : nat) (num den : N) (j : Z) : Z :=
  match fuel with
  | O => j
  | S fuel' =>
      if den <=? num then j else scale_up fuel' (10 * num) den (j + 1)%Z
  end.

(** The [n] with [10 ^ (n - 1) <= num / den < 10 ^ n], for a fraction
    that is not below the smallest double. *)
Definition decimal_exponent (num den : N) : Z :=
  if den <=? num then Z.of_nat (List.length (digits (num / den)))
  else (1 - scale_up 1100 num den 0)%Z.

(** The two integers around [num / den / 10 ^ p], the nearer first, and on
    a tie the even one first. *)
Definition around (num den : N) (p : Z) : list N :=
  let '(a, b) :=
    if (0 <=? p)%Z then (num, den * 10 ^ Z.to_N p)
    else (num * 10 ^ Z.to_N (- p), den) in
  let lo := a / b in
  let r := a mod b in
  if 2 * r <? b then [lo; lo + 1]
  else if b <? 2 * r then [lo + 1; lo]
  else if N.even lo then [lo; lo + 1] else [lo + 1; lo].

Fixpoint strip_zeros (rev_ds : jsstring) : jsstring :=
  match rev_ds with
  | 48 :: r => strip_zeros r
  | _ => rev_ds
  end.

(** The digits of [s * 10 ^ p] without trailing zeros, and the position
    [n] of the decimal point after its first digit group. *)
Definition normal (s : N) (p : Z) : jsstring * Z :=
  let ds := digits s in
  (rev (strip_zeros (rev ds)), (p + Z.of_nat (List.length ds))%Z).

Definition zeros (n : Z) : jsstring := repeat 48 (Z.to_nat n).

(** The layout of Number::toString for the digits [ds] and the exponent
    [n]: plain digits up to 21 places, a leading [0.] down to six zeros
    after the point, the exponent notation otherwise. *)
Definition layout (ds : jsstring) (n : Z) : jsstring :=
  let k := Z.of_nat (List.length ds) in
  if ((k <=? n) && (n <=? 21))%Z then ds ++ zeros (n - k)
  else if ((0 <? n) && (n <=? 21))%Z then
    firstn (Z.to_nat n) ds ++ 46 :: skipn (Z.to_nat n) ds
  else if ((-6 <? n) && (n <=? 0))%Z then
    48 :: 46 :: zeros (- n) ++ ds
  else
    let e := (n - 1)%Z in
    let exponent := (if (e <? 0)%Z then 45 else 43) :: digits (Z.abs_N e) in
    match ds with
    | [] => []
    | [d] => d :: 101 :: exponent
    | d :: ds' => d :: 46 :: ds' ++ 101 :: exponent
    end.

(** The text of the decimal [s * 10 ^ p]. *)
Definition decimal_text (s : N) (p : Z) : jsstring :=
  let '(ds, n) := normal s p in layout ds n.

(** The shortest decimal that denotes [x], the nearest to [x] among those
    of its length: decimals of [k], [k + 1], ... digits are tried in turn,
    for [fuel] more lengths. *)
Fixpoint shortest (fuel : nat) (k : Z) (x : spec_float) (num den : N) (n : Z)
  : jsstring :=
  let texts :=
    map (fun s => decimal_text s (n - k)) (around num den (n - k)) in
  match find (fun t => eqb (of_literal t) x) texts with
  | Some t => t
  | None =>
      match fuel with
      | O => hd [] texts
      | S fuel' => shortest fuel' (k + 1)%Z x num den n
      end
  end.

(** [Number.prototype.toString] in radix 10, which is also [String(x)].
    A double [m * 2 ^ e] with decimal exponent [n] is a decimal of at most
    [n - e] digits when [e] is negative and of at most [n] digits
    otherwise: the search goes no further.  (Seventeen digits are enough
    for every double.) *)
Definition toString (x : spec_float) : jsstring :=
  match x with
  | S754_nan => js "NaN"
  | S754_zero _ => js "0"
  | S754_infinity false => js "Infinity"
  | S754_infinity true => js "-Infinity"
  | S754_finite neg m e =>
      let '(num, den) := fraction m e in
      let n := decimal_exponent num den in
      (if neg then [45] else [])
        ++ shortest (Z.to_nat (n + Z.max 0 (- e) - 1)) 1
             (S754_finite false m e) num den n
  end.

End Number.

Arguments Number.toString : simpl never.
Arguments Number.of_literal : simpl never.
Arguments Number.of_decimal : simpl never.

(** ** JavaScript values that travel through the proxy

    Response payloads, cached values and the contents of the snapshot file
    are what [JSON.parse] builds and [JSON.stringify] prints: [null],
    booleans, numbers, strings, arrays and objects.  An object is the list
    of its own properties in enumeration order. *)

#[warnings="-register-all"]
Inductive json : Type :=
| JNull
| JBool (b : bool)
| JNum (x : spec_float)
| JStr (s : jsstring)
| JArr (elems : list json)
| JObj (props : list (jsstring * json)).

(** [ToBoolean]: what [if (v)] tests.  The two zeros and NaN are the
    falsy numbers. *)
Definition truthy (v : json) : bool :=
  match v with
  | JNull => false
  | JBool b => b
  | JNum (S754_zero _) => false
  | JNum S754_nan => false
  | JNum _ => true
  | JStr s => match s with [] => false | _ => true end
  | JArr _ => true
  | JObj _ => true
  end.

(** [if (x)] where [x] may be [undefined]. *)
Definition truthy_opt (o : option json) : bool :=
  match o with
  | Some v => truthy v
  | None => false
  end.

Module JSON.

(** *** [JSON.stringify] *)

(** Code units are written as numbers: 34 is the double quote, 92 the
    backslash, 44 the comma, 58 the colon, 91 and 93 the square brackets,
    123 and 125 the braces, 48 to 57 the digits. *)

(** Backslash, [u] and four hexadecimal digits. *)
Definition unicode_escape (c : N) : jsstring :=
  [92; 117;
   hex_digit (N.shiftr c 12 mod 16); hex_digit (N.shiftr c 8 mod 16);
   hex_digit (N.shiftr c 4 mod 16); hex_digit (c mod 16)].

(** The body of QuoteJSONString: the string is read by code points, so a
    high surrogate followed by a low surrogate is copied and a lone
    surrogate is escaped. *)
Fixpoint quote_body (s : jsstring) : jsstring :=
  match s with
  | [] => []
  | c :: rest =>
      if c =? 8 then 92 :: 98 :: quote_body rest         (* \b *)
      else if c =? 9 then 92 :: 116 :: quote_body rest   (* \t *)
      else if c =? 10 then 92 :: 110 :: quote_body rest  (* \n *)
      else if c =? 12 then 92 :: 102 :: quote_body rest  (* \f *)
      else if c =? 13 then 92 :: 114 :: quote_body rest  (* \r *)
      else if c =? 34 then 92 :: 34 :: quote_body rest   (* the quote *)
      else if c =? 92 then 92 :: 92 :: quote_body rest   (* the backslash *)
      else if c <? 32 then unicode_escape c ++ quote_body rest
      else if is_high_surrogate c then
        match rest with
        | d :: rest' =>
            if is_low_surrogate d then c :: d :: quote_body rest'
            else unicode_escape c ++ quote_body rest
        | [] => unicode_escape c
        end
      else if is_low_surrogate c then unicode_escape c ++ quote_body rest
      else c :: quote_body rest
  end.

Definition quote (s : jsstring) : jsstring :=
  34 :: quote_body s ++ [34].

(** The parts of an array or of an object, separated by commas. *)
Fixpoint join (parts : list jsstring) : jsstring :=
  match parts with
  | [] => []
  | [p] => p
  | p :: ps => p ++ 44 :: join ps
  end.

Fixpoint stringify (v : json) : jsstring :=
  match v with
  | JNull => js "null"
  | JBool true => js "true"
  | JBool false => js "false"
  | JNum (S754_infinity _) => js "null"
  | JNum S754_nan => js "null"
  | JNum x => Number.toString x
  | JStr s => quote s
  | JArr elems => 91 :: join (map stringify elems) ++ [93]
  | JObj props =>
      123 :: join (map (fun p => quote (fst p) ++ 58 :: stringify (snd p))
                     props) ++ [125]
  end.

(** *** [JSON.parse] *)

(** Space, tab, line feed, carriage return. *)
Definition is_ws (c : N) : bool :=
  (c =? 32) || (c =? 9) || (c =? 10) || (c =? 13).

Fixpoint skip_ws (s : jsstring) : jsstring :=
  match s with
  | [] => []
  | c :: r => if is_ws c then skip_ws r else s
  end.

Definition hex_value (c : N) : option N :=
  if is_digit c then Some (c - 48)
  else if (97 <=? c) && (c <=? 102) then Some (c - 87)
  else if (65 <=? c) && (c <=? 70) then Some (c - 55)
  else None.

(** The character after a backslash: the quote, the backslash, the
    slash, and the letters b, f, n, r, t. *)
Definition simple_escape (e : N) : option N :=
  if e =? 34 then Some 34
  else if e =? 92 then Some 92
  else if e =? 47 then Some 47
  else if e =? 98 then Some 8
  else if e =? 102 then Some 12
  else if e =? 110 then Some 10
  else if e =? 114 then Some 13
  else if e =? 116 then Some 9
  else None.

Definition hex4 (h1 h2 h3 h4 : N) : option N :=
  match hex_value h1, hex_value h2, hex_value h3, hex_value h4 with
  | Some a, Some b, Some c, Some d => Some (((a * 16 + b) * 16 + c) * 16 + d)
  | _, _, _, _ => None
  end.

(** The characters of a string literal after its opening quote, up to and
    including the closing quote; the result is the string and the input
    left. *)
Fixpoint string_body (s : jsstring) : option (jsstring * jsstring) :=
  match s with
  | [] => None
  | c :: r =>
      if c =? 34 then Some ([], r)
      else if c =? 92 then
        match r with
        | [] => None
        | e :: r1 =>
            if e =? 117 then
              match r1 with
              | h1 :: h2 :: h3 :: h4 :: r2 =>
                  match hex4 h1 h2 h3 h4, string_body r2 with
                  | Some u, Some (str, r3) => Some (u :: str, r3)
                  | _, _ => None
                  end
              | _ => None
              end
            else
              match simple_escape e, string_body r1 with
              | Some u, Some (str, r3) => Some (u :: str, r3)
              | _, _ => None
              end
        end
      else if c <? 32 then None
      else
        match string_body r with
        | Some (str, r3) => Some (c :: str, r3)
        | None => None
        end
  end.

(** Numbers: an optional minus sign; an integer part, either 0 or a
    non-zero digit followed by digits; an optional fraction, a dot and one
    or more digits; an optional exponent, e or E, an optional sign and one
    or more digits. *)
(** A digit, a sign, the dot, or the letter e in either case. *)
Definition is_numchar (c : N) : bool :=
  is_digit c || (c =? 43) || (c =? 45) || (c =? 46) || (c =? 101) || (c =? 69).

Definition digits1_end (s : jsstring) : bool :=
  match s with
  | [] => false
  | _ => forallb is_digit s
  end.

Definition number_exp (s : jsstring) : bool :=
  match s with
  | [] => true
  | c :: r =>
      if (c =? 101) || (c =? 69) then
        match r with
        | [] => false
        | sg :: r' =>
            if (sg =? 43) || (sg =? 45) then digits1_end r' else digits1_end r
        end
      else false
  end.

Definition number_frac (s : jsstring) : bool :=
  match s with
  | [] => true
  | c :: r =>
      if c =? 46 then
        let '(ds, r') := span is_digit r in
        match ds with [] => false | _ => number_exp r' end
      else number_exp s
  end.

Definition number_int (s : jsstring) : bool :=
  match s with
  | [] => false
  | c :: r =>
      if c =? 48 then number_frac r
      else if is_digit c then number_frac (snd (span is_digit r))
      else false
  end.

Definition is_number (s : jsstring) : bool :=
  match s with
  | [] => false
  | c :: r => if c =? 45 then number_int r else number_int s
  end.

Fixpoint strip_prefix (p s : jsstring) : option jsstring :=
  match p, s with
  | [], _ => Some s
  | a :: p', b :: s' => if a =? b then strip_prefix p' s' else None
  | _ :: _, [] => None
  end.

(** Recursive descent.  The fuel bounds the nesting of calls; [parse]
    supplies more than the length of the text, which always suffices. *)
Fixpoint value (fuel : nat) (s : jsstring) : option (json * jsstring) :=
  match fuel with
  | O => None
  | S fuel =>
      match skip_ws s with
      | [] => None
      | c :: r =>
          if c =? 34 then                       (* a string *)
            match string_body r with
            | Some (str, r') => Some (JStr str, r')
            | None => None
            end
          else if c =? 91 then                  (* an array *)
            match skip_ws r with
            | [] => None
            | d :: r' =>
                if d =? 93 then Some (JArr [], r')
                else
                  match elements fuel (d :: r') with
                  | Some (vs, r'') => Some (JArr vs, r'')
                  | None => None
                  end
            end
          else if c =? 123 then                 (* an object *)
            match skip_ws r with
            | [] => None
            | d :: r' =>
                if d =? 125 then Some (JObj [], r')
                else
                  match members fuel (d :: r') with
                  | Some (ps, r'') => Some (JObj ps, r'')
                  | None => None
                  end
            end
          else if c =? 116 then                 (* true *)
            match strip_prefix (js "rue") r with
            | Some r' => Some (JBool true, r')
            | None => None
            end
          else if c =? 102 then                 (* false *)
            match strip_prefix (js "alse") r with
            | Some r' => Some (JBool false, r')
            | None => None
            end
          else if c =? 110 then                 (* null *)
            match strip_prefix (js "ull") r with
            | Some r' => Some (JNull, r')
            | None => None
            end
          else
            let '(tok, r') := span is_numchar (c :: r) in
            if is_number tok then Some (JNum (Number.of_literal tok), r')
            else None
      end
  end
with elements (fuel : nat) (s : jsstring) : option (list json * jsstring) :=
  match fuel with
  | O => None
  | S fuel =>
      match value fuel s with
      | None => None
      | Some (v, r) =>
          match skip_ws r with
          | [] => None
          | c :: r' =>
              if c =? 44 then
                match elements fuel r' with
                | Some (vs, r'') => Some (v :: vs, r'')
                | None => None
                end
              else if c =? 93 then Some ([v], r')
              else None
          end
      end
  end
with members (fuel : nat) (s : jsstring)
       : option (list (jsstring * json) * jsstring) :=
  match fuel with
  | O => None
  | S fuel =>
      match skip_ws s with
      | [] => None
      | q :: r0 =>
          if q =? 34 then
            match string_body r0 with
            | None => None
            | Some (k, r1) =>
                match skip_ws r1 with
                | [] => None
                | colon :: r2 =>
                    if colon =? 58 then
                      match value fuel r2 with
                      | None => None
                      | Some (v, r3) =>
                          match skip_ws r3 with
                          | [] => None
                          | c :: r4 =>
                              if c =? 44 then
                                match members fuel r4 with
                                | Some (ps, r5) => Some ((k, v) :: ps, r5)
                                | None => None
                                end
                              else if c =? 125 then Some ([(k, v)], r4)
                              else None
                          end
                      end
                    else None
                end
            end
          else None
      end
  end.

(** [JSON.parse text]: [None] stands for the SyntaxError it throws. *)
Definition parse (text : jsstring) : option json :=
  match value (S (List.length text)) text with
  | Some (v, r) =>
      match skip_ws r with
      | [] => Some v
      | _ => None
      end
  | None => None
  end.

End JSON.

(** ** [crypto.createHash("md5").update(text).digest("hex")] *)

Module Crypto.

(** [update] with a string encodes it as UTF-8; a lone surrogate becomes
    U+FFFD. *)
Definition utf8_of_code_point (c : N) : list N :=
  if c <? 0x80 then [c]
  else if c <? 0x800 then [0xC0 + N.shiftr c 6; 0x80 + c mod 64]
  else if c <? 0x10000 then
    [0xE0 + N.shiftr c 12; 0x80 + N.shiftr c 6 mod 64; 0x80 + c mod 64]
  else
    [0xF0 + N.shiftr c 18; 0x80 + N.shiftr c 12 mod 64;
     0x80 + N.shiftr c 6 mod 64; 0x80 + c mod 64].

Fixpoint utf8_encode (s : jsstring) : list N :=
  match s with
  | [] => []
  | c :: rest =>
      if is_high_surrogate c then
        match rest with
        | d :: rest' =>
            if is_low_surrogate d then
              utf8_of_code_point
                (0x10000 + N.shiftl (c - 0xD800) 10 + (d - 0xDC00))
                ++ utf8_encode rest'
            else utf8_of_code_point 0xFFFD ++ utf8_encode rest
        | [] => utf8_of_code_point 0xFFFD
        end
      else if is_low_surrogate c then
        utf8_of_code_point 0xFFFD ++ utf8_encode rest
      else utf8_of_code_point c ++ utf8_encode rest
  end.

(** MD5 (RFC 1321) on 32-bit words held in [N], wrap-around written out. *)
Definition w32 (x : N) : N := x mod 0x100000000.
Definition add32 (a b : N) : N := w32 (a + b).
Definition not32 (a : N) : N := N.lxor (w32 a) 0xFFFFFFFF.
Definition rotl32 (x s : N) : N :=
  N.lor (w32 (N.shiftl x s)) (N.shiftr (w32 x) (32 - s)).

Definition K : list N :=
  [0xd76aa478; 0xe8c7b756; 0x242070db; 0xc1bdceee;
   0xf57c0faf; 0x4787c62a; 0xa8304613; 0xfd469501;
   0x698098d8; 0x8b44f7af; 0xffff5bb1; 0x895cd7be;
   0x6b901122; 0xfd987193; 0xa679438e; 0x49b40821;
   0xf61e2562; 0xc040b340; 0x265e5a51; 0xe9b6c7aa;
   0xd62f105d; 0x02441453; 0xd8a1e681; 0xe7d3fbc8;
   0x21e1cde6; 0xc33707d6; 0xf4d50d87; 0x455a14ed;
   0xa9e3e905; 0xfcefa3f8; 0x676f02d9; 0x8d2a4c8a;
   0xfffa3942; 0x8771f681; 0x6d9d6122; 0xfde5380c;
   0xa4beea44; 0x4bdecfa9; 0xf6bb4b60; 0xbebfbc70;
   0x289b7ec6; 0xeaa127fa; 0xd4ef3085; 0x04881d05;
   0xd9d4d039; 0xe6db99e5; 0x1fa27cf8; 0xc4ac5665;
   0xf4292244; 0x432aff97; 0xab9423a7; 0xfc93a039;
   0x655b59c3; 0x8f0ccc92; 0xffeff47d; 0x85845dd1;
   0x6fa87e4f; 0xfe2ce6e0; 0xa3014314; 0x4e0811a1;
   0xf7537e82; 0xbd3af235; 0x2ad7d2bb; 0xeb86d391].

Definition shifts : list N :=
  [7; 12; 17; 22; 7; 12; 17; 22; 7; 12; 17; 22; 7; 12; 17; 22;
   5; 9; 14; 20; 5; 9; 14; 20; 5; 9; 14; 20; 5; 9; 14; 20;
   4; 11; 16; 23; 4; 11; 16; 23; 4; 11; 16; 23; 4; 11; 16; 23;
   6; 10; 15; 21; 6; 10; 15; 21; 6; 10; 15; 21; 6; 10; 15; 21].

Definition state : Type := N * N * N * N.

Definition init : state := (0x67452301, 0xefcdab89, 0x98badcfe, 0x10325476).

(** One of the 64 operations on block [M]. *)
Definition step (M : list N) (st : state) (i : nat) : state :=
  let '(A, B, C, D) := st in
  let '(F, g) :=
    if Nat.ltb i 16 then
      (N.lor (N.land B C) (N.land (not32 B) D), i)
    else if Nat.ltb i 32 then
      (N.lor (N.land D B) (N.land (not32 D) C), ((5 * i + 1) mod 16)%nat)
    else if Nat.ltb i 48 then
      (N.lxor B (N.lxor C D), ((3 * i + 5) mod 16)%nat)
    else
      (N.lxor C (N.lor B (not32 D)), ((7 * i) mod 16)%nat) in
  let F' := add32 (add32 (add32 F A) (nth i K 0)) (nth g M 0) in
  (D, add32 B (rotl32 F' (nth i shifts 0)), B, C).

Definition word_le (b0 b1 b2 b3 : N) : N :=
  b0 + 0x100 * b1 + 0x10000 * b2 + 0x1000000 * b3.

Fixpoint words_le (bytes : list N) : list N :=
  match bytes with
  | b0 :: b1 :: b2 :: b3 :: rest => word_le b0 b1 b2 b3 :: words_le rest
  | _ => []
  end.

Definition process_block (st : state) (block : list N) : state :=
  let '(a0, b0, c0, d0) := st in
  let '(A, B, C, D) := fold_left (step (words_le block)) (seq 0 64) st in
  (add32 a0 A, add32 b0 B, add32 c0 C, add32 d0 D).

Fixpoint blocks (n : nat) (bytes : list N) : list (list N) :=
  match n with
  | O => []
  | S n => firstn 64 bytes :: blocks n (skipn 64 bytes)
  end.

Definition bytes_le (width : nat) (x : N) : list N :=
  map (fun i => N.shiftr x (8 * N.of_nat i) mod 256) (seq 0 width).

Definition pad (msg : list N) : list N :=
  let len := N.of_nat (List.length msg) in
  msg ++ [0x80]
      ++ repeat 0 (N.to_nat ((119 - len mod 64) mod 64))
      ++ bytes_le 8 ((8 * len) mod 0x10000000000000000).

Definition digest (msg : list N) : list N :=
  let padded := pad msg in
  let '(a, b, c, d) :=
    fold_left process_block
      (blocks (Nat.div (List.length padded) 64) padded) init in
  bytes_le 4 a ++ bytes_le 4 b ++ bytes_le 4 c ++ bytes_le 4 d.

Definition hex_of_byte (b : N) : jsstring :=
  [hex_digit (b / 16); hex_digit (b mod 16)].

Definition md5_hex (text : jsstring) : jsstring :=
  flat_map hex_of_byte (digest (utf8_encode text)).

End Crypto.


(** ** JavaScript objects used as maps

    An object is the list of its own properties in enumeration order; the
    property names of one object are pairwise distinct. *)

Module Obj.
Section Props.
Context {V : Type}.

(** [o[key]] *)
Fixpoint get (key : jsstring) (o : list (jsstring * V)) : option V :=
  match o with
  | [] => None
  | (k, x) :: o' => if jsstring_eqb k key then Some x else get key o'
  end.

(** [o[key] = x]: an existing property keeps its place. *)
Fixpoint set (key : jsstring) (x : V) (o : list (jsstring * V))
  : list (jsstring * V) :=
  match o with
  | [] => [(key, x)]
  | (k, y) :: o' =>
      if jsstring_eqb k key then (k, x) :: o' else (k, y) :: set key x o'
  end.

(** [delete o[key]] *)
Fixpoint delete (key : jsstring) (o : list (jsstring * V))
  : list (jsstring * V) :=
  match o with
  | [] => []
  | (k, y) :: o' =>
      if jsstring_eqb k key then delete key o' else (k, y) :: delete key o'
  end.

(** [Object.keys(o)] *)
Definition keys (o : list (jsstring * V)) : list jsstring := map fst o.
End Props.

Fixpoint indexed_from {A : Type} (i : nat) (l : list A)
  : list (jsstring * A) :=
  match l with
  | [] => []
  | x :: l' => (index_to_string i, x) :: indexed_from (S i) l'
  end.

(** [Object.entries(x)].  [None] stands for the TypeError thrown on
    [null]; an array lists its indices, a string its characters, a number
    or a boolean has no own property. *)
Definition entries (x : json) : option (list (jsstring * json)) :=
  match x with
  | JNull => None
  | JBool _ => Some []
  | JNum _ => Some []
  | JStr s => Some (indexed_from 0 (map (fun c => JStr [c]) s))
  | JArr elems => Some (indexed_from 0 elems)
  | JObj props => Some props
  end.
End Obj.

(** ** [node-cache]

    The store the program creates with [new NodeCache({ stdTTL })], modelled
    from the package's documented behaviour with its default options: an
    entry carries its expiry time [t] in milliseconds (0 for an entry that
    never expires), [get] drops an entry whose time has passed and answers
    [undefined], [set] without a ttl argument uses [stdTTL] seconds, [keys]
    lists what the table holds.  The periodic sweep of the package only
    removes entries that [get] already reports as absent and is left out. *)

Module NodeCache.

Record entry : Type := { t : N; v : json }.

Record cache : Type := { stdTTL : N; data : list (jsstring * entry) }.

Definition create (ttl_seconds : N) : cache :=
  {| stdTTL := ttl_seconds; data := [] |}.

Definition expired (now : N) (e : entry) : bool :=
  negb (t e =? 0) && (t e <? now).

Definition get (now : N) (key : jsstring) (c : cache)
  : option json * cache :=
  match Obj.get key (data c) with
  | None => (None, c)
  | Some e =>
      if expired now e
      then (None, {| stdTTL := stdTTL c; data := Obj.delete key (data c) |})
      else (Some (v e), c)
  end.

Definition set (now : N) (key : jsstring) (value : json) (c : cache)
  : cache :=
  let livetime := if stdTTL c =? 0 then 0 else now + stdTTL c * 1000 in
  {| stdTTL := stdTTL c;
     data := Obj.set key {| t := livetime; v := value |} (data c) |}.

Definition keys (c : cache) : list jsstring := Obj.keys (data c).

Definition flushAll (c : cache) : cache :=
  {| stdTTL := stdTTL c; data := [] |}.

(** What [get] answers, without its effect on the table. *)
Definition peek (now : N) (key : jsstring) (c : cache) : option json :=
  fst (get now key c).

End NodeCache.

(** ** [fs], at the path of the snapshot file

    [existsSync], [readFileSync(path, "utf8")], [writeFileSync] and
    [unlinkSync] act on one path.  A file may refuse to be read; writing and
    unlinking succeed.  The content of a file is the text written to it. *)

Module Fs.

Inductive node : Type :=
| Missing
| File (readable : bool) (content : jsstring).

Definition existsSync (d : node) : bool :=
  match d with
  | Missing => false
  | File _ _ => true
  end.

(** [None] stands for the error [readFileSync] throws. *)
Definition readFileSync (d : node) : option jsstring :=
  match d with
  | File true content => Some content
  | _ => None
  end.

Definition writeFileSync (text : jsstring) (d : node) : node :=
  match d with
  | Missing => File true text
  | File readable _ => File readable text
  end.

(** [None] stands for the error thrown when there is nothing to unlink. *)
Definition unlinkSync (d : node) : option node :=
  match d with
  | Missing => None
  | File _ _ => Some Missing
  end.

End Fs.

(** ** [axios] and the origin server *)

Module Axios.

(** What goes on the wire.  The request body is not part of it: the
    program passes no [data] to axios. *)
Record request : Type :=
  { method : jsstring; url : jsstring; headers : list (jsstring * json) }.

(** What comes back from the origin: no answer at all, an answer with
    its status and body, or an answer 3xx with a [Location] header
    together with what the request to that location gets in turn. *)
Inductive reply : Type :=
| NetworkError (message : jsstring)
| Reply (status : N) (data : json)
| Redirect (location : jsstring) (next : reply).

(** A resolved axios promise. *)
Record response : Type := { status : N; data : json }.

(** The origin: given the requests axios was called with before and the
    next one, the time the exchange takes (in milliseconds) and the
    reply. *)
Definition origin_server : Type :=
  list request -> request -> N * reply.

(** The default [validateStatus]. *)
Definition validateStatus_default (status : N) : bool :=
  (200 <=? status) && (status <? 300).

(** The default [maxRedirects], which the program does not change. *)
Definition maxRedirects : nat := 21.

(** Redirects are followed before the status is looked at: what is left
    of a reply after at most [hops] of them. *)
Fixpoint follow (hops : nat) (r : reply) : reply :=
  match r with
  | Redirect _ next =>
      match hops with
      | O => r
      | S hops' => follow hops' next
      end
  | _ => r
  end.

End Axios.

(** ** The express request and response objects *)

Module Express.

(** Of the inbound request the program reads [method], [url] and
    [headers]; [body] stands for what it never reads. *)
Record request : Type :=
  { method : jsstring;
    url : jsstring;
    headers : list (jsstring * json);
    body : jsstring }.

Inductive x_cache : Type := HIT | MISS.

(** [statusCode] is set by [res.status], [xCache] by
    [res.set("X-Cache", _)], and [sent] by [res.json]; a response that
    was never sent has [sent = None]. *)
Record response : Type :=
  { statusCode : N; xCache : option x_cache; sent : option json }.

Definition fresh : response :=
  {| statusCode := 200; xCache := None; sent := None |}.

End Express.

(** ** Exceptions, effects and the state they act on *)

Inductive exn : Type :=
| AxiosError (response_status : option N) (message : jsstring)
| SyntaxError
| TypeError (message : jsstring)
| FsError.

(** [error.response?.status] *)
Definition response_status (e : exn) : option N :=
  match e with
  | AxiosError s _ => s
  | _ => None
  end.

(** [error.response?.status === code] *)
Definition status_is (e : exn) (code : N) : bool :=
  match response_status e with
  | Some s => s =? code
  | None => false
  end.

(** [error.message].  The handler only catches the errors of axios and
    of [new URL]; the errors of [JSON.parse] and of [fs] are caught in
    [loadCache], which logs the error and does not read its message. *)
Definition error_message (e : exn) : jsstring :=
  match e with
  | AxiosError _ m => m
  | TypeError m => m
  | SyntaxError => js "Unexpected token in JSON"
  | FsError => js "EACCES: permission denied"
  end.

Inductive event : Type :=
| Forwarded (rq : Axios.request)
| CacheSet (key : jsstring) (value : json)
| FileWritten (text : jsstring)
| FileRemoved
| Responded (r : Express.response)
| ConsoleError (tag : jsstring) (e : exn)
| ConsoleLog (msg : jsstring).

(** The object [this] together with the world it acts on. *)
Record state : Type :=
  { cache : NodeCache.cache;   (* this.cache *)
    disk : Fs.node;            (* what is at this.cacheFilePath *)
    clock : N;                 (* Date.now() *)
    res : Express.response;    (* the response of the request being handled *)
    trace : list event }.      (* the effects so far, oldest first *)

Inductive completion (A : Type) : Type :=
| Normal (a : A)
| Throw (e : exn).
Arguments Normal {A} a.
Arguments Throw {A} e.

Definition M (A : Type) : Type := state -> completion A * state.

Definition ret {A : Type} (a : A) : M A := fun st => (Normal a, st).

Definition bind {A B : Type} (m : M A) (k : A -> M B) : M B :=
  fun st =>
    match m st with
    | (Normal a, st') => k a st'
    | (Throw e, st') => (Throw e, st')
    end.

Definition throw {A : Type} (e : exn) : M A := fun st => (Throw e, st).

Definition try_catch {A : Type} (m : M A) (handler : exn -> M A) : M A :=
  fun st =>
    match m st with
    | (Normal a, st') => (Normal a, st')
    | (Throw e, st') => handler e st'
    end.

Declare Scope js_scope.
Delimit Scope js_scope with js.
Notation "x <- m ;; k" := (bind m (fun x => k))
  (at level 61, m at next level, right associativity) : js_scope.
Notation "m ;; k" := (bind m (fun _ => k))
  (at level 61, right associativity) : js_scope.
Open Scope js_scope.

Definition with_cache (c : NodeCache.cache) (st : state) : state :=
  {| cache := c; disk := disk st; clock := clock st;
     res := res st; trace := trace st |}.

Definition with_disk (d : Fs.node) (st : state) : state :=
  {| cache := cache st; disk := d; clock := clock st;
     res := res st; trace := trace st |}.

Definition with_clock (n : N) (st : state) : state :=
  {| cache := cache st; disk := disk st; clock := n;
     res := res st; trace := trace st |}.

Definition with_res (r : Express.response) (st : state) : state :=
  {| cache := cache st; disk := disk st; clock := clock st;
     res := r; trace := trace st |}.

Definition emit (e : event) (st : state) : state :=
  {| cache := cache st; disk := disk st; clock := clock st;
     res := res st; trace := trace st ++ [e] |}.

(** [this.cache.get(key)] *)
Definition cache_get (key : jsstring) : M (option json) :=
  fun st =>
    let '(x, c) := NodeCache.get (clock st) key (cache st) in
    (Normal x, with_cache c st).

(** [this.cache.set(key, value)] *)
Definition cache_set (key : jsstring) (value : json) : M unit :=
  fun st =>
    (Normal tt,
     emit (CacheSet key value)
       (with_cache (NodeCache.set (clock st) key value (cache st)) st)).

Definition console_error (tag : jsstring) (e : exn) : M unit :=
  fun st => (Normal tt, emit (ConsoleError tag e) st).

Definition console_log (msg : jsstring) : M unit :=
  fun st => (Normal tt, emit (ConsoleLog msg) st).

(** [this.cache.keys()] *)
Definition cache_keys : M (list jsstring) :=
  fun st => (Normal (NodeCache.keys (cache st)), st).

(** [this.cache.flushAll()] *)
Definition cache_flushAll : M unit :=
  fun st => (Normal tt, with_cache (NodeCache.flushAll (cache st)) st).

(** [fs.existsSync(this.cacheFilePath)] *)
Definition fs_existsSync : M bool :=
  fun st => (Normal (Fs.existsSync (disk st)), st).

(** [fs.readFileSync(this.cacheFilePath, "utf8")] *)
Definition fs_readFileSync : M jsstring :=
  fun st =>
    match Fs.readFileSync (disk st) with
    | Some text => (Normal text, st)
    | None => (Throw FsError, st)
    end.

(** [fs.writeFileSync(this.cacheFilePath, text, "utf8")] *)
Definition fs_writeFileSync (text : jsstring) : M unit :=
  fun st =>
    (Normal tt,
     emit (FileWritten text) (with_disk (Fs.writeFileSync text (disk st)) st)).

(** [fs.unlinkSync(this.cacheFilePath)] *)
Definition fs_unlinkSync : M unit :=
  fun st =>
    match Fs.unlinkSync (disk st) with
    | Some d => (Normal tt, emit FileRemoved (with_disk d st))
    | None => (Throw FsError, st)
    end.

(** [JSON.parse(text)] *)
Definition JSON_parse (text : jsstring) : M json :=
  match JSON.parse text with
  | Some x => ret x
  | None => throw SyntaxError
  end.

(** [Object.entries(x)] *)
Definition Object_entries (x : json) : M (list (jsstring * json)) :=
  match Obj.entries x with
  | Some es => ret es
  | None => throw (TypeError (js "Cannot convert undefined or null to object"))
  end.

(** [res.set("X-Cache", tag)] *)
Definition res_set_x_cache (tag : Express.x_cache) : M unit :=
  fun st =>
    (Normal tt,
     with_res {| Express.statusCode := Express.statusCode (res st);
                 Express.xCache := Some tag;
                 Express.sent := Express.sent (res st) |} st).

(** [res.status(code)] *)
Definition res_status (code : N) : M unit :=
  fun st =>
    (Normal tt,
     with_res {| Express.statusCode := code;
                 Express.xCache := Express.xCache (res st);
                 Express.sent := Express.sent (res st) |} st).

(** [res.json(value)] *)
Definition res_json (value : json) : M unit :=
  fun st =>
    let r := {| Express.statusCode := Express.statusCode (res st);
                Express.xCache := Express.xCache (res st);
                Express.sent := Some value |} in
    (Normal tt, emit (Responded r) (with_res r st)).

(** The requests handed to axios so far. *)
Fixpoint forwarded (tr : list event) : list Axios.request :=
  match tr with
  | [] => []
  | Forwarded rq :: tr' => rq :: forwarded tr'
  | _ :: tr' => forwarded tr'
  end.

(** [await axios({ method, url, headers, validateStatus })]: redirects are
    followed first; the promise rejects on a network error, on more
    redirects than [maxRedirects], and on a status [validateStatus]
    refuses.  [elapsed] is the time of the whole exchange. *)
Definition axios (net : Axios.origin_server) (validateStatus : N -> bool)
    (rq : Axios.request) : M Axios.response :=
  fun st =>
    let '(elapsed, reply) := net (forwarded (trace st)) rq in
    let st' := emit (Forwarded rq) (with_clock (clock st + elapsed) st) in
    match Axios.follow Axios.maxRedirects reply with
    | Axios.NetworkError message => (Throw (AxiosError None message), st')
    | Axios.Reply status data =>
        if validateStatus status
        then (Normal {| Axios.status := status; Axios.data := data |}, st')
        else
          (Throw (AxiosError (Some status)
                    (js "Request failed with status code "
                       ++ index_to_string (N.to_nat status))), st')
    | Axios.Redirect _ _ =>
        (Throw (AxiosError None (js "Maximum number of redirects exceeded")),
         st')
    end.

(** ** The program: class [CachingProxy] *)

(** The [origin] argument: its text and what [new URL(origin).host]
    evaluates to, [None] when the constructor throws. *)
Record origin_url : Type := { href : jsstring; host : option jsstring }.

(** [new URL(origin).host] *)
Definition URL_host (origin : origin_url) : M jsstring :=
  match host origin with
  | Some h => ret h
  | None => throw (TypeError (js "Invalid URL"))
  end.

(** The value an [if (x)] lets through. *)
Definition truthy_value (x : option json) : option json :=
  match x with
  | Some v => if truthy v then Some v else None
  | None => None
  end.

(** [JSON.stringify] leaves out a property whose value is [undefined]. *)
Fixpoint defined_props (o : list (jsstring * option json))
  : list (jsstring * json) :=
  match o with
  | [] => []
  | (k, Some x) :: o' => (k, x) :: defined_props o'
  | (_, None) :: o' => defined_props o'
  end.

Module CachingProxy.

(** [constructor()]: the store is created with a fixed [stdTTL]. *)
Definition constructor (d : Fs.node) (now : N) : state :=
  {| cache := NodeCache.create 3600;
     disk := d;
     clock := now;
     res := Express.fresh;
     trace := [] |}.

Definition generateCacheKey (req : Express.request) : jsstring :=
  let keyData :=
    JObj [(js "method", JStr (Express.method req));
          (js "url", JStr (Express.url req));
          (js "headers", JObj (Express.headers req))] in
  Crypto.md5_hex (JSON.stringify keyData).

(** [this.cache.keys().reduce((acc, key) => { acc[key] =
    this.cache.get(key); return acc; }, acc)] *)
Fixpoint reduce_keys (keys : list jsstring)
    (acc : list (jsstring * option json))
  : M (list (jsstring * option json)) :=
  match keys with
  | [] => ret acc
  | key :: keys' =>
      x <- cache_get key;;
      reduce_keys keys' (Obj.set key x acc)
  end.

Definition saveCache : M unit :=
  ks <- cache_keys;;
  cacheData <- reduce_keys ks [];;
  fs_writeFileSync (JSON.stringify (JObj (defined_props cacheData))).

(** [entries.forEach(([key, value]) => this.cache.set(key, value))] *)
Fixpoint forEach_set (entries : list (jsstring * json)) : M unit :=
  match entries with
  | [] => ret tt
  | (key, value) :: entries' =>
      cache_set key value;;
      forEach_set entries'
  end.

Definition loadCache : M unit :=
  try_catch
    (exists_ <- fs_existsSync;;
     if exists_ then
       text <- fs_readFileSync;;
       cacheData <- JSON_parse text;;
       entries <- Object_entries cacheData;;
       forEach_set entries
     else ret tt)
    (fun error => console_error (js "Error loading cache:") error).

Definition clearCache : M unit :=
  cache_flushAll;;
  exists_ <- fs_existsSync;;
  (if exists_ then fs_unlinkSync else ret tt);;
  console_log (js "Cache cleared successfully.").

(** The [validateStatus] of the first request: 304 is accepted. *)
Definition validateStatus (status : N) : bool :=
  ((200 <=? status) && (status <? 300)) || (status =? 304).

(** [error.response?.status || 500] *)
Definition status_or_500 (e : exn) : N :=
  match response_status e with
  | Some s => if s =? 0 then 500 else s
  | None => 500
  end.

(** The function [start] hands to [app.use].  The TLS options given to
    axios do not take part in any decision and are left out. *)
Definition start_handler (origin : origin_url) (net : Axios.origin_server)
    (req : Express.request) : M unit :=
  let cacheKey := generateCacheKey req in
  cachedResponse <- cache_get cacheKey;;
  match truthy_value cachedResponse with
  | Some hit =>
      res_set_x_cache Express.HIT;;
      res_json hit
  | None =>
      try_catch
        (let headers :=
           Obj.delete (js "if-modified-since")
             (Obj.delete (js "if-none-match") (Express.headers req)) in
         h <- URL_host origin;;
         response <-
           axios net validateStatus
             {| Axios.method := Express.method req;
                Axios.url := href origin ++ Express.url req;
                Axios.headers :=
                  Obj.set (js "host") (JStr h) (Express.headers req) |};;
         match (if Axios.status response =? 304
                then truthy_value cachedResponse else None) with
         | Some hit =>
             res_set_x_cache Express.HIT;;
             res_json hit
         | None =>
             if truthy (Axios.data response) then
               res_set_x_cache Express.MISS;;
               cache_set cacheKey (Axios.data response);;
               saveCache;;
               res_json (Axios.data response)
             else if (Axios.status response =? 304)
                     && negb (truthy_opt cachedResponse) then
               h' <- URL_host origin;;
               freshResponse <-
                 axios net Axios.validateStatus_default
                   {| Axios.method := Express.method req;
                      Axios.url := href origin ++ Express.url req;
                      Axios.headers :=
                        Obj.set (js "host") (JStr h') headers |};;
               res_set_x_cache Express.MISS;;
               cache_set cacheKey (Axios.data freshResponse);;
               saveCache;;
               res_json (Axios.data freshResponse)
             else ret tt
         end)
        (fun error =>
           console_error (js "Proxy error:") error;;
           match (if status_is error 304
                  then truthy_value cachedResponse else None) with
           | Some hit =>
               res_set_x_cache Express.HIT;;
               res_json hit
           | None =>
               res_status (status_or_500 error);;
               res_json
                 (JObj [(js "error", JStr (js "Proxy request failed"));
                        (js "details", JStr (error_message error))])
           end)
  end.

(** [start(port, origin)]: the snapshot is loaded, then the server
    listens; binding the port is outside the model. *)
Definition start (port : N) (origin : origin_url) : M unit :=
  loadCache;;
  console_log
    (js "Caching proxy server running on port "
       ++ index_to_string (N.to_nat port)
       ++ js ", proxying to " ++ href origin).

(** One request reaching the server [delay] milliseconds after the
    previous activity: express calls the handler with a response object
    of its own; the result is that object when the handler is done. *)
Definition request (origin : origin_url) (net : Axios.origin_server)
    (delay : N) (req : Express.request) : M Express.response :=
  (fun st =>
     (Normal tt, with_res Express.fresh (with_clock (clock st + delay) st)));;
  start_handler origin net req;;
  (fun st => (Normal (res st), st)).

(** The listening server: express calls the handler once for every
    request that arrives.  The requests are taken one after the other, each
    [delay] milliseconds after the previous one was done. *)
Fixpoint serve (origin : origin_url) (net : Axios.origin_server)
    (reqs : list (N * Express.request)) : M (list Express.response) :=
  match reqs with
  | [] => ret []
  | (delay, req) :: reqs' =>
      r <- request origin net delay req;;
      rs <- serve origin net reqs';;
      ret (r :: rs)
  end.

End CachingProxy.

(** ** The command line *)

Record argv : Type :=
  { port : N;
    origin : origin_url;
    clear_cache : bool;
    ttl : N }.

(** The yargs defaults; [origin] is required. *)
Definition argv_default (o : origin_url) : argv :=
  {| port := 3000; origin := o; clear_cache := false; ttl := 60 |}.

(** The body of the script: [new CachingProxy()], then [clearCache] or
    [start]. *)
Definition main (a : argv) (d : Fs.node) (now : N) : completion unit * state :=
  let proxy := CachingProxy.constructor d now in
  if clear_cache a then CachingProxy.clearCache proxy
  else CachingProxy.start (port a) (origin a) proxy.


(** * Vocabulary of the properties

    The notions the statements below are written with, then the sample
    inputs their instances are run on. *)

(** ** Values and texts *)

Definition is_lower_hex (c : N) : bool :=
  is_digit c || ((97 <=? c) && (c <=? 102)).

(** A number that a JSON text carries: what is printed for it is a JSON
    number that reads back as the same number.  This leaves out NaN, the
    infinities and the negative zero. *)
Definition number_reads_back (x : spec_float) : bool :=
  JSON.is_number (Number.toString x)
  && Number.eqb (Number.of_literal (Number.toString x)) x.

(** A value is well formed when a JSON text can carry its numbers. *)
Fixpoint wf_json (v : json) : bool :=
  match v with
  | JNum x => number_reads_back x
  | JArr elems => forallb wf_json elems
  | JObj props => forallb (fun p => wf_json (snd p)) props
  | _ => true
  end.

(** Induction on a value that reaches the elements of an array and the
    properties of an object. *)
Section JsonInduction.
Variable P : json -> Prop.
Hypothesis Hnull : P JNull.
Hypothesis Hbool : forall b, P (JBool b).
Hypothesis Hnum : forall lit, P (JNum lit).
Hypothesis Hstr : forall s, P (JStr s).
Hypothesis Harr : forall elems, Forall P elems -> P (JArr elems).
Hypothesis Hobj :
  forall props, Forall (fun p => P (snd p)) props -> P (JObj props).

Fixpoint json_nested_ind (v : json) : P v :=
  match v with
  | JNull => Hnull
  | JBool b => Hbool b
  | JNum lit => Hnum lit
  | JStr s => Hstr s
  | JArr elems =>
      Harr elems
        ((fix all (l : list json) : Forall P l :=
            match l with
            | [] => Forall_nil P
            | x :: l' => Forall_cons x (json_nested_ind x) (all l')
            end) elems)
  | JObj props =>
      Hobj props
        ((fix all (l : list (jsstring * json))
            : Forall (fun p => P (snd p)) l :=
            match l with
            | [] => Forall_nil _
            | p :: l' =>
                Forall_cons p (json_nested_ind (snd p)) (all l')
            end) props)
  end.
End JsonInduction.

(** The text that follows a value does not go on like a number. *)
Definition delimited (rest : jsstring) : Prop :=
  match rest with
  | [] => True
  | c :: _ => JSON.is_numchar c = false
  end.

(** The first character of a number: a minus sign or a digit. *)
Definition number_head (c : N) : Prop := c = 45 \/ (48 <= c /\ c <= 57).

(** The first character of the text of a value: not white space, and
    neither of the closing brackets. *)
Definition value_head (c : N) : Prop :=
  JSON.is_ws c = false /\ c <> 93 /\ c <> 125.

(** [v] is read back from its text, whatever follows, with any fuel that
    is at least the length of the text. *)
Definition reads_back (v : json) : Prop :=
  forall (fuel : nat) (rest : jsstring),
    (List.length (JSON.stringify v) <= fuel)%nat ->
    delimited rest ->
    JSON.value fuel (JSON.stringify v ++ rest) = Some (v, rest).

(** The text of one property of an object. *)
Definition member_text (p : jsstring * json) : jsstring :=
  JSON.quote (fst p) ++ 58 :: JSON.stringify (snd p).

(** Apostrophes stand for the double quotes of a JSON text. *)
Definition quoted (s : string) : jsstring :=
  map (fun c => if c =? 39 then 34 else c) (js s).

(** ** The store and the snapshot file *)

(** [pruned now c c']: [c'] is [c] without some of the entries that have
    expired at [now]; nothing was added, overwritten, or removed while
    still alive. *)
Definition pruned (now : N) (c c' : NodeCache.cache) : Prop :=
  NodeCache.stdTTL c' = NodeCache.stdTTL c
  /\ forall k,
      Obj.get k (NodeCache.data c') = Obj.get k (NodeCache.data c)
      \/ (Obj.get k (NodeCache.data c') = None
          /\ exists e, Obj.get k (NodeCache.data c) = Some e
                       /\ NodeCache.expired now e = true).

(** The table after the lookups of [saveCache], and the object they
    build. *)
Fixpoint swept (now : N) (ks : list jsstring) (c : NodeCache.cache)
  : NodeCache.cache :=
  match ks with
  | [] => c
  | k :: ks' => swept now ks' (snd (NodeCache.get now k c))
  end.

Fixpoint gathered (now : N) (ks : list jsstring)
    (acc : list (jsstring * option json)) (c : NodeCache.cache)
  : list (jsstring * option json) :=
  match ks with
  | [] => acc
  | k :: ks' =>
      gathered now ks' (Obj.set k (fst (NodeCache.get now k c)) acc)
        (snd (NodeCache.get now k c))
  end.

(** The text [saveCache] writes at [now] from the table [c]. *)
Definition snapshot_text (now : N) (c : NodeCache.cache) : jsstring :=
  JSON.stringify
    (JObj (defined_props (gathered now (NodeCache.keys c) [] c))).

(** The entries alive at [now], as the properties of an object. *)
Fixpoint live_props (now : N) (d : list (jsstring * NodeCache.entry))
  : list (jsstring * json) :=
  match d with
  | [] => []
  | (k, e) :: d' =>
      if NodeCache.expired now e then live_props now d'
      else (k, NodeCache.v e) :: live_props now d'
  end.

(** The table after [forEach_set]. *)
Fixpoint restored (now : N) (entries : list (jsstring * json))
    (c : NodeCache.cache) : NodeCache.cache :=
  match entries with
  | [] => c
  | (k, x) :: entries' => restored now entries' (NodeCache.set now k x c)
  end.

(** Every value held by the store is well formed. *)
Definition wf_cache (c : NodeCache.cache) : bool :=
  forallb (fun p => wf_json (NodeCache.v (snd p))) (NodeCache.data c).

(** A value that [JSON.parse] can return: none of its numbers is NaN. *)
Fixpoint parsed_json (v : json) : bool :=
  match v with
  | JNum S754_nan => false
  | JArr elems => forallb parsed_json elems
  | JObj props => forallb (fun p => parsed_json (snd p)) props
  | _ => true
  end.

Definition parsed_cache (c : NodeCache.cache) : bool :=
  forallb (fun p => parsed_json (NodeCache.v (snd p))) (NodeCache.data c).

(** The text held by the snapshot file, if there is one. *)
Definition file_content (d : Fs.node) : option jsstring :=
  match d with
  | Fs.Missing => None
  | Fs.File _ content => Some content
  end.

(** The file exists but cannot be read, or its text is not JSON, or it is
    the JSON text [null], which has no entries. *)
Definition unusable (d : Fs.node) : Prop :=
  (exists content, d = Fs.File false content)
  \/ (exists text, d = Fs.File true text
                   /\ (JSON.parse text = None
                       \/ JSON.parse text = Some JNull)).

(** The snapshot [saveCache] writes gives back the key to value mapping of
    the store when [loadCache] reads it, both into the store it was taken
    from and into the store of a new process started at [later]. *)
Definition snapshot_restores (st : state) (later : N) : Prop :=
  let saved := snd (CachingProxy.saveCache st) in
  let same := CachingProxy.loadCache saved in
  let fresh :=
    CachingProxy.loadCache (CachingProxy.constructor (disk saved) later) in
  fst same = Normal tt
  /\ fst fresh = Normal tt
  /\ forall k,
      NodeCache.peek (clock st) k (cache (snd same))
      = NodeCache.peek (clock st) k (cache st)
      /\ NodeCache.peek later k (cache (snd fresh))
         = NodeCache.peek (clock st) k (cache st).

(** [loadCache] returns normally and leaves the store and the file as they
    were; [reported] tells whether it logged a failure. *)
Definition tolerated (st : state) (reported : bool) : Prop :=
  let run := CachingProxy.loadCache st in
  fst run = Normal tt
  /\ cache (snd run) = cache st
  /\ disk (snd run) = disk st
  /\ if reported
     then exists e,
         trace (snd run)
         = trace st ++ [ConsoleError (js "Error loading cache:") e]
     else trace (snd run) = trace st.

(** ** The request handler *)

(** The first request the handler sends, and the one it sends after a 304
    that it cannot answer from the store. *)
Definition first_request (origin : origin_url) (h : jsstring)
    (req : Express.request) : Axios.request :=
  {| Axios.method := Express.method req;
     Axios.url := href origin ++ Express.url req;
     Axios.headers := Obj.set (js "host") (JStr h) (Express.headers req) |}.

Definition second_request (origin : origin_url) (h : jsstring)
    (req : Express.request) : Axios.request :=
  {| Axios.method := Express.method req;
     Axios.url := href origin ++ Express.url req;
     Axios.headers :=
       Obj.set (js "host") (JStr h)
         (Obj.delete (js "if-modified-since")
            (Obj.delete (js "if-none-match") (Express.headers req))) |}.

(** The body of an error response. *)
Definition error_body (e : exn) : json :=
  JObj [(js "error", JStr (js "Proxy request failed"));
        (js "details", JStr (error_message e))].

(** What axios is left with once it has followed the redirects of [r]. *)
Definition settled (r : Axios.reply) : Axios.reply :=
  Axios.follow Axios.maxRedirects r.

(** The error axios rejects with for a reply. *)
Definition rejection (r : Axios.reply) : exn :=
  match settled r with
  | Axios.NetworkError message => AxiosError None message
  | Axios.Reply status _ =>
      AxiosError (Some status)
        (js "Request failed with status code "
           ++ index_to_string (N.to_nat status))
  | Axios.Redirect _ _ =>
      AxiosError None (js "Maximum number of redirects exceeded")
  end.

(** A reply the given [validateStatus] turns into a rejection. *)
Definition rejected (validate : N -> bool) (r : Axios.reply) : bool :=
  match settled r with
  | Axios.NetworkError _ => true
  | Axios.Reply status _ => negb (validate status)
  | Axios.Redirect _ _ => true
  end.


(** Two successive requests for [req]: the first is answered with [P] as
    a MISS and leaves [P] in the store, the second is answered with [P] as
    a HIT, and the origin has been called once. *)
Definition answered_then_hit (origin : origin_url)
    (net : Axios.origin_server) (st : state) (req : Express.request)
    (P : json) (delay1 delay2 : N) : Prop :=
  let run1 := CachingProxy.request origin net delay1 req st in
  let run2 := CachingProxy.request origin net delay2 req (snd run1) in
  fst run1 = Normal {| Express.statusCode := 200;
                       Express.xCache := Some Express.MISS;
                       Express.sent := Some P |}
  /\ NodeCache.peek (clock (snd run1)) (CachingProxy.generateCacheKey req)
       (cache (snd run1)) = Some P
  /\ fst run2 = Normal {| Express.statusCode := 200;
                          Express.xCache := Some Express.HIT;
                          Express.sent := Some P |}
  /\ List.length (forwarded (trace (snd run2)))
     = S (List.length (forwarded (trace st))).

(** Every [CacheSet] is followed at once by a [FileWritten] and then by a
    [Responded]. *)
Fixpoint write_through (evs : list event) : bool :=
  match evs with
  | [] => true
  | CacheSet _ _ :: rest =>
      match rest with
      | FileWritten _ :: Responded _ :: rest' => write_through rest'
      | _ => false
      end
  | _ :: rest => write_through rest
  end.

Definition is_CacheSet (e : event) : bool :=
  match e with
  | CacheSet _ _ => true
  | _ => false
  end.

(** ** Sample inputs *)

(** The numbers 1, 0 and -1500, and the number the text [1e999] is read
    as. *)
Definition number_1 : spec_float :=
  Eval vm_compute in Number.of_literal (js "1").
Definition number_0 : spec_float :=
  Eval vm_compute in Number.of_literal (js "0").
Definition number_minus_1500 : spec_float :=
  Eval vm_compute in Number.of_literal (js "-1.5e3").
Definition number_1e999 : spec_float :=
  Eval vm_compute in Number.of_literal (js "1e999").

(** [GET /x], with and without something the program never reads. *)
Definition request_get_x : Express.request :=
  {| Express.method := js "GET";
     Express.url := js "/x";
     Express.headers := [(js "host", JStr (js "localhost:3000"));
                         (js "accept", JStr (js "*/*"))];
     Express.body := [] |}.

Definition request_get_x_with_body : Express.request :=
  {| Express.method := js "GET";
     Express.url := js "/x";
     Express.headers := [(js "host", JStr (js "localhost:3000"));
                         (js "accept", JStr (js "*/*"))];
     Express.body := js "ignored" |}.

(** A conditional GET. *)
Definition request_conditional : Express.request :=
  {| Express.method := js "GET";
     Express.url := js "/x";
     Express.headers :=
       [(js "host", JStr (js "localhost:3000"));
        (js "if-none-match", JStr (js "W/abc"));
        (js "if-modified-since", JStr (js "Sat, 01 Jan 2000 00:00:00 GMT"))];
     Express.body := [] |}.

Definition origin_example : origin_url :=
  {| href := js "http://origin.test"; host := Some (js "origin.test") |}.

(** The origin of the end-to-end scenario: the object with [a] equal to 1
    for every request, after 5 ms. *)
Definition origin_a1 : Axios.origin_server :=
  fun _ _ => (5, Axios.Reply 200 (JObj [(js "a", JNum number_1)])).

(** An origin that answers 200 with the JSON number 0. *)
Definition origin_zero : Axios.origin_server :=
  fun _ _ => (5, Axios.Reply 200 (JNum number_0)).

(** An origin that answers 204 with an empty body. *)
Definition origin_204 : Axios.origin_server :=
  fun _ _ => (3, Axios.Reply 204 (JStr [])).


(** A store that holds one live entry under another key. *)
Definition state_one_entry : state :=
  {| cache := NodeCache.set 0 (js "other") (JStr (js "kept"))
                (NodeCache.create 3600);
     disk := Fs.Missing;
     clock := 1000;
     res := Express.fresh;
     trace := [] |}.

(** A store in which the key of [request_get_x] is present, alive, and
    holds the number 0. *)
Definition state_falsy_entry : state :=
  {| cache := NodeCache.set 0 (CachingProxy.generateCacheKey request_get_x)
                (JNum number_0) (NodeCache.create 3600);
     disk := Fs.Missing;
     clock := 1000;
     res := Express.fresh;
     trace := [] |}.

(** A store with two live entries and one that expired at time 900. *)
Definition state_three_entries : state :=
  {| cache :=
       {| NodeCache.stdTTL := 3600;
          NodeCache.data :=
            [(js "k1",
              {| NodeCache.t := 3600000;
                 NodeCache.v := JObj [(js "a", JNum number_1)] |});
             (js "gone",
              {| NodeCache.t := 900; NodeCache.v := JStr (js "old") |});
             (js "k2",
              {| NodeCache.t := 3600500;
                 NodeCache.v :=
                   JArr [JNum number_minus_1500; JStr [34; 92; 10; 0xD800];
                         JNull; JBool true] |})] |};
     disk := Fs.Missing;
     clock := 1000;
     res := Express.fresh;
     trace := [] |}.

(** A store whose one entry holds the number the text [1e999] is read
    as. *)
Definition state_infinity : state :=
  {| cache := NodeCache.set 0 (js "k") (JNum number_1e999)
                (NodeCache.create 3600);
     disk := Fs.Missing;
     clock := 1000;
     res := Express.fresh;
     trace := [] |}.

(** ** Further vocabulary *)

(** The text [generateCacheKey] hashes. *)
Definition key_text (req : Express.request) : jsstring :=
  JSON.stringify
    (JObj [(js "method", JStr (Express.method req));
           (js "url", JStr (Express.url req));
           (js "headers", JObj (Express.headers req))]).

(** The entries of a table that have not expired at [now]. *)
Fixpoint live_data (now : N) (d : list (jsstring * NodeCache.entry))
  : list (jsstring * NodeCache.entry) :=
  match d with
  | [] => []
  | (k, e) :: d' =>
      if NodeCache.expired now e then live_data now d'
      else (k, e) :: live_data now d'
  end.

(** The event of a response being sent. *)
Definition is_Responded (e : event) : bool :=
  match e with
  | Responded _ => true
  | _ => false
  end.

(** The bodies axios gets from the origin are well formed. *)
Definition wf_origin (net : Axios.origin_server) : Prop :=
  forall hist rq elapsed r s d,
    net hist rq = (elapsed, r) -> settled r = Axios.Reply s d ->
    wf_json d = true.

(** The file holds a text that [JSON.parse] reads as an object. *)
Definition snapshot_loadable (d : Fs.node) : Prop :=
  exists text props,
    file_content d = Some text /\ JSON.parse text = Some (JObj props).

(** The first process answers [P] as a MISS; a second process, started
    on the file the first one left, answers the same request with [P] as a
    HIT without contacting the origin. *)
Definition survives_restart (a : argv) (net : Axios.origin_server)
    (st : state) (req : Express.request) (P : json)
    (delay1 restart delay2 : N) : Prop :=
  let run1 := CachingProxy.request (origin a) net delay1 req st in
  let started := main a (disk (snd run1)) restart in
  let run2 := CachingProxy.request (origin a) net delay2 req (snd started) in
  fst run1 = Normal {| Express.statusCode := 200;
                       Express.xCache := Some Express.MISS;
                       Express.sent := Some P |}
  /\ fst started = Normal tt
  /\ fst run2 = Normal {| Express.statusCode := 200;
                          Express.xCache := Some Express.HIT;
                          Express.sent := Some P |}
  /\ forwarded (trace (snd run2)) = [].

(** [rq] is the request [req] redirected to the origin: same method, the
    URL of the origin followed by the URL of [req], the host of the origin
    as [host] header, and the other headers of [req], the conditional ones
    possibly left out. *)
Definition targets_origin (origin : origin_url) (req : Express.request)
    (rq : Axios.request) : Prop :=
  Axios.method rq = Express.method req
  /\ Axios.url rq = href origin ++ Express.url req
  /\ (exists h, host origin = Some h
                /\ Obj.get (js "host") (Axios.headers rq) = Some (JStr h))
  /\ forall name,
       name <> js "host" -> name <> js "if-none-match" ->
       name <> js "if-modified-since" ->
       Obj.get name (Axios.headers rq) = Obj.get name (Express.headers req).

(** ** Further sample inputs *)

(** A store with one live entry, next to a snapshot file that holds two
    entries, one of them under the same key. *)
Definition state_with_snapshot : state :=
  {| cache := NodeCache.set 0 (js "mine") (JStr (js "kept"))
                (NodeCache.set 0 (js "other") (JStr (js "old"))
                   (NodeCache.create 3600));
     disk := Fs.File true (quoted "{'other':'new','k':[1]}");
     clock := 1000;
     res := Express.fresh;
     trace := [] |}.

(** An origin that answers 304 to a conditional request and 200 with an
    empty body to an unconditional one. *)
Definition origin_not_modified : Axios.origin_server :=
  fun _ rq =>
    match Obj.get (js "if-none-match") (Axios.headers rq) with
    | Some _ => (4, Axios.Reply 304 (JStr []))
    | None => (6, Axios.Reply 200 (JStr []))
    end.

(** The key of [request_get_x] was stored at time 1000; it is now 2000. *)
Definition state_stored_at_1000 : state :=
  {| cache := NodeCache.set 1000
                (CachingProxy.generateCacheKey request_get_x)
                (JStr (js "page")) (NodeCache.create 3600);
     disk := Fs.Missing;
     clock := 2000;
     res := Express.fresh;
     trace := [] |}.

(** An origin option that [new URL] rejects. *)
Definition origin_not_a_url : origin_url :=
  {| href := js "origin.test"; host := None |}.

(** * Properties *)

(** ** Strings and objects *)

Lemma jsstring_eqb_eq (a b : jsstring) : jsstring_eqb a b = true <-> a = b.
Proof.
  unfold jsstring_eqb. destruct (list_eq_dec N.eq_dec a b); split; congruence.
Qed.

Lemma jsstring_eqb_refl (a : jsstring) : jsstring_eqb a a = true.
Proof. now apply jsstring_eqb_eq. Qed.

Lemma jsstring_eqb_neq (a b : jsstring) : a <> b -> jsstring_eqb a b = false.
Proof.
  intros H. destruct (jsstring_eqb a b) eqn:E; [|reflexivity].
  apply jsstring_eqb_eq in E. contradiction.
Qed.

Section ObjFacts.
Context {V : Type}.
Implicit Types (o : list (jsstring * V)) (k key : jsstring) (x : V).

Lemma Obj_get_set_same o key x : Obj.get key (Obj.set key x o) = Some x.
Proof.
  induction o as [|[k y] o IH]; simpl.
  - now rewrite jsstring_eqb_refl.
  - destruct (jsstring_eqb k key) eqn:E; simpl; rewrite E; auto.
Qed.

Lemma Obj_get_set_other o key k x :
  k <> key -> Obj.get k (Obj.set key x o) = Obj.get k o.
Proof.
  intros Hne. induction o as [|[k' y] o IH]; simpl.
  - rewrite jsstring_eqb_neq; congruence.
  - destruct (jsstring_eqb k' key) eqn:E; simpl.
    + apply jsstring_eqb_eq in E. subst.
      rewrite jsstring_eqb_neq; congruence.
    + destruct (jsstring_eqb k' k); auto.
Qed.

Lemma Obj_get_delete_same o key : Obj.get key (Obj.delete key o) = None.
Proof.
  induction o as [|[k y] o IH]; simpl; auto.
  destruct (jsstring_eqb k key) eqn:E; simpl; rewrite ?E; auto.
Qed.

Lemma Obj_get_delete_other o key k :
  k <> key -> Obj.get k (Obj.delete key o) = Obj.get k o.
Proof.
  intros Hne. induction o as [|[k' y] o IH]; simpl; auto.
  destruct (jsstring_eqb k' key) eqn:E; simpl.
  - apply jsstring_eqb_eq in E. subst.
    rewrite jsstring_eqb_neq; congruence.
  - destruct (jsstring_eqb k' k); auto.
Qed.

Lemma Obj_get_None_not_in o key :
  Obj.get key o = None <-> ~ In key (Obj.keys o).
Proof.
  induction o as [|[k y] o IH]; simpl.
  - tauto.
  - destruct (jsstring_eqb k key) eqn:E.
    + apply jsstring_eqb_eq in E. subst. split; [discriminate | tauto].
    + rewrite IH. split; [|tauto].
      intros H [H1|H1]; [|tauto]. subst.
      now rewrite jsstring_eqb_refl in E.
Qed.

Lemma Obj_delete_absent o key :
  ~ In key (Obj.keys o) -> Obj.delete key o = o.
Proof.
  induction o as [|[k y] o IH]; simpl; auto.
  intros H. destruct (jsstring_eqb k key) eqn:E.
  - apply jsstring_eqb_eq in E. tauto.
  - f_equal. tauto.
Qed.

Lemma Obj_keys_delete_incl o key k :
  In k (Obj.keys (Obj.delete key o)) -> In k (Obj.keys o).
Proof.
  induction o as [|[k' y] o IH]; simpl; auto.
  destruct (jsstring_eqb k' key); simpl; tauto.
Qed.

Lemma Obj_keys_delete_NoDup o key :
  NoDup (Obj.keys o) -> NoDup (Obj.keys (Obj.delete key o)).
Proof.
  induction o as [|[k y] o IH]; simpl; auto.
  intros H. inversion H; subst.
  destruct (jsstring_eqb k key); simpl; auto.
  constructor; auto. intros Hin. now apply Obj_keys_delete_incl in Hin.
Qed.

Lemma Obj_keys_set_present o key x :
  In key (Obj.keys o) -> Obj.keys (Obj.set key x o) = Obj.keys o.
Proof.
  induction o as [|[k y] o IH]; simpl; [tauto|].
  intros H. destruct (jsstring_eqb k key) eqn:E; simpl; [reflexivity|].
  f_equal. apply IH. destruct H as [H|H]; auto.
  subst. now rewrite jsstring_eqb_refl in E.
Qed.

Lemma Obj_keys_set_absent o key x :
  ~ In key (Obj.keys o) -> Obj.keys (Obj.set key x o) = Obj.keys o ++ [key].
Proof.
  induction o as [|[k y] o IH]; simpl; [reflexivity|].
  intros H. destruct (jsstring_eqb k key) eqn:E; simpl.
  - apply jsstring_eqb_eq in E. tauto.
  - f_equal. apply IH. tauto.
Qed.

Lemma Obj_keys_set_NoDup o key x :
  NoDup (Obj.keys o) -> NoDup (Obj.keys (Obj.set key x o)).
Proof.
  intros H.
  destruct (in_dec (list_eq_dec N.eq_dec) key (Obj.keys o)) as [Hin|Hnin].
  - now rewrite Obj_keys_set_present.
  - rewrite Obj_keys_set_absent by assumption.
    apply NoDup_app; auto.
    + repeat constructor. tauto.
    + intros a Ha [<-|[]]. tauto.
Qed.

End ObjFacts.

(** ** The cache key *)

Lemma hex_digit_lower_hex (n : N) :
  n < 16 -> is_lower_hex (hex_digit n) = true.
Proof.
  intros H. unfold is_lower_hex, is_digit, hex_digit.
  destruct (n <? 10) eqn:E.
  - apply N.ltb_lt in E. apply orb_true_iff. left.
    apply andb_true_iff. split; apply N.leb_le; lia.
  - apply N.ltb_ge in E. apply orb_true_iff. right.
    apply andb_true_iff. split; apply N.leb_le; lia.
Qed.

Lemma hex_of_byte_lower_hex (b : N) :
  b < 256 -> forallb is_lower_hex (Crypto.hex_of_byte b) = true.
Proof.
  intros H. unfold Crypto.hex_of_byte. simpl.
  rewrite !hex_digit_lower_hex; auto.
  - apply N.mod_lt. discriminate.
  - apply N.Div0.div_lt_upper_bound. exact H.
Qed.

Lemma bytes_le_length (w : nat) (x : N) :
  List.length (Crypto.bytes_le w x) = w.
Proof. unfold Crypto.bytes_le. now rewrite length_map, length_seq. Qed.

Lemma bytes_le_bound (w : nat) (x : N) :
  Forall (fun b => b < 256) (Crypto.bytes_le w x).
Proof.
  unfold Crypto.bytes_le. apply Forall_forall. intros b Hb.
  apply in_map_iff in Hb. destruct Hb as [i [<- _]].
  apply N.mod_lt. discriminate.
Qed.

Lemma digest_length (msg : list N) : List.length (Crypto.digest msg) = 16%nat.
Proof.
  unfold Crypto.digest.
  destruct (fold_left _ _ _) as [[[a b] c] d].
  now rewrite !length_app, !bytes_le_length.
Qed.

Lemma digest_bytes (msg : list N) :
  Forall (fun b => b < 256) (Crypto.digest msg).
Proof.
  unfold Crypto.digest.
  destruct (fold_left _ _ _) as [[[a b] c] d].
  repeat (apply Forall_app; split); apply bytes_le_bound.
Qed.

Lemma md5_hex_length (text : jsstring) :
  List.length (Crypto.md5_hex text) = 32%nat.
Proof.
  unfold Crypto.md5_hex.
  assert (H : forall l, List.length (flat_map Crypto.hex_of_byte l)
                        = (2 * List.length l)%nat).
  { induction l as [|b l IH]; simpl; [reflexivity | rewrite IH; lia]. }
  now rewrite H, digest_length.
Qed.

Lemma md5_hex_lower_hex (text : jsstring) :
  forallb is_lower_hex (Crypto.md5_hex text) = true.
Proof.
  unfold Crypto.md5_hex.
  pose proof (digest_bytes (Crypto.utf8_encode text)) as H.
  induction H as [|b l Hb _ IH]; [reflexivity|].
  cbn [flat_map]. rewrite forallb_app, IH, hex_of_byte_lower_hex; auto.
Qed.

(** The digest agrees with the RFC 1321 test suite. *)
Example md5_hex_empty :
  Crypto.md5_hex (js "") = js "d41d8cd98f00b204e9800998ecf8427e".
Proof. vm_compute. reflexivity. Qed.

Example md5_hex_abc :
  Crypto.md5_hex (js "abc") = js "900150983cd24fb0d6963f7d28e17f72".
Proof. vm_compute. reflexivity. Qed.

Example md5_hex_alphabet :
  Crypto.md5_hex (js "abcdefghijklmnopqrstuvwxyz")
  = js "c3fcd3d76192e4007dfb496cca67e13b".
Proof. vm_compute. reflexivity. Qed.

Example md5_hex_two_blocks :
  Crypto.md5_hex
    (js "12345678901234567890123456789012345678901234567890123456789012345678901234567890")
  = js "57edf4a22be3c955ac49da2e2107b67a".
Proof. vm_compute. reflexivity. Qed.

(** C5.  Key derivation is a total function of the method, the target and
    the header mapping alone: two requests that agree on the three have the
    same key, whatever else differs, and the key of any request is a string
    of exactly 32 lower-case hexadecimal digits. *)
Theorem generateCacheKey_deterministic_fixed_width
    (D1 D2 : Express.request)
    (Hmethod : Express.method D1 = Express.method D2)
    (Hurl : Express.url D1 = Express.url D2)
    (Hheaders : Express.headers D1 = Express.headers D2) :
  CachingProxy.generateCacheKey D1 = CachingProxy.generateCacheKey D2
  /\ List.length (CachingProxy.generateCacheKey D1) = 32%nat
  /\ forallb is_lower_hex (CachingProxy.generateCacheKey D1) = true.
Proof.
  unfold CachingProxy.generateCacheKey.
  rewrite Hmethod, Hurl, Hheaders.
  split; [reflexivity|]. split.
  - apply md5_hex_length.
  - apply md5_hex_lower_hex.
Qed.

Lemma generateCacheKey_deterministic_fixed_width_witness :
  CachingProxy.generateCacheKey request_get_x
  = CachingProxy.generateCacheKey request_get_x_with_body
  /\ List.length (CachingProxy.generateCacheKey request_get_x) = 32%nat
  /\ forallb is_lower_hex (CachingProxy.generateCacheKey request_get_x) = true.
Proof.
  apply (generateCacheKey_deterministic_fixed_width
           request_get_x request_get_x_with_body);
    reflexivity.
Defined.

Example generateCacheKey_get_x :
  CachingProxy.generateCacheKey request_get_x
  = js "fb42fd146f613fb29aefdb8b0117ed0d".
Proof. vm_compute. reflexivity. Qed.

(** ** The store *)

Lemma expired_later (now later : N) (e : NodeCache.entry) :
  now <= later ->
  NodeCache.expired now e = true -> NodeCache.expired later e = true.
Proof.
  unfold NodeCache.expired. intros Hle H.
  apply andb_true_iff in H. destruct H as [H0 H1].
  apply andb_true_iff. split; [exact H0|].
  apply N.ltb_lt in H1. apply N.ltb_lt. lia.
Qed.

Lemma pruned_refl (now : N) (c : NodeCache.cache) : pruned now c c.
Proof. split; [reflexivity | intros k; now left]. Qed.

Lemma pruned_trans (now : N) (c1 c2 c3 : NodeCache.cache) :
  pruned now c1 c2 -> pruned now c2 c3 -> pruned now c1 c3.
Proof.
  intros [Ht1 H1] [Ht2 H2]. split; [congruence|].
  intros k. destruct (H2 k) as [E2|[E2 [e [He Hx]]]].
  - rewrite E2. apply H1.
  - right. split; [exact E2|].
    destruct (H1 k) as [E1|[E1 _]]; [|congruence].
    exists e. split; [congruence | exact Hx].
Qed.

Lemma get_pruned (now : N) (key : jsstring) (c : NodeCache.cache) :
  pruned now c (snd (NodeCache.get now key c)).
Proof.
  unfold NodeCache.get.
  destruct (Obj.get key (NodeCache.data c)) as [e|] eqn:E;
    [|apply pruned_refl].
  destruct (NodeCache.expired now e) eqn:X; [|apply pruned_refl].
  split; [reflexivity|]. intros k. simpl.
  destruct (list_eq_dec N.eq_dec k key) as [->|Hne].
  - right. split; [apply Obj_get_delete_same | eauto].
  - left. now apply Obj_get_delete_other.
Qed.

Lemma pruned_peek (now later : N) (c c' : NodeCache.cache) (k : jsstring) :
  pruned now c c' -> now <= later ->
  NodeCache.peek later k c' = NodeCache.peek later k c.
Proof.
  intros [_ H] Hle. unfold NodeCache.peek, NodeCache.get.
  destruct (H k) as [E|[E [e [He Hx]]]].
  - rewrite E. destruct (Obj.get k (NodeCache.data c)) as [e|]; auto.
    destruct (NodeCache.expired later e); reflexivity.
  - rewrite E, He. now rewrite (expired_later now later e Hle Hx).
Qed.

Lemma pruned_entries (now : N) (c c' : NodeCache.cache)
    (k : jsstring) (e : NodeCache.entry) :
  pruned now c c' ->
  (Obj.get k (NodeCache.data c') = Some e ->
   Obj.get k (NodeCache.data c) = Some e)
  /\ (Obj.get k (NodeCache.data c) = Some e ->
      NodeCache.expired now e = false ->
      Obj.get k (NodeCache.data c') = Some e).
Proof.
  intros [_ H]. destruct (H k) as [E|[E [e' [He Hx]]]]; split; intros.
  - congruence.
  - congruence.
  - congruence.
  - congruence.
Qed.

Lemma peek_set_same (now later : N) (key : jsstring) (x : json)
    (c : NodeCache.cache) :
  NodeCache.stdTTL c = 0 \/ later <= now + NodeCache.stdTTL c * 1000 ->
  NodeCache.peek later key (NodeCache.set now key x c) = Some x.
Proof.
  intros H. unfold NodeCache.peek, NodeCache.get, NodeCache.set. simpl.
  rewrite Obj_get_set_same. unfold NodeCache.expired. simpl.
  destruct (NodeCache.stdTTL c =? 0) eqn:E; [reflexivity|].
  apply N.eqb_neq in E.
  replace (now + NodeCache.stdTTL c * 1000 <? later) with false.
  - now rewrite andb_false_r.
  - symmetry. apply N.ltb_ge. lia.
Qed.

Lemma peek_set_other (now later : N) (key k : jsstring) (x : json)
    (c : NodeCache.cache) :
  k <> key ->
  NodeCache.peek later k (NodeCache.set now key x c) = NodeCache.peek later k c.
Proof.
  intros Hne. unfold NodeCache.peek, NodeCache.get, NodeCache.set. simpl.
  rewrite Obj_get_set_other by assumption.
  destruct (Obj.get k (NodeCache.data c)) as [e|]; auto.
  destruct (NodeCache.expired later e); reflexivity.
Qed.

Lemma reduce_keys_eq (ks : list jsstring)
    (acc : list (jsstring * option json)) (st : state) :
  CachingProxy.reduce_keys ks acc st
  = (Normal (gathered (clock st) ks acc (cache st)),
     with_cache (swept (clock st) ks (cache st)) st).
Proof.
  revert acc st. induction ks as [|k ks IH]; intros acc st; simpl.
  - unfold ret. destruct st; reflexivity.
  - unfold bind, cache_get.
    destruct (NodeCache.get (clock st) k (cache st)) as [x c] eqn:E.
    rewrite IH. simpl. destruct st; reflexivity.
Qed.

Lemma swept_pruned (now : N) (ks : list jsstring) (c : NodeCache.cache) :
  pruned now c (swept now ks c).
Proof.
  revert c. induction ks as [|k ks IH]; intros c; simpl.
  - apply pruned_refl.
  - eapply pruned_trans; [apply get_pruned | apply IH].
Qed.

Lemma saveCache_eq (st : state) :
  CachingProxy.saveCache st
  = (Normal tt,
     {| cache := swept (clock st) (NodeCache.keys (cache st)) (cache st);
        disk := Fs.writeFileSync (snapshot_text (clock st) (cache st))
                  (disk st);
        clock := clock st;
        res := res st;
        trace := trace st
                   ++ [FileWritten (snapshot_text (clock st) (cache st))] |}).
Proof.
  unfold CachingProxy.saveCache, bind, cache_keys, fs_writeFileSync.
  rewrite reduce_keys_eq. reflexivity.
Qed.

Lemma defined_props_app (a b : list (jsstring * option json)) :
  defined_props (a ++ b) = defined_props a ++ defined_props b.
Proof.
  induction a as [|[k [x|]] a IH]; simpl; auto. now rewrite IH.
Qed.

Lemma Obj_set_absent {V : Type} (o : list (jsstring * V)) (key : jsstring)
    (x : V) :
  ~ In key (Obj.keys o) -> Obj.set key x o = o ++ [(key, x)].
Proof.
  induction o as [|[k y] o IH]; simpl; [reflexivity|].
  intros H. destruct (jsstring_eqb k key) eqn:E.
  - apply jsstring_eqb_eq in E. tauto.
  - f_equal. apply IH. tauto.
Qed.

Lemma gathered_live (now : N) (suf : list (jsstring * NodeCache.entry)) :
  forall (acc : list (jsstring * option json)) (c : NodeCache.cache),
    NoDup (Obj.keys suf) ->
    (forall k, In k (Obj.keys suf) -> ~ In k (Obj.keys acc)) ->
    (forall k e, In (k, e) suf -> Obj.get k (NodeCache.data c) = Some e) ->
    defined_props (gathered now (Obj.keys suf) acc c)
    = defined_props acc ++ live_props now suf.
Proof.
  induction suf as [|[k e] suf IH]; intros acc c Hnd Hacc Hc; simpl.
  - now rewrite app_nil_r.
  - inversion Hnd as [|? ? Hk Hnd']; subst.
    assert (Hget : Obj.get k (NodeCache.data c) = Some e)
      by (apply Hc; now left).
    unfold NodeCache.get at 1 2. rewrite Hget.
    rewrite Obj_set_absent by (apply Hacc; now left).
    destruct (NodeCache.expired now e) eqn:X; simpl.
    + rewrite IH; auto.
      * rewrite defined_props_app. simpl. now rewrite app_nil_r.
      * intros k' Hk'. unfold Obj.keys. rewrite map_app, in_app_iff. simpl.
        intros [H|[H|[]]]; [apply (Hacc k'); [now right | exact H]|].
        subst. contradiction.
      * intros k' e' Hin. simpl.
        rewrite Obj_get_delete_other; [apply Hc; now right|].
        intros ->. apply Hk. unfold Obj.keys.
        apply in_map_iff. now exists (k, e').
    + rewrite IH; auto.
      * rewrite defined_props_app. simpl. now rewrite <- app_assoc.
      * intros k' Hk'. unfold Obj.keys. rewrite map_app, in_app_iff. simpl.
        intros [H|[H|[]]]; [apply (Hacc k'); [now right | exact H]|].
        subst. contradiction.
      * intros k' e' Hin. apply Hc. now right.
Qed.

Lemma Obj_get_In_NoDup {V : Type} (o : list (jsstring * V)) (k : jsstring)
    (x : V) :
  NoDup (Obj.keys o) -> In (k, x) o -> Obj.get k o = Some x.
Proof.
  induction o as [|[k' y] o IH]; simpl; [tauto|].
  intros Hnd [H|H].
  - inversion H; subst. now rewrite jsstring_eqb_refl.
  - inversion Hnd as [|? ? Hk Hnd']; subst.
    destruct (jsstring_eqb k' k) eqn:E; [|auto].
    apply jsstring_eqb_eq in E. subst. exfalso. apply Hk.
    unfold Obj.keys. apply in_map_iff. now exists (k, x).
Qed.

(** What [saveCache] writes is the object of the entries alive at the time
    of the call. *)
Lemma snapshot_text_live (now : N) (c : NodeCache.cache) :
  NoDup (NodeCache.keys c) ->
  snapshot_text now c
  = JSON.stringify (JObj (live_props now (NodeCache.data c))).
Proof.
  intros Hnd. unfold snapshot_text, NodeCache.keys.
  rewrite gathered_live; auto.
  intros k e Hin. now apply Obj_get_In_NoDup.
Qed.

(** ** The request handler, path by path *)

Lemma forwarded_app (a b : list event) :
  forwarded (a ++ b) = forwarded a ++ forwarded b.
Proof.
  induction a as [|e a IH]; simpl; auto.
  destruct e; simpl; auto. now rewrite IH.
Qed.

Lemma get_Some_unchanged (now : N) (key : jsstring) (c : NodeCache.cache)
    (x : json) :
  fst (NodeCache.get now key c) = Some x -> snd (NodeCache.get now key c) = c.
Proof.
  unfold NodeCache.get.
  destruct (Obj.get key (NodeCache.data c)) as [e|]; [|discriminate].
  destruct (NodeCache.expired now e); [discriminate | reflexivity].
Qed.

Lemma truthy_value_Some (x : option json) (v : json) :
  truthy_value x = Some v -> x = Some v /\ truthy v = true.
Proof.
  destruct x as [w|]; simpl; [|discriminate].
  destruct (truthy w) eqn:E; [|discriminate].
  intros H. inversion H. subst. auto.
Qed.

Lemma truthy_value_None (x : option json) :
  truthy_value x = None -> truthy_opt x = false.
Proof.
  destruct x as [w|]; simpl; auto. destruct (truthy w); [discriminate|auto].
Qed.

Lemma axios_eq (net : Axios.origin_server) (validate : N -> bool)
    (rq : Axios.request) (st : state) (elapsed : N) (r : Axios.reply) :
  net (forwarded (trace st)) rq = (elapsed, r) ->
  axios net validate rq st
  = ((if rejected validate r then Throw (rejection r)
      else match settled r with
           | Axios.Reply status data =>
               Normal {| Axios.status := status; Axios.data := data |}
           | _ => Throw (rejection r)
           end),
     {| cache := cache st; disk := disk st; clock := clock st + elapsed;
        res := res st; trace := trace st ++ [Forwarded rq] |}).
Proof.
  intros H. unfold axios, rejected, rejection, settled. rewrite H.
  destruct (Axios.follow Axios.maxRedirects r) as [m|s d|l r']; simpl;
    try reflexivity.
  destruct (validate s); reflexivity.
Qed.

Ltac run_handler :=
  unfold CachingProxy.start_handler, bind, try_catch, cache_get, URL_host,
    ret, throw, res_set_x_cache, res_json, cache_set, console_error,
    res_status.

Ltac state_simpl :=
  unfold emit, with_res, with_cache, with_disk, with_clock;
  cbn [cache disk clock res trace fst snd
       Axios.status Axios.data Express.statusCode Express.xCache Express.sent].

Section HandlerPaths.

Variables (origin : origin_url) (net : Axios.origin_server)
          (req : Express.request) (st : state).

Let key := CachingProxy.generateCacheKey req.
Let cached := fst (NodeCache.get (clock st) key (cache st)).
Let c0 := snd (NodeCache.get (clock st) key (cache st)).

(** A live entry with a truthy value: the answer comes from the store. *)
Lemma handler_hit (hit : json) :
  truthy_value cached = Some hit ->
  CachingProxy.start_handler origin net req st
  = (Normal tt,
     let r := {| Express.statusCode := Express.statusCode (res st);
                 Express.xCache := Some Express.HIT;
                 Express.sent := Some hit |} in
     {| cache := cache st; disk := disk st; clock := clock st;
        res := r; trace := trace st ++ [Responded r] |}).
Proof.
  intros H. run_handler. subst cached key.
  destruct (truthy_value_Some _ _ H) as [Hx _].
  pose proof (get_Some_unchanged _ _ _ _ Hx) as Hc.
  destruct (NodeCache.get _ _ _) as [x c]. simpl in *. subst.
  rewrite H. state_simpl. destruct st; reflexivity.
Qed.

Hypothesis Hmiss : truthy_value cached = None.

Lemma if_same_None (b : bool) : (if b then @None json else None) = None.
Proof. now destruct b. Qed.

Ltac enter :=
  run_handler; subst cached c0 key;
  destruct (NodeCache.get _ _ _) as [x c]; cbn [fst snd] in *;
  rewrite ?Hmiss; state_simpl.

(** The origin argument is not a URL: the request is answered with 500. *)
Lemma handler_invalid_origin :
  host origin = None ->
  CachingProxy.start_handler origin net req st
  = (Normal tt,
     let r := {| Express.statusCode := 500;
                 Express.xCache := Express.xCache (res st);
                 Express.sent :=
                   Some (error_body (TypeError (js "Invalid URL"))) |} in
     {| cache := c0; disk := disk st; clock := clock st; res := r;
        trace := trace st
                   ++ [ConsoleError (js "Proxy error:")
                         (TypeError (js "Invalid URL"));
                       Responded r] |}).
Proof.
  intros Hh. enter. rewrite Hh. state_simpl. rewrite if_same_None.
  state_simpl. rewrite <- !app_assoc. reflexivity.
Qed.

(** The first request is rejected. *)
Lemma handler_first_rejected (h : jsstring) (elapsed : N) (r : Axios.reply) :
  host origin = Some h ->
  net (forwarded (trace st)) (first_request origin h req) = (elapsed, r) ->
  rejected CachingProxy.validateStatus r = true ->
  CachingProxy.start_handler origin net req st
  = (Normal tt,
     let e := rejection r in
     let resp := {| Express.statusCode := CachingProxy.status_or_500 e;
                    Express.xCache := Express.xCache (res st);
                    Express.sent := Some (error_body e) |} in
     {| cache := c0; disk := disk st; clock := clock st + elapsed;
        res := resp;
        trace := trace st
                   ++ [Forwarded (first_request origin h req);
                       ConsoleError (js "Proxy error:") e;
                       Responded resp] |}).
Proof.
  intros Hh Hnet Hrej. enter. rewrite Hh. state_simpl.
  erewrite axios_eq by exact Hnet. fold (first_request origin h req).
  rewrite Hrej. state_simpl. rewrite if_same_None.
  state_simpl. rewrite <- !app_assoc. reflexivity.
Qed.

(** The first request succeeds with a truthy body: it is stored, the
    snapshot is written, and the body is sent. *)
Lemma handler_miss_store (h : jsstring) (elapsed s : N) (P : json)
    (r1 : Axios.reply) :
  host origin = Some h ->
  net (forwarded (trace st)) (first_request origin h req) = (elapsed, r1) ->
  settled r1 = Axios.Reply s P ->
  CachingProxy.validateStatus s = true ->
  truthy P = true ->
  CachingProxy.start_handler origin net req st
  = (Normal tt,
     let now1 := clock st + elapsed in
     let c1 := NodeCache.set now1 key P c0 in
     let text := snapshot_text now1 c1 in
     let r := {| Express.statusCode := Express.statusCode (res st);
                 Express.xCache := Some Express.MISS;
                 Express.sent := Some P |} in
     {| cache := swept now1 (NodeCache.keys c1) c1;
        disk := Fs.writeFileSync text (disk st);
        clock := now1;
        res := r;
        trace := trace st
                   ++ [Forwarded (first_request origin h req);
                       CacheSet key P; FileWritten text; Responded r] |}).
Proof.
  intros Hh Hnet Hset Hv HP. enter. rewrite Hh. state_simpl.
  erewrite axios_eq by exact Hnet. fold (first_request origin h req).
  unfold rejected. rewrite Hset, Hv. cbn [negb]. state_simpl.
  rewrite if_same_None, HP. rewrite saveCache_eq. state_simpl.
  rewrite <- !app_assoc. reflexivity.
Qed.

(** The first request succeeds with a falsy body and a status other than
    304: the handler does nothing more. *)
Lemma handler_falsy_body (h : jsstring) (elapsed s : N) (d : json)
    (r1 : Axios.reply) :
  host origin = Some h ->
  net (forwarded (trace st)) (first_request origin h req) = (elapsed, r1) ->
  settled r1 = Axios.Reply s d ->
  CachingProxy.validateStatus s = true ->
  truthy d = false ->
  s <> 304 ->
  CachingProxy.start_handler origin net req st
  = (Normal tt,
     {| cache := c0; disk := disk st; clock := clock st + elapsed;
        res := res st;
        trace := trace st ++ [Forwarded (first_request origin h req)] |}).
Proof.
  intros Hh Hnet Hset Hv Hd Hs. enter. rewrite Hh. state_simpl.
  erewrite axios_eq by exact Hnet. fold (first_request origin h req).
  unfold rejected. rewrite Hset, Hv. cbn [negb]. state_simpl.
  rewrite if_same_None, Hd.
  apply N.eqb_neq in Hs. rewrite Hs. cbn [andb]. reflexivity.
Qed.

(** A 304 with a falsy body and nothing to answer from: the second request
    is sent; when it is rejected the request is answered with the error. *)
Lemma handler_second_rejected (h : jsstring) (e1 e2 : N) (d1 : json)
    (r1 r2 : Axios.reply) :
  host origin = Some h ->
  net (forwarded (trace st)) (first_request origin h req) = (e1, r1) ->
  settled r1 = Axios.Reply 304 d1 ->
  truthy d1 = false ->
  net (forwarded (trace st) ++ [first_request origin h req])
      (second_request origin h req) = (e2, r2) ->
  rejected Axios.validateStatus_default r2 = true ->
  CachingProxy.start_handler origin net req st
  = (Normal tt,
     let e := rejection r2 in
     let resp := {| Express.statusCode := CachingProxy.status_or_500 e;
                    Express.xCache := Express.xCache (res st);
                    Express.sent := Some (error_body e) |} in
     {| cache := c0; disk := disk st; clock := clock st + e1 + e2;
        res := resp;
        trace := trace st
                   ++ [Forwarded (first_request origin h req);
                       Forwarded (second_request origin h req);
                       ConsoleError (js "Proxy error:") e;
                       Responded resp] |}).
Proof.
  intros Hh Hnet Hset Hd Hnet2 Hrej. enter. rewrite Hh. state_simpl.
  erewrite axios_eq by exact Hnet. fold (first_request origin h req).
  unfold rejected at 1. rewrite Hset.
  replace (CachingProxy.validateStatus 304) with true by reflexivity.
  cbn [negb]. state_simpl. rewrite N.eqb_refl, Hd.
  rewrite (truthy_value_None _ Hmiss). cbn [andb negb].
  state_simpl.
  erewrite axios_eq
    by (state_simpl; rewrite forwarded_app; exact Hnet2).
  fold (second_request origin h req).
  rewrite Hrej. state_simpl. rewrite if_same_None.
  state_simpl. rewrite <- !app_assoc. reflexivity.
Qed.

(** ... and when it succeeds its body is stored and sent, whatever it
    is. *)
Lemma handler_second_store (h : jsstring) (e1 e2 s2 : N) (d1 d2 : json)
    (r1 r2 : Axios.reply) :
  host origin = Some h ->
  net (forwarded (trace st)) (first_request origin h req) = (e1, r1) ->
  settled r1 = Axios.Reply 304 d1 ->
  truthy d1 = false ->
  net (forwarded (trace st) ++ [first_request origin h req])
      (second_request origin h req) = (e2, r2) ->
  settled r2 = Axios.Reply s2 d2 ->
  Axios.validateStatus_default s2 = true ->
  CachingProxy.start_handler origin net req st
  = (Normal tt,
     let now2 := clock st + e1 + e2 in
     let c1 := NodeCache.set now2 key d2 c0 in
     let text := snapshot_text now2 c1 in
     let r := {| Express.statusCode := Express.statusCode (res st);
                 Express.xCache := Some Express.MISS;
                 Express.sent := Some d2 |} in
     {| cache := swept now2 (NodeCache.keys c1) c1;
        disk := Fs.writeFileSync text (disk st);
        clock := now2;
        res := r;
        trace := trace st
                   ++ [Forwarded (first_request origin h req);
                       Forwarded (second_request origin h req);
                       CacheSet key d2; FileWritten text; Responded r] |}).
Proof.
  intros Hh Hnet Hset Hd Hnet2 Hset2 Hv. enter. rewrite Hh. state_simpl.
  erewrite axios_eq by exact Hnet. fold (first_request origin h req).
  unfold rejected. rewrite Hset.
  replace (CachingProxy.validateStatus 304) with true by reflexivity.
  cbn [negb]. state_simpl. rewrite N.eqb_refl, Hd.
  rewrite (truthy_value_None _ Hmiss). cbn [andb negb].
  state_simpl.
  erewrite axios_eq
    by (state_simpl; rewrite forwarded_app; exact Hnet2).
  fold (second_request origin h req).
  unfold rejected. rewrite Hset2, Hv. cbn [negb]. state_simpl.
  rewrite saveCache_eq. state_simpl.
  rewrite <- !app_assoc. reflexivity.
Qed.

End HandlerPaths.

(** ** Requests, one after the other *)

Lemma request_eq (origin : origin_url) (net : Axios.origin_server)
    (delay : N) (req : Express.request) (st : state) :
  CachingProxy.request origin net delay req st
  = let st0 := {| cache := cache st; disk := disk st;
                  clock := clock st + delay; res := Express.fresh;
                  trace := trace st |} in
    match CachingProxy.start_handler origin net req st0 with
    | (Normal _, st') => (Normal (res st'), st')
    | (Throw e, st') => (Throw e, st')
    end.
Proof.
  unfold CachingProxy.request, bind, with_res, with_clock. simpl.
  destruct (CachingProxy.start_handler _ _ _ _) as [[u|e] st']; reflexivity.
Qed.

Lemma get_stdTTL (now : N) (key : jsstring) (c : NodeCache.cache) :
  NodeCache.stdTTL (snd (NodeCache.get now key c)) = NodeCache.stdTTL c.
Proof. apply (get_pruned now key c). Qed.

Lemma peek_None_truthy_value (now : N) (key : jsstring) (c : NodeCache.cache) :
  NodeCache.peek now key c = None ->
  truthy_value (fst (NodeCache.get now key c)) = None.
Proof. unfold NodeCache.peek. now intros ->. Qed.

(** C1, as amended.  From a store with no entry for the request, with an
    origin that answers 200 with a truthy payload [P], the first request is
    answered (P, MISS) and [P] is in the store; a second request for the
    same descriptor within the lifetime of the entry is answered (P, HIT);
    the origin is called exactly once across both. *)
Theorem hit_after_miss
    (origin : origin_url) (h : jsstring) (net : Axios.origin_server)
    (st : state) (req : Express.request) (P : json)
    (elapsed delay1 delay2 : N)
    (Hhost : host origin = Some h)
    (Httl : NodeCache.stdTTL (cache st) = 3600)
    (Hfresh : NodeCache.peek (clock st + delay1)
                (CachingProxy.generateCacheKey req) (cache st) = None)
    (Hnet : forall hist rq, net hist rq = (elapsed, Axios.Reply 200 P))
    (Htruthy : truthy P = true)
    (Hsoon : delay2 <= 3600000) :
  answered_then_hit origin net st req P delay1 delay2.
Proof.
  unfold answered_then_hit.
  rewrite (request_eq origin net delay1).
  cbv zeta.
  erewrite handler_miss_store with (h := h) (s := 200) (P := P);
    [ | apply peek_None_truthy_value; exact Hfresh | exact Hhost
      | apply Hnet | reflexivity | reflexivity | exact Htruthy ].
  cbn [fst snd cache disk clock res trace Express.statusCode Express.fresh].
  set (key := CachingProxy.generateCacheKey req).
  set (now1 := clock st + delay1 + elapsed).
  set (c0 := snd (NodeCache.get (clock st + delay1) key (cache st))).
  set (c1 := NodeCache.set now1 key P c0).
  assert (Hc1 : NodeCache.stdTTL c1 = 3600).
  { subst c1 c0. simpl. now rewrite get_stdTTL. }
  assert (Hpeek : forall later, later <= now1 + 3600000 -> now1 <= later ->
             NodeCache.peek later key (swept now1 (NodeCache.keys c1) c1)
             = Some P).
  { intros later Hle Hge.
    rewrite (pruned_peek now1 later c1) by (auto using swept_pruned).
    subst c1. apply peek_set_same. right.
    replace (NodeCache.stdTTL c0) with 3600
      by (subst c0; now rewrite get_stdTTL). lia. }
  split; [reflexivity|]. split; [apply Hpeek; lia|].
  rewrite request_eq. cbv zeta.
  cbn [cache disk clock res trace].
  erewrite handler_hit with (hit := P).
  - cbn [fst snd res trace]. split; [reflexivity|].
    rewrite !forwarded_app. simpl. rewrite !length_app. simpl. lia.
  - cbn [cache clock]. fold key. fold (NodeCache.peek (now1 + delay2) key
      (swept now1 (NodeCache.keys c1) c1)).
    rewrite Hpeek by lia. simpl. now rewrite Htruthy.
Qed.

Lemma hit_after_miss_witness :
  answered_then_hit origin_example origin_a1
    (CachingProxy.constructor Fs.Missing 1000) request_get_x
    (JObj [(js "a", JNum number_1)]) 10 20.
Proof.
  apply (hit_after_miss origin_example (js "origin.test") origin_a1
           (CachingProxy.constructor Fs.Missing 1000) request_get_x
           (JObj [(js "a", JNum number_1)]) 5 10 20).
  - reflexivity.
  - reflexivity.
  - reflexivity.
  - intros hist rq. reflexivity.
  - reflexivity.
  - vm_compute. discriminate.
Defined.

(** C1 as stated fails for a falsy payload: the store is fresh, the origin
    answers 200 with [0], and the first request is left unanswered. *)
Lemma falsy_payload_not_answered :
  ~ answered_then_hit origin_example origin_zero
      (CachingProxy.constructor Fs.Missing 1000) request_get_x
      (JNum number_0) 10 20.
Proof.
  unfold answered_then_hit. intros [H _].
  vm_compute in H. discriminate.
Qed.

(** ** Failures of the origin *)







(** ** Falsy values *)

(** C10.  The lookup does not yield a truthy value (there is no entry, or
    the entry has expired, or the entry holds a falsy value), and the origin
    answers the first request with a 2xx status and a falsy body.  Then the
    handler returns without having taken any of its result branches: the
    one request was forwarded and nothing else happened; nothing is stored
    or written, and the response object is as express created it, neither
    a payload nor an error having been sent. *)
Theorem falsy_body_takes_no_branch
    (origin : origin_url) (h : jsstring) (net : Axios.origin_server)
    (delay elapsed s : N) (st : state) (req : Express.request) (d : json)
    (Hhost : host origin = Some h)
    (Hmiss : truthy_opt
               (NodeCache.peek (clock st + delay)
                  (CachingProxy.generateCacheKey req) (cache st)) = false)
    (Hnet : net (forwarded (trace st)) (first_request origin h req)
            = (elapsed, Axios.Reply s d))
    (H2xx : 200 <= s < 300)
    (Hfalsy : truthy d = false) :
  let run := CachingProxy.request origin net delay req st in
  fst run = Normal Express.fresh
  /\ Express.sent (res (snd run)) = None
  /\ cache (snd run)
     = snd (NodeCache.get (clock st + delay)
              (CachingProxy.generateCacheKey req) (cache st))
  /\ disk (snd run) = disk st
  /\ trace (snd run) = trace st ++ [Forwarded (first_request origin h req)].
Proof.
  cbv zeta. rewrite request_eq. cbv zeta.
  erewrite handler_falsy_body with (h := h) (s := s) (d := d);
    [ | | exact Hhost | exact Hnet | reflexivity | | exact Hfalsy | lia ].
  - cbn. repeat split; reflexivity.
  - cbn [cache clock]. unfold NodeCache.peek in Hmiss.
    destruct (fst (NodeCache.get _ _ _)) as [v|]; simpl in *; [|reflexivity].
    now rewrite Hmiss.
  - unfold CachingProxy.validateStatus.
    replace (200 <=? s) with true by (symmetry; apply N.leb_le; lia).
    replace (s <? 300) with true by (symmetry; apply N.ltb_lt; lia).
    reflexivity.
Qed.

Lemma falsy_body_takes_no_branch_witness :
  NodeCache.peek 1010 (CachingProxy.generateCacheKey request_get_x)
    (cache state_falsy_entry) = Some (JNum number_0)
  /\ let run :=
       CachingProxy.request origin_example origin_204 10 request_get_x
         state_falsy_entry in
     fst run = Normal Express.fresh
     /\ Express.sent (res (snd run)) = None
     /\ cache (snd run) = cache state_falsy_entry
     /\ disk (snd run) = Fs.Missing
     /\ List.length (forwarded (trace (snd run))) = 1%nat.
Proof.
  split; [vm_compute; reflexivity|].
  pose proof (falsy_body_takes_no_branch origin_example (js "origin.test")
                origin_204 10 3 204 state_falsy_entry request_get_x
                (JStr [])) as H.
  cbv zeta in *.
  destruct H as [H1 [H2 [H3 [H4 H5]]]].
  - reflexivity.
  - vm_compute. reflexivity.
  - reflexivity.
  - lia.
  - reflexivity.
  - split; [exact H1|]. split; [exact H2|]. split.
    + rewrite H3. vm_compute. reflexivity.
    + split; [exact H4|]. rewrite H5. reflexivity.
Defined.

(** ** Write-through persistence *)

Lemma file_content_write (text : jsstring) (d : Fs.node) :
  file_content (Fs.writeFileSync text d) = Some text.
Proof. destruct d; reflexivity. Qed.

Lemma live_props_delete (now : N) (d : list (jsstring * NodeCache.entry))
    (k : jsstring) (e : NodeCache.entry) :
  NoDup (Obj.keys d) -> Obj.get k d = Some e ->
  NodeCache.expired now e = true ->
  live_props now (Obj.delete k d) = live_props now d.
Proof.
  induction d as [|[k' e'] d IH]; simpl; [discriminate|].
  intros Hnd Hget Hx. inversion Hnd as [|? ? Hk Hnd']; subst.
  destruct (jsstring_eqb k' k) eqn:E.
  - apply jsstring_eqb_eq in E. subst. inversion Hget; subst.
    rewrite Hx. now rewrite Obj_delete_absent.
  - simpl. rewrite IH; auto.
Qed.

Lemma get_keys_NoDup (now : N) (k : jsstring) (c : NodeCache.cache) :
  NoDup (NodeCache.keys c) ->
  NoDup (NodeCache.keys (snd (NodeCache.get now k c))).
Proof.
  intros H. unfold NodeCache.get.
  destruct (Obj.get k (NodeCache.data c)) as [e|]; auto.
  destruct (NodeCache.expired now e); auto.
  simpl. now apply Obj_keys_delete_NoDup.
Qed.

Lemma set_keys_NoDup (now : N) (k : jsstring) (x : json)
    (c : NodeCache.cache) :
  NoDup (NodeCache.keys c) -> NoDup (NodeCache.keys (NodeCache.set now k x c)).
Proof. intros H. simpl. now apply Obj_keys_set_NoDup. Qed.

Lemma live_props_get (now : N) (k : jsstring) (c : NodeCache.cache) :
  NoDup (NodeCache.keys c) ->
  live_props now (NodeCache.data (snd (NodeCache.get now k c)))
  = live_props now (NodeCache.data c).
Proof.
  intros H. unfold NodeCache.get.
  destruct (Obj.get k (NodeCache.data c)) as [e|] eqn:G; auto.
  destruct (NodeCache.expired now e) eqn:X; auto.
  simpl. now apply live_props_delete with (e := e).
Qed.

Lemma live_props_swept (now : N) (ks : list jsstring) (c : NodeCache.cache) :
  NoDup (NodeCache.keys c) ->
  live_props now (NodeCache.data (swept now ks c))
  = live_props now (NodeCache.data c).
Proof.
  revert c. induction ks as [|k ks IH]; intros c H; simpl; auto.
  rewrite IH by (now apply get_keys_NoDup). now apply live_props_get.
Qed.

(** After a store and save at [now], the file holds the entries alive in
    the store. *)
Lemma saved_is_live (now : N) (key : jsstring) (x : json)
    (c0 : NodeCache.cache) (d : Fs.node) :
  NoDup (NodeCache.keys c0) ->
  let c1 := NodeCache.set now key x c0 in
  file_content (Fs.writeFileSync (snapshot_text now c1) d)
  = Some (JSON.stringify
            (JObj (live_props now
                     (NodeCache.data (swept now (NodeCache.keys c1) c1))))).
Proof.
  intros Hnd c1. rewrite file_content_write.
  assert (Hnd1 : NoDup (NodeCache.keys c1)) by now apply set_keys_NoDup.
  now rewrite live_props_swept, snapshot_text_live.
Qed.

(** Case analysis on what the store holds, on the origin argument and on
    the replies of the origin: in every case one of the path lemmas gives
    the result of the handler. *)
Ltac handler_paths origin net req st :=
  let key := constr:(CachingProxy.generateCacheKey req) in
  let hit := fresh "hit" in
  let h := fresh "h" in
  let Hcached := fresh "Hcached" in
  let Hhost := fresh "Hhost" in
  let e1 := fresh "e1" in
  let r1 := fresh "r1" in
  let s1 := fresh "s1" in
  let d1 := fresh "d1" in
  let Hnet1 := fresh "Hnet1" in
  let Hrej1 := fresh "Hrej1" in
  let Hset1 := fresh "Hset1" in
  let Hv1 := fresh "Hv1" in
  let Hd := fresh "Hd" in
  let Hs := fresh "Hs" in
  let e2 := fresh "e2" in
  let r2 := fresh "r2" in
  let s2 := fresh "s2" in
  let d2 := fresh "d2" in
  let Hnet2 := fresh "Hnet2" in
  let Hrej2 := fresh "Hrej2" in
  let Hset2 := fresh "Hset2" in
  let Hv2 := fresh "Hv2" in
  destruct (truthy_value (fst (NodeCache.get (clock st) key (cache st))))
    as [hit|] eqn:Hcached;
  [ erewrite handler_hit by exact Hcached
  | destruct (host origin) as [h|] eqn:Hhost;
    [ destruct (net (forwarded (trace st)) (first_request origin h req))
        as [e1 r1] eqn:Hnet1;
      destruct (rejected CachingProxy.validateStatus r1) eqn:Hrej1;
      [ erewrite handler_first_rejected by eassumption
      | pose proof Hrej1 as Hv1; unfold rejected in Hv1;
        destruct (settled r1) as [?|s1 d1|? ?] eqn:Hset1;
        try discriminate Hv1;
        apply negb_false_iff in Hv1;
        destruct (truthy d1) eqn:Hd;
        [ erewrite handler_miss_store by eassumption
        | destruct (N.eq_dec s1 304) as [Hs|Hs];
          [ subst s1;
            destruct (net (forwarded (trace st)
                             ++ [first_request origin h req])
                        (second_request origin h req))
              as [e2 r2] eqn:Hnet2;
            destruct (rejected Axios.validateStatus_default r2) eqn:Hrej2;
            [ erewrite handler_second_rejected by eassumption
            | pose proof Hrej2 as Hv2; unfold rejected in Hv2;
              destruct (settled r2) as [?|s2 d2|? ?] eqn:Hset2;
              try discriminate Hv2;
              apply negb_false_iff in Hv2;
              erewrite handler_second_store by eassumption ]
          | erewrite handler_falsy_body by eassumption ] ] ]
    | erewrite handler_invalid_origin by assumption ] ].

(** The handler always returns normally, whatever the origin does; the
    time-to-live of the store is not changed and the keys of the store stay
    pairwise distinct. *)
Lemma start_handler_returns
    (origin : origin_url) (net : Axios.origin_server)
    (req : Express.request) (st : state) :
  let run := CachingProxy.start_handler origin net req st in
  fst run = Normal tt
  /\ NodeCache.stdTTL (cache (snd run)) = NodeCache.stdTTL (cache st)
  /\ (NoDup (NodeCache.keys (cache st)) ->
      NoDup (NodeCache.keys (cache (snd run)))).
Proof.
  cbv zeta.
  pose proof (get_pruned (clock st) (CachingProxy.generateCacheKey req)
                (cache st)) as [Httl _].
  pose proof (get_keys_NoDup (clock st) (CachingProxy.generateCacheKey req)
                (cache st)) as Hnd.
  assert (Hswept : forall now ks c,
             NodeCache.stdTTL (swept now ks c) = NodeCache.stdTTL c
             /\ (NoDup (NodeCache.keys c) ->
                 NoDup (NodeCache.keys (swept now ks c)))).
  { intros now ks. induction ks as [|k ks IH]; intros c; [now split|].
    simpl. destruct (IH (snd (NodeCache.get now k c))) as [I1 I2].
    split.
    - rewrite I1. apply (get_pruned now k c).
    - intros H. apply I2. now apply get_keys_NoDup. }
  handler_paths origin net req st; cbn [fst snd cache];
    (split; [reflexivity|]);
    try (split; [exact Httl | exact Hnd]);
    try (split; [reflexivity | tauto]).
  - split.
    + rewrite (proj1 (Hswept _ _ _)). simpl. exact Httl.
    + intros H. apply Hswept. apply set_keys_NoDup. auto.
  - split.
    + rewrite (proj1 (Hswept _ _ _)). simpl. exact Httl.
    + intros H. apply Hswept. apply set_keys_NoDup. auto.
Qed.

(** C9.  Whatever the origin does, the effects of handling one request
    are such that every store into the cache is followed at once by the
    write of the snapshot file and only then by the response; and when the
    request stored something, the file ends up holding the JSON text of
    exactly the entries alive in the store. *)
Theorem write_through_snapshot
    (origin : origin_url) (net : Axios.origin_server)
    (req : Express.request) (st : state)
    (Hobj : NoDup (NodeCache.keys (cache st))) :
  let run := CachingProxy.start_handler origin net req st in
  exists evs,
    trace (snd run) = trace st ++ evs
    /\ write_through evs = true
    /\ (existsb is_CacheSet evs = true ->
        file_content (disk (snd run))
        = Some (JSON.stringify
                  (JObj (live_props (clock (snd run))
                           (NodeCache.data (cache (snd run))))))).
Proof.
  cbv zeta.
  pose proof (get_keys_NoDup (clock st) (CachingProxy.generateCacheKey req)
                (cache st) Hobj) as Hc0.
  handler_paths origin net req st; cbn [snd trace disk clock cache];
    eexists; (split; [reflexivity|]); (split; [reflexivity|]);
    first [ discriminate | intros _; now apply saved_is_live ].
Qed.

Lemma write_through_snapshot_witness :
  let run :=
    CachingProxy.start_handler origin_example origin_a1 request_get_x
      state_one_entry in
  exists evs,
    trace (snd run) = trace state_one_entry ++ evs
    /\ write_through evs = true
    /\ (existsb is_CacheSet evs = true ->
        file_content (disk (snd run))
        = Some (JSON.stringify
                  (JObj (live_props (clock (snd run))
                           (NodeCache.data (cache (snd run))))))).
Proof.
  apply (write_through_snapshot origin_example origin_a1 request_get_x
           state_one_entry).
  vm_compute. repeat constructor; simpl; intuition discriminate.
Defined.

(** ** Conditional-request headers *)

(** Every inbound header other than [host] is on the first request. *)
Lemma first_request_keeps_headers (origin : origin_url) (h : jsstring)
    (req : Express.request) (name : jsstring) :
  name <> js "host" ->
  Obj.get name (Axios.headers (first_request origin h req))
  = Obj.get name (Express.headers req).
Proof. intros H. simpl. now apply Obj_get_set_other. Qed.

(** The second request is the one that goes without them. *)
Lemma second_request_strips_headers (origin : origin_url) (h : jsstring)
    (req : Express.request) :
  Obj.get (js "if-none-match") (Axios.headers (second_request origin h req))
  = None
  /\ Obj.get (js "if-modified-since")
       (Axios.headers (second_request origin h req)) = None.
Proof.
  simpl. split.
  - rewrite Obj_get_set_other by discriminate.
    rewrite Obj_get_delete_other by discriminate.
    apply Obj_get_delete_same.
  - rewrite Obj_get_set_other by discriminate.
    apply Obj_get_delete_same.
Qed.

(** C2.  The code at the failing input: the store is fresh, the request
    carries both conditional headers, and the first (here the only) request
    sent to the origin still carries both. *)
Theorem first_forward_keeps_conditional_headers :
  let run :=
    CachingProxy.request origin_example origin_a1 0 request_conditional
      (CachingProxy.constructor Fs.Missing 1000) in
  exists rq,
    forwarded (trace (snd run)) = [rq]
    /\ Obj.get (js "if-none-match") (Axios.headers rq)
       = Some (JStr (js "W/abc"))
    /\ Obj.get (js "if-modified-since") (Axios.headers rq)
       = Some (JStr (js "Sat, 01 Jan 2000 00:00:00 GMT")).
Proof.
  cbv zeta. eexists. split; [vm_compute; reflexivity|].
  split; vm_compute; reflexivity.
Qed.

(** ** The time-to-live option *)

(** [main] never reads [argv.ttl]. *)
Lemma main_ignores_ttl (p : N) (o : origin_url) (c : bool) (t1 t2 : N)
    (d : Fs.node) (now : N) :
  main {| port := p; origin := o; clear_cache := c; ttl := t1 |} d now
  = main {| port := p; origin := o; clear_cache := c; ttl := t2 |} d now.
Proof. reflexivity. Qed.

(** C3.  The code at the failing input: the program is started with the
    default options, so with a ttl of 60 seconds; a payload is stored at
    time 1015; 61 seconds later the entry is still in the store and the
    request is answered from it. *)
Theorem ttl_option_not_applied :
  let payload := JObj [(js "a", JNum number_1)] in
  let started := snd (main (argv_default origin_example) Fs.Missing 1000) in
  let run1 :=
    CachingProxy.request origin_example origin_a1 10 request_get_x started in
  let run2 :=
    CachingProxy.request origin_example origin_a1 61000 request_get_x
      (snd run1) in
  ttl (argv_default origin_example) = 60
  /\ clock (snd run1) = 1015
  /\ In (CacheSet (CachingProxy.generateCacheKey request_get_x) payload)
       (trace (snd run1))
  /\ NodeCache.peek (1015 + 61000)
       (CachingProxy.generateCacheKey request_get_x) (cache (snd run1))
     = Some payload
  /\ fst run2 = Normal {| Express.statusCode := 200;
                          Express.xCache := Some Express.HIT;
                          Express.sent := Some payload |}.
Proof.
  cbv zeta. split; [reflexivity|]. split; [vm_compute; reflexivity|].
  split; [vm_compute; tauto|]. split; vm_compute; reflexivity.
Qed.

(** ** Clearing *)

(** C8.  [clearCache] succeeds from any state and leaves the store empty
    and the snapshot file absent; called again it succeeds again and
    changes neither. *)
Theorem clearCache_idempotent (st : state) :
  let run1 := CachingProxy.clearCache st in
  let run2 := CachingProxy.clearCache (snd run1) in
  fst run1 = Normal tt
  /\ NodeCache.data (cache (snd run1)) = []
  /\ disk (snd run1) = Fs.Missing
  /\ fst run2 = Normal tt
  /\ cache (snd run2) = cache (snd run1)
  /\ disk (snd run2) = disk (snd run1).
Proof.
  destruct st as [c d now r tr]. destruct d as [|readable content];
    cbv zeta;
    unfold CachingProxy.clearCache, bind, console_log, cache_flushAll,
      fs_existsSync, fs_unlinkSync, ret; simpl;
    repeat split; reflexivity.
Qed.

Example clearCache_empty_store :
  let run := main {| port := 3000; origin := origin_example;
                     clear_cache := true; ttl := 60 |}
               (Fs.File true (js "{}")) 0 in
  fst run = Normal tt
  /\ NodeCache.data (cache (snd run)) = []
  /\ disk (snd run) = Fs.Missing.
Proof. vm_compute. repeat split; reflexivity. Qed.

(** ** Loading a snapshot that cannot be used *)

(** C7, as amended.  On a snapshot file that is unreadable or malformed,
    [loadCache] leaves the store as it was (empty, at startup), reports the
    failure on the console and returns normally, so that [start] goes on;
    on an absent file it leaves the store as it was and returns normally
    without reporting anything. *)
Theorem loadCache_tolerates_unusable_snapshot (st : state) :
  (unusable (disk st) -> tolerated st true)
  /\ (disk st = Fs.Missing -> tolerated st false).
Proof.
  unfold tolerated, CachingProxy.loadCache, try_catch, bind, console_error,
    fs_existsSync, fs_readFileSync, JSON_parse, Object_entries.
  unfold throw, ret, emit.
  destruct st as [c d now r tr]. simpl. split.
  - intros [[content ->]|[text [-> [H|H]]]]; simpl; try rewrite H; simpl.
    + repeat split. now exists FsError.
    + repeat split. now exists SyntaxError.
    + repeat split. eexists. reflexivity.
  - intros ->. simpl. repeat split.
Qed.

Lemma loadCache_tolerates_unusable_snapshot_witness :
  tolerated (CachingProxy.constructor (Fs.File true (js "{oops")) 0) true
  /\ tolerated (CachingProxy.constructor (Fs.File false (js "{}")) 0) true
  /\ tolerated (CachingProxy.constructor Fs.Missing 0) false.
Proof.
  split; [|split].
  - apply (loadCache_tolerates_unusable_snapshot
             (CachingProxy.constructor (Fs.File true (js "{oops")) 0)).
    right. exists (js "{oops"). split; [reflexivity|]. left.
    vm_compute. reflexivity.
  - apply (loadCache_tolerates_unusable_snapshot
             (CachingProxy.constructor (Fs.File false (js "{}")) 0)).
    left. exists (js "{}"). reflexivity.
  - apply (loadCache_tolerates_unusable_snapshot
             (CachingProxy.constructor Fs.Missing 0)).
    reflexivity.
Defined.

(** C7 as stated fails for an absent file: nothing is reported. *)
Lemma loadCache_absent_file_not_reported :
  ~ tolerated (CachingProxy.constructor Fs.Missing 0) true.
Proof.
  unfold tolerated. intros [_ [_ [_ [e H]]]].
  vm_compute in H. discriminate.
Qed.

(** At startup: the store is empty after [start] and the server goes on to
    listen. *)
Example start_with_malformed_snapshot :
  let run := main (argv_default origin_example)
               (Fs.File true (js "not json")) 0 in
  fst run = Normal tt
  /\ NodeCache.data (cache (snd run)) = []
  /\ exists msg,
      trace (snd run)
      = [ConsoleError (js "Error loading cache:") SyntaxError;
         ConsoleLog msg].
Proof.
  vm_compute. split; [reflexivity|]. split; [reflexivity|].
  eexists. reflexivity.
Qed.

(** ** [JSON.parse] after [JSON.stringify] *)

(** *** Strings *)

Lemma hex_value_hex_digit (n : N) :
  n < 16 -> JSON.hex_value (hex_digit n) = Some n.
Proof.
  intros H. unfold JSON.hex_value, hex_digit, is_digit.
  destruct (n <? 10) eqn:E.
  - apply N.ltb_lt in E.
    replace (48 <=? 48 + n) with true by (symmetry; apply N.leb_le; lia).
    replace (48 + n <=? 57) with true by (symmetry; apply N.leb_le; lia).
    cbn [andb]. f_equal. lia.
  - apply N.ltb_ge in E.
    replace (87 + n <=? 57) with false by (symmetry; apply N.leb_gt; lia).
    rewrite andb_false_r.
    replace (97 <=? 87 + n) with true by (symmetry; apply N.leb_le; lia).
    replace (87 + n <=? 102) with true by (symmetry; apply N.leb_le; lia).
    cbn [andb]. f_equal. lia.
Qed.

Lemma nibbles_recompose (c : N) :
  c < 65536 ->
  ((N.shiftr c 12 mod 16 * 16 + N.shiftr c 8 mod 16) * 16
   + N.shiftr c 4 mod 16) * 16 + c mod 16 = c.
Proof.
  intros H. rewrite !N.shiftr_div_pow2.
  change (2 ^ 12) with 4096. change (2 ^ 8) with 256.
  change (2 ^ 4) with 16.
  pose proof (N.div_mod c 16 ltac:(discriminate)) as H0.
  pose proof (N.mod_lt c 16 ltac:(discriminate)) as L0.
  pose proof (N.div_mod (c / 16) 16 ltac:(discriminate)) as H1.
  pose proof (N.mod_lt (c / 16) 16 ltac:(discriminate)) as L1.
  pose proof (N.div_mod (c / 16 / 16) 16 ltac:(discriminate)) as H2.
  pose proof (N.mod_lt (c / 16 / 16) 16 ltac:(discriminate)) as L2.
  pose proof (N.div_mod (c / 16 / 16 / 16) 16 ltac:(discriminate)) as H3.
  pose proof (N.mod_lt (c / 16 / 16 / 16) 16 ltac:(discriminate)) as L3.
  replace (c / 256) with (c / 16 / 16)
    by (rewrite N.Div0.div_div; reflexivity).
  replace (c / 4096) with (c / 16 / 16 / 16)
    by (rewrite !N.Div0.div_div; reflexivity).
  assert (Hz : c / 16 / 16 / 16 / 16 = 0).
  { rewrite !N.Div0.div_div. apply N.div_small. simpl. exact H. }
  rewrite Hz in H3.
  generalize dependent (c / 16 / 16 / 16 mod 16).
  generalize dependent (c / 16 / 16 mod 16).
  generalize dependent (c / 16 mod 16).
  generalize dependent (c mod 16).
  generalize dependent (c / 16 / 16 / 16).
  generalize dependent (c / 16 / 16).
  generalize dependent (c / 16).
  intros. lia.
Qed.

Lemma string_body_unicode_escape (c : N) (t : jsstring) :
  c < 65536 ->
  JSON.string_body (JSON.unicode_escape c ++ t)
  = match JSON.string_body t with
    | Some (str, r) => Some (c :: str, r)
    | None => None
    end.
Proof.
  intros H. unfold JSON.unicode_escape.
  cbn [app JSON.string_body N.eqb Pos.eqb].
  unfold JSON.hex4.
  rewrite !hex_value_hex_digit by (apply N.mod_lt; discriminate).
  now rewrite nibbles_recompose.
Qed.

Lemma quote_body_cons (c : N) (rest : jsstring) :
  JSON.quote_body (c :: rest)
  = if c =? 8 then 92 :: 98 :: JSON.quote_body rest
    else if c =? 9 then 92 :: 116 :: JSON.quote_body rest
    else if c =? 10 then 92 :: 110 :: JSON.quote_body rest
    else if c =? 12 then 92 :: 102 :: JSON.quote_body rest
    else if c =? 13 then 92 :: 114 :: JSON.quote_body rest
    else if c =? 34 then 92 :: 34 :: JSON.quote_body rest
    else if c =? 92 then 92 :: 92 :: JSON.quote_body rest
    else if c <? 32 then JSON.unicode_escape c ++ JSON.quote_body rest
    else if is_high_surrogate c then
      match rest with
      | d :: rest' =>
          if is_low_surrogate d then c :: d :: JSON.quote_body rest'
          else JSON.unicode_escape c ++ JSON.quote_body rest
      | [] => JSON.unicode_escape c
      end
    else if is_low_surrogate c
         then JSON.unicode_escape c ++ JSON.quote_body rest
    else c :: JSON.quote_body rest.
Proof. destruct rest; reflexivity. Qed.

Lemma string_body_raw (c : N) (t : jsstring) :
  c <> 34 -> c <> 92 -> 32 <= c ->
  JSON.string_body (c :: t)
  = match JSON.string_body t with
    | Some (str, r) => Some (c :: str, r)
    | None => None
    end.
Proof.
  intros H1 H2 H3. cbn [JSON.string_body].
  apply N.eqb_neq in H1, H2. rewrite H1, H2.
  replace (c <? 32) with false by (symmetry; apply N.ltb_ge; exact H3).
  reflexivity.
Qed.

Lemma surrogate_bounds (c : N) :
  is_high_surrogate c = true \/ is_low_surrogate c = true ->
  32 <= c /\ c < 65536 /\ c <> 34 /\ c <> 92.
Proof.
  unfold is_high_surrogate, is_low_surrogate.
  rewrite !andb_true_iff, !N.leb_le. lia.
Qed.

Lemma string_body_quote_body (s rest : jsstring) :
  JSON.string_body (JSON.quote_body s ++ 34 :: rest) = Some (s, rest).
Proof.
  remember (List.length s) as n eqn:Hn.
  assert (Hle : (List.length s <= n)%nat) by lia. clear Hn.
  revert s Hle. induction n as [|n IH]; intros s Hle.
  { destruct s; [reflexivity | simpl in Hle; lia]. }
  destruct s as [|c s]; [reflexivity|].
  simpl in Hle. assert (Hs : (List.length s <= n)%nat) by lia.
  rewrite quote_body_cons.
  destruct (N.eqb_spec c 8) as [->|N8];
    [cbn [app JSON.string_body N.eqb Pos.eqb JSON.simple_escape];
     now rewrite IH|].
  destruct (N.eqb_spec c 9) as [->|N9];
    [cbn [app JSON.string_body N.eqb Pos.eqb JSON.simple_escape];
     now rewrite IH|].
  destruct (N.eqb_spec c 10) as [->|N10];
    [cbn [app JSON.string_body N.eqb Pos.eqb JSON.simple_escape];
     now rewrite IH|].
  destruct (N.eqb_spec c 12) as [->|N12];
    [cbn [app JSON.string_body N.eqb Pos.eqb JSON.simple_escape];
     now rewrite IH|].
  destruct (N.eqb_spec c 13) as [->|N13];
    [cbn [app JSON.string_body N.eqb Pos.eqb JSON.simple_escape];
     now rewrite IH|].
  destruct (N.eqb_spec c 34) as [->|N34];
    [cbn [app JSON.string_body N.eqb Pos.eqb JSON.simple_escape];
     now rewrite IH|].
  destruct (N.eqb_spec c 92) as [->|N92];
    [cbn [app JSON.string_body N.eqb Pos.eqb JSON.simple_escape];
     now rewrite IH|].
  destruct (N.ltb_spec c 32) as [L32|G32].
  { rewrite <- app_assoc, string_body_unicode_escape by lia.
    now rewrite IH. }
  destruct (is_high_surrogate c) eqn:Hhi.
  { destruct (surrogate_bounds c (or_introl Hhi)) as [_ [B _]].
    destruct s as [|d s'].
    - rewrite string_body_unicode_escape by exact B.
      reflexivity.
    - destruct (is_low_surrogate d) eqn:Hlo.
      + destruct (surrogate_bounds d (or_intror Hlo)) as [D1 [_ [D2 D3]]].
        cbn [app]. rewrite string_body_raw by assumption.
        rewrite string_body_raw by assumption.
        rewrite IH; [reflexivity|]. simpl in Hs. lia.
      + rewrite <- app_assoc, string_body_unicode_escape by exact B.
        now rewrite IH. }
  destruct (is_low_surrogate c) eqn:Hlo.
  { destruct (surrogate_bounds c (or_intror Hlo)) as [_ [B _]].
    rewrite <- app_assoc, string_body_unicode_escape by exact B.
    now rewrite IH. }
  cbn [app]. rewrite string_body_raw by assumption. now rewrite IH.
Qed.

(** *** Numbers *)

Lemma span_spec (p : N -> bool) (s : jsstring) :
  s = fst (span p s) ++ snd (span p s)
  /\ forallb p (fst (span p s)) = true.
Proof.
  induction s as [|c s [IH1 IH2]]; simpl; [auto|].
  destruct (p c) eqn:E; [|auto].
  destruct (span p s) as [a b]. simpl in *.
  split; [congruence | now rewrite E].
Qed.

Lemma span_numchar_app (tok rest : jsstring) :
  forallb JSON.is_numchar tok = true -> delimited rest ->
  span JSON.is_numchar (tok ++ rest) = (tok, rest).
Proof.
  intros Htok Hrest. induction tok as [|c tok IH]; simpl.
  - destruct rest as [|d rest]; [reflexivity|].
    simpl in Hrest. simpl. now rewrite Hrest.
  - simpl in Htok. apply andb_true_iff in Htok. destruct Htok as [Hc Ht].
    now rewrite Hc, IH.
Qed.

Lemma is_digit_numchar (c : N) :
  is_digit c = true -> JSON.is_numchar c = true.
Proof. intros H. unfold JSON.is_numchar. now rewrite H. Qed.

Lemma digits_numchar (s : jsstring) :
  forallb is_digit s = true -> forallb JSON.is_numchar s = true.
Proof.
  induction s as [|c s IH]; simpl; auto.
  intros H. apply andb_true_iff in H. destruct H as [Hc Hs].
  now rewrite (is_digit_numchar c Hc), IH.
Qed.

Lemma digits1_end_numchar (s : jsstring) :
  JSON.digits1_end s = true -> forallb JSON.is_numchar s = true.
Proof. destruct s; [discriminate|]. apply digits_numchar. Qed.

Lemma number_exp_numchar (s : jsstring) :
  JSON.number_exp s = true -> forallb JSON.is_numchar s = true.
Proof.
  destruct s as [|c r]; [reflexivity|]. unfold JSON.number_exp.
  destruct ((c =? 101) || (c =? 69)) eqn:E; [|discriminate].
  assert (Hc : JSON.is_numchar c = true).
  { unfold JSON.is_numchar. apply orb_true_iff in E.
    destruct E as [E|E]; rewrite E; now rewrite ?orb_true_r. }
  destruct r as [|sg r']; [discriminate|].
  destruct ((sg =? 43) || (sg =? 45)) eqn:S; intros H.
  - apply digits1_end_numchar in H. cbn [forallb]. rewrite Hc, H.
    unfold JSON.is_numchar. apply orb_true_iff in S.
    destruct S as [S|S]; rewrite S; now rewrite ?orb_true_r.
  - apply digits1_end_numchar in H. cbn [forallb] in *. now rewrite Hc.
Qed.

Lemma number_frac_numchar (s : jsstring) :
  JSON.number_frac s = true -> forallb JSON.is_numchar s = true.
Proof.
  destruct s as [|c r]; [reflexivity|]. unfold JSON.number_frac.
  destruct (N.eqb_spec c 46) as [->|Hc]; [|apply number_exp_numchar].
  destruct (span_spec is_digit r) as [Hr Hds].
  destruct (span is_digit r) as [ds r']. simpl in Hr, Hds.
  destruct ds as [|d ds]; [discriminate|].
  intros H. apply number_exp_numchar in H.
  rewrite Hr. cbn [forallb]. rewrite forallb_app, H.
  rewrite (digits_numchar _ Hds). reflexivity.
Qed.

Lemma number_int_numchar (s : jsstring) :
  JSON.number_int s = true -> forallb JSON.is_numchar s = true.
Proof.
  destruct s as [|c r]; [discriminate|]. unfold JSON.number_int.
  destruct (N.eqb_spec c 48) as [->|Hc].
  - intros H. apply number_frac_numchar in H. cbn [forallb]. now rewrite H.
  - destruct (is_digit c) eqn:D; [|discriminate].
    destruct (span_spec is_digit r) as [Hr Hds].
    destruct (span is_digit r) as [ds r']. simpl in *.
    intros H. apply number_frac_numchar in H.
    rewrite Hr, (is_digit_numchar c D), forallb_app, H.
    now rewrite (digits_numchar _ Hds).
Qed.

Lemma is_number_numchar (lit : jsstring) :
  JSON.is_number lit = true -> forallb JSON.is_numchar lit = true.
Proof.
  destruct lit as [|c r]; [discriminate|]. unfold JSON.is_number.
  destruct (N.eqb_spec c 45) as [->|Hc].
  - intros H. apply number_int_numchar in H. cbn [forallb]. now rewrite H.
  - apply number_int_numchar.
Qed.

Lemma is_number_head (lit : jsstring) :
  JSON.is_number lit = true ->
  exists c r, lit = c :: r /\ number_head c.
Proof.
  destruct lit as [|c r]; [discriminate|]. unfold JSON.is_number.
  intros H. exists c, r. split; [reflexivity|].
  destruct (N.eqb_spec c 45) as [->|Hc]; [now left|].
  right. unfold JSON.number_int in H.
  destruct (N.eqb_spec c 48) as [->|H48]; [lia|].
  destruct (is_digit c) eqn:D; [|discriminate].
  unfold is_digit in D. apply andb_true_iff in D.
  rewrite !N.leb_le in D. exact D.
Qed.

Lemma value_number (fuel : nat) (c : N) (r : jsstring) :
  number_head c ->
  JSON.value (S fuel) (c :: r)
  = let '(tok, r') := span JSON.is_numchar (c :: r) in
    if JSON.is_number tok then Some (JNum (Number.of_literal tok), r')
    else None.
Proof.
  intros H. cbn [JSON.value JSON.skip_ws].
  assert (Hws : JSON.is_ws c = false).
  { unfold JSON.is_ws. destruct H as [->|H]; [reflexivity|].
    repeat (apply orb_false_iff; split); apply N.eqb_neq; lia. }
  rewrite Hws.
  replace (c =? 34) with false by (symmetry; apply N.eqb_neq;
                                   destruct H; lia).
  replace (c =? 91) with false by (symmetry; apply N.eqb_neq;
                                   destruct H; lia).
  replace (c =? 123) with false by (symmetry; apply N.eqb_neq;
                                    destruct H; lia).
  replace (c =? 116) with false by (symmetry; apply N.eqb_neq;
                                    destruct H; lia).
  replace (c =? 102) with false by (symmetry; apply N.eqb_neq;
                                    destruct H; lia).
  replace (c =? 110) with false by (symmetry; apply N.eqb_neq;
                                    destruct H; lia).
  reflexivity.
Qed.

Lemma value_stringify_number (fuel : nat) (lit rest : jsstring) :
  JSON.is_number lit = true -> delimited rest ->
  JSON.value (S fuel) (lit ++ rest)
  = Some (JNum (Number.of_literal lit), rest).
Proof.
  intros Hlit Hrest.
  destruct (is_number_head lit Hlit) as [c [r [-> Hc]]].
  cbn [app]. rewrite value_number by exact Hc.
  change (c :: r ++ rest) with ((c :: r) ++ rest).
  rewrite span_numchar_app; auto using is_number_numchar.
  now rewrite Hlit.
Qed.

Lemma Number_eqb_eq (x y : spec_float) : Number.eqb x y = true -> x = y.
Proof.
  destruct x as [a|a| |a m e], y as [b|b| |b m' e']; simpl;
    try discriminate; try reflexivity.
  - intros H. apply eqb_prop in H. now subst.
  - intros H. apply eqb_prop in H. now subst.
  - intros H. apply andb_true_iff in H. destruct H as [H He].
    apply andb_true_iff in H. destruct H as [Ha Hm].
    apply eqb_prop in Ha. apply Pos.eqb_eq in Hm. apply Z.eqb_eq in He.
    now subst.
Qed.

(** A number that reads back is printed as a JSON number, and that text
    denotes it. *)
Lemma number_reads_back_spec (x : spec_float) :
  number_reads_back x = true ->
  JSON.stringify (JNum x) = Number.toString x
  /\ JSON.is_number (Number.toString x) = true
  /\ Number.of_literal (Number.toString x) = x.
Proof.
  unfold number_reads_back. intros H. apply andb_true_iff in H.
  destruct H as [H1 H2]. split; [|split; [exact H1|now apply Number_eqb_eq]].
  destruct x as [s|s| |s m e]; try reflexivity.
  - destruct s; vm_compute in H1; discriminate.
  - vm_compute in H1. discriminate.
Qed.

(** *** Values *)

Lemma stringify_head (v : json) :
  wf_json v = true ->
  exists c t, JSON.stringify v = c :: t /\ value_head c.
Proof.
  destruct v as [|[|]|x|s|elems|props]; intros Hwf;
    try (eexists; eexists; split; [reflexivity|];
         repeat split; discriminate).
  cbn [wf_json] in Hwf.
  destruct (number_reads_back_spec x Hwf) as [Hs [Hlit _]].
  destruct (is_number_head _ Hlit) as [c [r [Hr Hc]]].
  exists c, r. split; [now rewrite Hs|].
  unfold value_head, JSON.is_ws.
  destruct Hc as [->|Hc]; [repeat split; discriminate|].
  repeat split; try lia.
  repeat (apply orb_false_iff; split); apply N.eqb_neq; lia.
Qed.

Lemma value_array (fuel : nat) (r : jsstring) :
  JSON.value (S fuel) (91 :: r)
  = match JSON.skip_ws r with
    | [] => None
    | d :: r' =>
        if d =? 93 then Some (JArr [], r')
        else match JSON.elements fuel (d :: r') with
             | Some (vs, r'') => Some (JArr vs, r'')
             | None => None
             end
    end.
Proof. reflexivity. Qed.

Lemma value_object (fuel : nat) (r : jsstring) :
  JSON.value (S fuel) (123 :: r)
  = match JSON.skip_ws r with
    | [] => None
    | d :: r' =>
        if d =? 125 then Some (JObj [], r')
        else match JSON.members fuel (d :: r') with
             | Some (ps, r'') => Some (JObj ps, r'')
             | None => None
             end
    end.
Proof. reflexivity. Qed.

Lemma elements_eq (fuel : nat) (s : jsstring) :
  JSON.elements (S fuel) s
  = match JSON.value fuel s with
    | None => None
    | Some (v, r) =>
        match JSON.skip_ws r with
        | [] => None
        | c :: r' =>
            if c =? 44 then
              match JSON.elements fuel r' with
              | Some (vs, r'') => Some (v :: vs, r'')
              | None => None
              end
            else if c =? 93 then Some ([v], r')
            else None
        end
    end.
Proof. reflexivity. Qed.

Lemma members_eq (fuel : nat) (r0 : jsstring) :
  JSON.members (S fuel) (34 :: r0)
  = match JSON.string_body r0 with
    | None => None
    | Some (k, r1) =>
        match JSON.skip_ws r1 with
        | [] => None
        | colon :: r2 =>
            if colon =? 58 then
              match JSON.value fuel r2 with
              | None => None
              | Some (v, r3) =>
                  match JSON.skip_ws r3 with
                  | [] => None
                  | c :: r4 =>
                      if c =? 44 then
                        match JSON.members fuel r4 with
                        | Some (ps, r5) => Some ((k, v) :: ps, r5)
                        | None => None
                        end
                      else if c =? 125 then Some ([(k, v)], r4)
                      else None
                  end
              end
            else None
        end
    end.
Proof. reflexivity. Qed.

Lemma elements_read_back (l : list json) :
  l <> [] -> Forall reads_back l ->
  forall (fuel : nat) (rest : jsstring),
    (List.length (JSON.join (map JSON.stringify l)) < fuel)%nat ->
    JSON.elements fuel (JSON.join (map JSON.stringify l) ++ 93 :: rest)
    = Some (l, rest).
Proof.
  induction l as [|x l IH]; [congruence|].
  intros _ Hall fuel rest Hfuel.
  inversion Hall as [|? ? Hx Hl]; subst.
  destruct fuel as [|fuel]; [lia|]. rewrite elements_eq.
  destruct l as [|y l'].
  - cbn [map JSON.join] in *.
    rewrite Hx; [|lia|reflexivity]. reflexivity.
  - change (JSON.join (map JSON.stringify (x :: y :: l')))
      with (JSON.stringify x
              ++ 44 :: JSON.join (map JSON.stringify (y :: l'))) in *.
    rewrite length_app in Hfuel. cbn [List.length] in Hfuel.
    rewrite <- app_assoc. cbn [app].
    rewrite Hx; [|lia|reflexivity].
    cbn [JSON.skip_ws JSON.is_ws N.eqb Pos.eqb orb].
    rewrite IH; [reflexivity|discriminate|assumption|lia].
Qed.

Ltac length_norm H :=
  repeat first [ rewrite length_app in H
               | progress (cbn [List.length] in H) ].

Lemma members_read_back (l : list (jsstring * json)) :
  l <> [] -> Forall (fun p => reads_back (snd p)) l ->
  forall (fuel : nat) (rest : jsstring),
    (List.length (JSON.join (map member_text l)) < fuel)%nat ->
    JSON.members fuel (JSON.join (map member_text l) ++ 125 :: rest)
    = Some (l, rest).
Proof.
  induction l as [|[k x] l IH]; [congruence|].
  intros _ Hall fuel rest Hfuel.
  inversion Hall as [|? ? Hx Hl]; subst. simpl in Hx.
  destruct fuel as [|fuel]; [lia|].
  destruct l as [|q l'].
  - cbn [map JSON.join] in *. unfold member_text, JSON.quote in *.
    cbn [fst snd app] in *. rewrite <- !app_assoc. cbn [app].
    rewrite members_eq, string_body_quote_body.
    cbn [JSON.skip_ws JSON.is_ws N.eqb Pos.eqb orb].
    length_norm Hfuel.
    rewrite Hx; [|lia|reflexivity]. reflexivity.
  - change (JSON.join (map member_text ((k, x) :: q :: l')))
      with (member_text (k, x)
              ++ 44 :: JSON.join (map member_text (q :: l'))) in *.
    unfold member_text at 1. unfold member_text at 1 in Hfuel.
    unfold JSON.quote in *. cbn [fst snd app] in *.
    rewrite <- !app_assoc. cbn [app]. rewrite <- ?app_assoc. cbn [app].
    rewrite members_eq, string_body_quote_body.
    cbn [JSON.skip_ws JSON.is_ws N.eqb Pos.eqb orb].
    length_norm Hfuel.
    rewrite Hx; [|lia|reflexivity].
    cbn [JSON.skip_ws JSON.is_ws N.eqb Pos.eqb orb].
    rewrite IH; [reflexivity|discriminate|assumption|lia].
Qed.

Lemma join_head (parts : list jsstring) (c : N) (t : jsstring)
    (more : list jsstring) :
  parts = (c :: t) :: more -> exists t', JSON.join parts = c :: t'.
Proof.
  intros ->. destruct more; simpl; eauto.
Qed.

(** Every well-formed value is read back from its text. *)
Lemma value_stringify (v : json) : wf_json v = true -> reads_back v.
Proof.
  induction v as [| b | lit | s | elems IH | props IH]
    using json_nested_ind; intros Hwf fuel rest Hfuel Hrest.
  - destruct fuel as [|fuel]; [simpl in Hfuel; lia|]. reflexivity.
  - destruct fuel as [|fuel]; [destruct b; simpl in Hfuel; lia|].
    destruct b; reflexivity.
  - cbn [wf_json] in Hwf.
    destruct (number_reads_back_spec lit Hwf) as [Hs [Hlit Hval]].
    rewrite Hs in *. destruct fuel as [|fuel].
    + destruct (is_number_head _ Hlit) as [c [r [Hr _]]].
      rewrite Hr in Hfuel. simpl in Hfuel. lia.
    + rewrite value_stringify_number by assumption. now rewrite Hval.
  - destruct fuel as [|fuel]; [simpl in Hfuel; lia|].
    cbn [JSON.stringify]. unfold JSON.quote. cbn [app].
    rewrite <- app_assoc. cbn [app JSON.value JSON.skip_ws JSON.is_ws
                                N.eqb Pos.eqb orb].
    now rewrite string_body_quote_body.
  - destruct fuel as [|fuel]; [simpl in Hfuel; lia|].
    cbn [JSON.stringify wf_json] in *. cbn [app]. rewrite value_array.
    assert (Hall : Forall reads_back elems).
    { rewrite forallb_forall in Hwf. rewrite Forall_forall in *.
      intros x Hx. apply IH; auto. }
    cbn [List.length] in Hfuel. rewrite length_app in Hfuel.
    cbn [List.length] in Hfuel.
    destruct elems as [|x l]; [reflexivity|].
    rewrite <- app_assoc. cbn [app].
    assert (Hx : wf_json x = true)
      by (cbn [forallb] in Hwf; apply andb_true_iff in Hwf; tauto).
    destruct (stringify_head x Hx) as [c [t [Hc [Hws [H93 _]]]]].
    destruct (join_head (map JSON.stringify (x :: l)) c t
                (map JSON.stringify l)) as [t' Ht'].
    { cbn [map]. now rewrite Hc. }
    pose proof (elements_read_back (x :: l) ltac:(discriminate) Hall
                  fuel rest ltac:(lia)) as He.
    rewrite Ht' in *. cbn [app] in *.
    cbn [JSON.skip_ws]. rewrite Hws.
    apply N.eqb_neq in H93. rewrite H93. now rewrite He.
  - destruct fuel as [|fuel]; [simpl in Hfuel; lia|].
    cbn [JSON.stringify wf_json] in *. cbn [app]. rewrite value_object.
    fold member_text in *.
    change (fun p : jsstring * json =>
              JSON.quote (fst p) ++ 58 :: JSON.stringify (snd p))
      with member_text in *.
    assert (Hall : Forall (fun p => reads_back (snd p)) props).
    { rewrite forallb_forall in Hwf. rewrite Forall_forall in *.
      intros p Hp. apply IH; auto. }
    cbn [List.length] in Hfuel. rewrite length_app in Hfuel.
    cbn [List.length] in Hfuel.
    destruct props as [|p l]; [reflexivity|].
    rewrite <- app_assoc. cbn [app].
    destruct (join_head (map member_text (p :: l)) 34
                (JSON.quote_body (fst p) ++ [34]
                   ++ 58 :: JSON.stringify (snd p))
                (map member_text l)) as [t' Ht'].
    { cbn [map]. unfold member_text at 1, JSON.quote. cbn [app].
      now rewrite <- app_assoc. }
    pose proof (members_read_back (p :: l) ltac:(discriminate) Hall
                  fuel rest ltac:(unfold jsstring in *; lia)) as He.
    unfold jsstring in *. rewrite Ht' in *. cbn [app] in *.
    cbn [JSON.skip_ws JSON.is_ws N.eqb Pos.eqb orb]. now rewrite He.
Qed.

Lemma parse_stringify (v : json) :
  wf_json v = true -> JSON.parse (JSON.stringify v) = Some v.
Proof.
  intros Hwf. unfold JSON.parse.
  pose proof (value_stringify v Hwf (S (List.length (JSON.stringify v))) []
                ltac:(lia) I) as H.
  rewrite app_nil_r in H. now rewrite H.
Qed.

(** ** Snapshot and restore *)

Lemma forEach_set_eq (entries : list (jsstring * json)) (st : state) :
  CachingProxy.forEach_set entries st
  = (Normal tt,
     {| cache := restored (clock st) entries (cache st);
        disk := disk st; clock := clock st; res := res st;
        trace := trace st
                   ++ map (fun p => CacheSet (fst p) (snd p)) entries |}).
Proof.
  revert st. induction entries as [|[k x] entries IH]; intros st.
  - simpl. unfold ret. rewrite app_nil_r. destruct st; reflexivity.
  - cbn [CachingProxy.forEach_set]. unfold bind, cache_set.
    rewrite IH. unfold emit, with_cache.
    cbn [cache disk clock res trace restored map fst snd].
    now rewrite <- app_assoc.
Qed.

Lemma loadCache_object (st : state) (text : jsstring)
    (props : list (jsstring * json)) :
  Fs.readFileSync (disk st) = Some text ->
  JSON.parse text = Some (JObj props) ->
  CachingProxy.loadCache st
  = (Normal tt,
     {| cache := restored (clock st) props (cache st);
        disk := disk st; clock := clock st; res := res st;
        trace := trace st
                   ++ map (fun p => CacheSet (fst p) (snd p)) props |}).
Proof.
  intros Hread Hparse.
  unfold CachingProxy.loadCache, try_catch, bind, fs_existsSync,
    fs_readFileSync, JSON_parse, Object_entries.
  unfold ret, throw.
  assert (Hex : Fs.existsSync (disk st) = true)
    by (destruct (disk st) as [|[|] ?]; simpl in *; congruence).
  rewrite Hex, Hread, Hparse. cbn [Obj.entries].
  now rewrite forEach_set_eq.
Qed.

Lemma restored_stdTTL (now : N) (entries : list (jsstring * json))
    (c : NodeCache.cache) :
  NodeCache.stdTTL (restored now entries c) = NodeCache.stdTTL c.
Proof.
  revert c. induction entries as [|[k x] es IH]; intros c; simpl; auto.
  now rewrite IH.
Qed.

Lemma peek_restored (now : N) (entries : list (jsstring * json))
    (c : NodeCache.cache) (k : jsstring) :
  NoDup (Obj.keys entries) ->
  NodeCache.peek now k (restored now entries c)
  = match Obj.get k entries with
    | Some x => Some x
    | None => NodeCache.peek now k c
    end.
Proof.
  revert c. induction entries as [|[k0 x0] es IH]; intros c Hnd;
    [reflexivity|].
  inversion Hnd as [|? ? Hk Hnd']; subst.
  cbn [restored Obj.get]. rewrite IH by assumption.
  destruct (jsstring_eqb k0 k) eqn:E.
  - apply jsstring_eqb_eq in E. subst.
    apply Obj_get_None_not_in in Hk. rewrite Hk.
    apply peek_set_same.
    destruct (N.eq_dec (NodeCache.stdTTL c) 0); [now left | right; lia].
  - destruct (Obj.get k es); [reflexivity|].
    apply peek_set_other. intros ->. now rewrite jsstring_eqb_refl in E.
Qed.

Lemma live_props_keys (now : N) (d : list (jsstring * NodeCache.entry))
    (k : jsstring) :
  In k (Obj.keys (live_props now d)) -> In k (Obj.keys d).
Proof.
  induction d as [|[k' e'] d IH]; simpl; auto.
  destruct (NodeCache.expired now e'); simpl; tauto.
Qed.

Lemma live_props_NoDup (now : N) (d : list (jsstring * NodeCache.entry)) :
  NoDup (Obj.keys d) -> NoDup (Obj.keys (live_props now d)).
Proof.
  induction d as [|[k e] d IH]; simpl; auto.
  intros H. inversion H; subst.
  destruct (NodeCache.expired now e); simpl; auto.
  constructor; auto. intros Hin. now apply live_props_keys in Hin.
Qed.

Lemma peek_eq (now : N) (k : jsstring) (c : NodeCache.cache) :
  NodeCache.peek now k c
  = match Obj.get k (NodeCache.data c) with
    | Some e =>
        if NodeCache.expired now e then None else Some (NodeCache.v e)
    | None => None
    end.
Proof.
  unfold NodeCache.peek, NodeCache.get.
  destruct (Obj.get k (NodeCache.data c)) as [e|]; [|reflexivity].
  destruct (NodeCache.expired now e); reflexivity.
Qed.

Lemma get_live_props (now : N) (c : NodeCache.cache) (k : jsstring) :
  NoDup (NodeCache.keys c) ->
  Obj.get k (live_props now (NodeCache.data c)) = NodeCache.peek now k c.
Proof.
  rewrite peek_eq. unfold NodeCache.keys.
  induction (NodeCache.data c) as [|[k' e'] d IH]; [reflexivity|].
  intros Hnd. inversion Hnd as [|? ? Hk Hnd']; subst.
  cbn [live_props Obj.get].
  destruct (jsstring_eqb k' k) eqn:E.
  - apply jsstring_eqb_eq in E. subst.
    destruct (NodeCache.expired now e') eqn:X.
    + apply Obj_get_None_not_in. intros Hin.
      now apply live_props_keys in Hin.
    + cbn [Obj.get]. now rewrite jsstring_eqb_refl.
  - destruct (NodeCache.expired now e') eqn:X.
    + now apply IH.
    + cbn [Obj.get]. rewrite E. now apply IH.
Qed.

Lemma live_props_wf (now : N) (c : NodeCache.cache) :
  wf_cache c = true ->
  wf_json (JObj (live_props now (NodeCache.data c))) = true.
Proof.
  unfold wf_cache. cbn [wf_json].
  induction (NodeCache.data c) as [|[k e] d IH]; [reflexivity|].
  cbn [forallb live_props snd]. intros H.
  apply andb_true_iff in H. destruct H as [He Hd].
  destruct (NodeCache.expired now e); cbn [forallb snd]; auto.
  now rewrite He, IH.
Qed.

Lemma peek_create (now ttl_seconds : N) (k : jsstring) :
  NodeCache.peek now k (NodeCache.create ttl_seconds) = None.
Proof. reflexivity. Qed.

(** C6, as amended.  For a store whose values a JSON text can carry,
    that is whose numbers are printed as JSON numbers that read back as
    the same numbers, which leaves out the infinities, NaN and the
    negative zero: [saveCache] followed by [loadCache] gives back the key
    to value mapping of the store, both when the snapshot is loaded into
    the store it was taken from and when it is loaded into the store of a
    new process at a later time; the store may be empty. *)
Theorem snapshot_roundtrip (st : state) (later : N)
    (Hobj : NoDup (NodeCache.keys (cache st)))
    (Hwf : wf_cache (cache st) = true)
    (Hread : forall content, disk st <> Fs.File false content) :
  snapshot_restores st later.
Proof.
  unfold snapshot_restores.
  cbv zeta. rewrite saveCache_eq. cbn [snd disk].
  rewrite snapshot_text_live by assumption.
  set (now := clock st).
  set (props := live_props now (NodeCache.data (cache st))).
  set (text := JSON.stringify (JObj props)).
  assert (Hparse : JSON.parse text = Some (JObj props))
    by (apply parse_stringify; now apply live_props_wf).
  assert (Hfile : Fs.readFileSync (Fs.writeFileSync text (disk st))
                  = Some text).
  { destruct (disk st) as [|[|] content]; try reflexivity.
    now destruct (Hread content). }
  assert (Hnd : NoDup (Obj.keys props)) by now apply live_props_NoDup.
  rewrite (loadCache_object _ text props) by assumption.
  rewrite (loadCache_object _ text props) by assumption.
  cbn [fst snd cache clock CachingProxy.constructor].
  split; [reflexivity|]. split; [reflexivity|]. intros k.
  rewrite !peek_restored by assumption.
  unfold props. rewrite get_live_props by assumption. fold now.
  rewrite (pruned_peek now now (cache st)
             (swept now (NodeCache.keys (cache st)) (cache st)))
    by (auto using swept_pruned; lia).
  rewrite peek_create.
  destruct (NodeCache.peek now k (cache st)); split; reflexivity.
Qed.

Lemma snapshot_roundtrip_witness :
  snapshot_restores state_three_entries 5000000.
Proof.
  apply (snapshot_roundtrip state_three_entries 5000000).
  - vm_compute. repeat constructor; simpl; intuition discriminate.
  - vm_compute. reflexivity.
  - intros content. discriminate.
Defined.

(** C6 as stated fails for a store that holds an infinity, the number a
    body such as [1e999] is read as: [saveCache] writes [null] for it, and
    [null] is what [loadCache] restores. *)
Lemma infinity_not_restored :
  ~ snapshot_restores state_infinity 5000000.
Proof.
  unfold snapshot_restores. intros [_ [_ H]].
  destruct (H (js "k")) as [H1 _]. vm_compute in H1. discriminate.
Qed.

Example snapshot_of_infinity :
  file_content (disk (snd (CachingProxy.saveCache state_infinity)))
  = Some (quoted "{'k':null}")
  /\ NodeCache.peek 1000 (js "k")
       (cache (snd (CachingProxy.loadCache
                      (snd (CachingProxy.saveCache state_infinity)))))
     = Some JNull.
Proof. vm_compute. split; reflexivity. Qed.

Example snapshot_of_three_entries :
  file_content (disk (snd (CachingProxy.saveCache state_three_entries)))
  = Some (quoted "{'k1':{'a':1},'k2':[-1500,'\'\\\n\ud800',null,true]}").
Proof. vm_compute. reflexivity. Qed.

(** ** What [JSON.parse] accepts *)

Ltac break_match_hyp H :=
  repeat match type of H with
    | context [match ?x with _ => _ end] =>
        let E := fresh "E" in destruct x eqn:E; try discriminate
    | context [if ?b then _ else _] =>
        let E := fresh "E" in destruct b eqn:E; try discriminate
    end.

(** Rounding to a double never gives NaN. *)
Lemma shr_1_nonneg (mrs : shr_record) :
  (0 <= shr_m mrs)%Z -> (0 <= shr_m (shr_1 mrs))%Z.
Proof.
  destruct mrs as [m r s]. simpl.
  destruct m as [|p|p]; try destruct p; simpl; lia.
Qed.

Lemma iter_shr_1_nonneg (p : positive) (mrs : shr_record) :
  (0 <= shr_m mrs)%Z -> (0 <= shr_m (iter_pos shr_1 p mrs))%Z.
Proof.
  revert mrs. induction p as [p IH|p IH|]; intros mrs H; simpl.
  - apply IH, IH. now apply shr_1_nonneg.
  - now apply IH, IH.
  - now apply shr_1_nonneg.
Qed.

Lemma shr_fexp_nonneg (m e : Z) (l : location) :
  (0 <= m)%Z ->
  (0 <= shr_m (fst (shr_fexp Number.prec Number.emax m e l)))%Z.
Proof.
  intros H. unfold shr_fexp, shr.
  assert (H0 : (0 <= shr_m (shr_record_of_loc m l))%Z)
    by (destruct l as [|[| |]]; exact H).
  destruct (_ - e)%Z; simpl; auto using iter_shr_1_nonneg.
Qed.

Lemma binary_round_aux_not_nan (sx : bool) (mx ex : Z) (lx : location) :
  (0 <= mx)%Z ->
  binary_round_aux Number.prec Number.emax sx mx ex lx <> S754_nan.
Proof.
  intros H. unfold binary_round_aux.
  pose proof (shr_fexp_nonneg mx ex lx H) as H1.
  destruct (shr_fexp Number.prec Number.emax mx ex lx) as [mrs' e'].
  cbn [fst] in H1.
  assert (H2 : (0 <= round_nearest_even (shr_m mrs')
                       (loc_of_shr_record mrs'))%Z).
  { unfold round_nearest_even.
    destruct (loc_of_shr_record mrs') as [|[| |]]; try lia.
    destruct (Z.even (shr_m mrs')); lia. }
  pose proof (shr_fexp_nonneg _ e' loc_Exact H2) as H3.
  destruct (shr_fexp Number.prec Number.emax _ e' loc_Exact) as [mrs'' e''].
  cbn [fst] in H3.
  destruct (shr_m mrs'') as [|p|p]; try discriminate; [|lia].
  destruct (e'' <=? Number.emax - Number.prec)%Z; discriminate.
Qed.

Lemma of_decimal_not_nan (neg : bool) (m : N) (e10 : Z) :
  Number.of_decimal neg m e10 <> S754_nan.
Proof.
  unfold Number.of_decimal. destruct m as [|p]; [discriminate|].
  destruct (0 <=? e10)%Z eqn:E10.
  - destruct (1024 <? _)%Z; [discriminate|].
    unfold binary_round.
    destruct (shl_align _ _ _) as [mz ez].
    apply binary_round_aux_not_nan. lia.
  - destruct (_ <? -1075)%Z; [discriminate|].
    apply Z.leb_gt in E10. unfold SFdiv_core_binary.
    set (m' := match _ with Zpos _ => _ | Z0 => _ | Zneg _ => _ end).
    assert (Hm' : (0 <= m')%Z).
    { subst m'. destruct (_ - _ - _)%Z; try lia.
      apply Z.shiftl_nonneg. lia. }
    assert (Hq : (0 <= m' / 10 ^ (- e10))%Z).
    { apply Z.div_pos; [exact Hm'|]. apply Z.pow_pos_nonneg; lia. }
    unfold Z.div in Hq.
    destruct (Z.div_eucl m' (10 ^ (- e10))) as [q r].
    now apply binary_round_aux_not_nan.
Qed.

Lemma of_literal_not_nan (tok : jsstring) :
  Number.of_literal tok <> S754_nan.
Proof.
  unfold Number.of_literal.
  destruct (match tok with 45 :: r => (true, r) | _ => (false, tok) end)
    as [neg r].
  destruct (span is_digit r) as [int_part r1].
  destruct (match r1 with 46 :: r' => span is_digit r' | _ => ([], r1) end)
    as [frac_part r2].
  apply of_decimal_not_nan.
Qed.

(** Whatever the parser returns is a value without NaN. *)
Lemma value_parsed (fuel : nat) :
  (forall s v r, JSON.value fuel s = Some (v, r) -> parsed_json v = true)
  /\ (forall s vs r, JSON.elements fuel s = Some (vs, r) ->
                     forallb parsed_json vs = true)
  /\ (forall s ps r, JSON.members fuel s = Some (ps, r) ->
                     forallb (fun p => parsed_json (snd p)) ps = true).
Proof.
  induction fuel as [|fuel [IHv [IHe IHm]]];
    [repeat split; intros; discriminate|].
  split; [|split].
  - intros s v r H. cbn [JSON.value] in H.
    break_match_hyp H; inversion H; subst; clear H; try reflexivity.
    + eapply IHe; eassumption.
    + eapply IHm; eassumption.
    + cbn [parsed_json].
      destruct (Number.of_literal _) eqn:Enum; try reflexivity.
      now apply of_literal_not_nan in Enum.
  - intros s vs r H. rewrite elements_eq in H.
    break_match_hyp H; inversion H; subst; clear H; cbn [forallb].
    + erewrite IHv by eassumption. eapply IHe; eassumption.
    + erewrite IHv by eassumption. reflexivity.
  - intros s ps r H. cbn [JSON.members] in H.
    break_match_hyp H; inversion H; subst; clear H; cbn [forallb snd].
    + erewrite IHv by eassumption. eapply IHm; eassumption.
    + erewrite IHv by eassumption. reflexivity.
Qed.

Lemma parse_parsed (text : jsstring) (v : json) :
  JSON.parse text = Some v -> parsed_json v = true.
Proof.
  unfold JSON.parse. intros H.
  destruct (JSON.value _ text) as [[w r]|] eqn:E; [|discriminate].
  destruct (JSON.skip_ws r); [|discriminate].
  inversion H; subst. eapply (proj1 (value_parsed _)); eassumption.
Qed.

Example parse_accepts :
  JSON.parse (quoted " { 'a' : [1, -0.5e+3, 'xA', null ] , 'b':{}, 'c':true}")
  = Some (JObj [(js "a", JArr [JNum number_1;
                               JNum (Number.of_literal (js "-500"));
                               JStr (js "xA"); JNull]);
                (js "b", JObj []);
                (js "c", JBool true)])
  /\ JSON.parse (js "[[[[[[]]]]],[[[[[[[[[[]]]]]]]]]]]")
     = Some (JArr [JArr [JArr [JArr [JArr [JArr []]]]];
                   JArr [JArr [JArr [JArr [JArr [JArr [JArr [JArr
                     [JArr [JArr []]]]]]]]]]]).
Proof. split; vm_compute; reflexivity. Qed.

Example parse_rejects :
  map JSON.parse
    [js ""; js "{oops"; js "[1,]"; js "[1 2]"; js "01"; js "1."; js ".5";
     js "-"; js "1e"; js "nul"; js "truefalse"; quoted "{'a':1,}";
     js "{a:1}"; quoted "'\x'"; quoted "{'a' 1}"]
  = repeat None 15.
Proof. vm_compute. reflexivity. Qed.

(** Numbers are read as doubles, with the rounding, the overflow and the
    underflow of IEEE-754, and printed as [Number.prototype.toString]
    prints them. *)
Example numbers_read :
  map (fun t => Number.of_literal (js t))
    ["1e-400"; "-0"; "1e999"; "-1e999"; "0.1"; "9007199254740993";
     "2.4e-324"; "2.5e-324"]%string
  = [S754_zero false; S754_zero true; S754_infinity false;
     S754_infinity true; S754_finite false 7205759403792794 (-56);
     S754_finite false 4503599627370496 1;
     S754_zero false; S754_finite false 1 (-1074)].
Proof. vm_compute. reflexivity. Qed.

Example numbers_printed :
  map (fun t => Number.toString (Number.of_literal (js t)))
    ["0.1"; "1e21"; "1e-7"; "0.000001"; "123456789012345680000"; "5e-324";
     "1.7976931348623157e308"; "-1.5e3"; "0.30000000000000004"; "100";
     "9007199254740993"; "-0"; "1.0"; "12E-1"]%string
  = map js
      ["0.1"; "1e+21"; "1e-7"; "0.000001"; "123456789012345680000";
       "5e-324"; "1.7976931348623157e+308"; "-1500"; "0.30000000000000004";
       "100"; "9007199254740992"; "0"; "1"; "1.2"]%string.
Proof. vm_compute. reflexivity. Qed.

Example numbers_truthy :
  map truthy
    [JNum (Number.of_literal (js "1e-400")); JNum (Number.of_literal (js "-0"));
     JNum S754_nan; JNum (Number.of_literal (js "1e999"));
     JNum (Number.of_literal (js "5e-324"))]
  = [false; false; false; true; true].
Proof. vm_compute. reflexivity. Qed.

Example numbers_stringified :
  JSON.stringify
    (JArr [JNum (S754_infinity false); JNum S754_nan; JNum (S754_zero true);
           JNum number_1; JNum number_minus_1500])
  = js "[null,null,0,1,-1500]".
Proof. vm_compute. reflexivity. Qed.

Example numbers_well_formed :
  map wf_json
    [JNum number_1; JNum number_0; JNum number_minus_1500;
     JNum (Number.of_literal (js "0.1")); JNum (Number.of_literal (js "5e-324"));
     JNum number_1e999; JNum (S754_zero true); JNum S754_nan]
  = [true; true; true; true; true; false; false; false].
Proof. vm_compute. reflexivity. Qed.

(** ** Reachable states *)

Lemma restored_keys_NoDup (now : N) (entries : list (jsstring * json))
    (c : NodeCache.cache) :
  NoDup (NodeCache.keys c) -> NoDup (NodeCache.keys (restored now entries c)).
Proof.
  revert c. induction entries as [|[k x] es IH]; intros c H; simpl; auto.
  apply IH. now apply set_keys_NoDup.
Qed.

Lemma restored_wf (now : N) (entries : list (jsstring * json))
    (c : NodeCache.cache) :
  forallb (fun p => wf_json (snd p)) entries = true ->
  wf_cache c = true -> wf_cache (restored now entries c) = true.
Proof.
  revert c. induction entries as [|[k x] es IH]; intros c He Hc; simpl; auto.
  cbn [forallb snd] in He. apply andb_true_iff in He. destruct He as [Hx Hes].
  apply IH; auto. unfold wf_cache in *. simpl.
  clear IH. induction (NodeCache.data c) as [|[k' e'] d IHd]; simpl.
  - now rewrite Hx.
  - cbn [forallb snd] in Hc. apply andb_true_iff in Hc.
    destruct Hc as [H1 H2].
    destruct (jsstring_eqb k' k); cbn [forallb snd NodeCache.v].
    + now rewrite Hx, H2.
    + now rewrite H1, IHd.
Qed.

Lemma restored_parsed (now : N) (entries : list (jsstring * json))
    (c : NodeCache.cache) :
  forallb (fun p => parsed_json (snd p)) entries = true ->
  parsed_cache c = true -> parsed_cache (restored now entries c) = true.
Proof.
  revert c. induction entries as [|[k x] es IH]; intros c He Hc; simpl; auto.
  cbn [forallb snd] in He. apply andb_true_iff in He. destruct He as [Hx Hes].
  apply IH; auto. unfold parsed_cache in *. simpl.
  clear IH. induction (NodeCache.data c) as [|[k' e'] d IHd]; simpl.
  - now rewrite Hx.
  - cbn [forallb snd] in Hc. apply andb_true_iff in Hc.
    destruct Hc as [H1 H2].
    destruct (jsstring_eqb k' k); cbn [forallb snd NodeCache.v].
    + now rewrite Hx, H2.
    + now rewrite H1, IHd.
Qed.

Lemma entries_parsed (x : json) (es : list (jsstring * json)) :
  parsed_json x = true -> Obj.entries x = Some es ->
  forallb (fun p => parsed_json (snd p)) es = true.
Proof.
  assert (Hidx : forall (l : list json) i,
             forallb parsed_json l = true ->
             forallb (fun p => parsed_json (snd p)) (Obj.indexed_from i l)
             = true).
  { induction l as [|y l IH]; intros i H; simpl; auto.
    simpl in H. apply andb_true_iff in H. destruct H as [H1 H2].
    now rewrite H1, IH. }
  destruct x as [| |x| | |]; simpl; intros Hwf H; inversion H; subst; auto.
  apply Hidx. clear. induction s; simpl; auto.
Qed.

(** [loadCache] always returns normally; it keeps the time-to-live of the
    store and the keys pairwise distinct, and it brings in no NaN. *)
Lemma loadCache_returns (st : state) :
  let run := CachingProxy.loadCache st in
  fst run = Normal tt
  /\ NodeCache.stdTTL (cache (snd run)) = NodeCache.stdTTL (cache st)
  /\ (NoDup (NodeCache.keys (cache st)) ->
      NoDup (NodeCache.keys (cache (snd run))))
  /\ (parsed_cache (cache st) = true ->
      parsed_cache (cache (snd run)) = true).
Proof.
  cbv zeta.
  unfold CachingProxy.loadCache, try_catch, bind, console_error,
    fs_existsSync, fs_readFileSync, JSON_parse, Object_entries.
  unfold ret, throw.
  destruct (Fs.existsSync (disk st)); [|repeat split; auto].
  destruct (Fs.readFileSync (disk st)) as [text|]; [|repeat split; auto].
  destruct (JSON.parse text) as [x|] eqn:P; [|repeat split; auto].
  destruct (Obj.entries x) as [es|] eqn:Es; [|repeat split; auto].
  rewrite forEach_set_eq. cbn [fst snd cache clock].
  split; [reflexivity|]. split; [apply restored_stdTTL|]. split.
  - apply restored_keys_NoDup.
  - apply restored_parsed. eapply entries_parsed; eauto using parse_parsed.
Qed.

(** After [main], whatever the options and the snapshot file: the store
    has the time-to-live of the constructor, distinct keys and values
    without NaN. *)
Lemma main_state (a : argv) (d : Fs.node) (now : N) :
  let st := snd (main a d now) in
  NodeCache.stdTTL (cache st) = 3600
  /\ NoDup (NodeCache.keys (cache st))
  /\ parsed_cache (cache st) = true.
Proof.
  cbv zeta. unfold main. destruct (clear_cache a).
  - unfold CachingProxy.clearCache, bind, console_log, cache_flushAll,
      fs_existsSync, fs_unlinkSync, ret.
    destruct d; simpl; repeat split; constructor.
  - unfold CachingProxy.start, bind, console_log.
    pose proof (loadCache_returns (CachingProxy.constructor d now))
      as [H1 [H2 [H3 H4]]].
    destruct (CachingProxy.loadCache (CachingProxy.constructor d now))
      as [[u|e] st'] eqn:E; simpl in *; [|discriminate].
    split; [exact H2|]. split; [apply H3; constructor | now apply H4].
Qed.

(** A snapshot file that holds a JSON array is not a failure: its indices
    become keys. *)
Example loadCache_array_snapshot :
  let run :=
    CachingProxy.loadCache
      (CachingProxy.constructor (Fs.File true (quoted "['a']")) 0) in
  fst run = Normal tt
  /\ NodeCache.peek 0 (js "0") (cache (snd run)) = Some (JStr (js "a"))
  /\ trace (snd run) = [CacheSet (js "0") (JStr (js "a"))].
Proof. vm_compute. repeat split; reflexivity. Qed.

(** ** Further properties *)

(** *** The text behind the key *)

(** X6.  The key is the MD5 digest of a text that determines the method,
    the URL and the headers of the request (lines 22-32).  For requests
    whose header values are well-formed JSON values, equal texts mean
    equal methods, equal URLs and equal headers, in the same order: two
    requests that differ in any of the three can only share a key through
    a collision of MD5. *)
Theorem key_text_injective (D1 D2 : Express.request)
    (Hwf1 : forallb (fun p => wf_json (snd p)) (Express.headers D1) = true)
    (Hwf2 : forallb (fun p => wf_json (snd p)) (Express.headers D2) = true)
    (Htext : key_text D1 = key_text D2) :
  CachingProxy.generateCacheKey D1 = Crypto.md5_hex (key_text D1)
  /\ Express.method D1 = Express.method D2
  /\ Express.url D1 = Express.url D2
  /\ Express.headers D1 = Express.headers D2.
Proof.
  split; [reflexivity|].
  unfold key_text in Htext. apply (f_equal JSON.parse) in Htext.
  rewrite !parse_stringify in Htext
    by (cbn [wf_json forallb snd]; rewrite ?Hwf1, ?Hwf2; reflexivity).
  inversion Htext. auto.
Qed.

Lemma key_text_injective_witness :
  CachingProxy.generateCacheKey request_get_x
  = Crypto.md5_hex (key_text request_get_x)
  /\ Express.method request_get_x = Express.method request_get_x_with_body
  /\ Express.url request_get_x = Express.url request_get_x_with_body
  /\ Express.headers request_get_x = Express.headers request_get_x_with_body.
Proof.
  apply (key_text_injective request_get_x request_get_x_with_body);
    reflexivity.
Defined.

(** *** [saveCache] *)

(** Lookup, deletion and keys of a table split in two. *)
Lemma Obj_get_app {V : Type} (a b : list (jsstring * V)) (k : jsstring) :
  Obj.get k (a ++ b)
  = match Obj.get k a with Some x => Some x | None => Obj.get k b end.
Proof.
  induction a as [|[k' y] a IH]; simpl; auto.
  destruct (jsstring_eqb k' k); auto.
Qed.

Lemma Obj_delete_app {V : Type} (a b : list (jsstring * V)) (k : jsstring) :
  Obj.delete k (a ++ b) = Obj.delete k a ++ Obj.delete k b.
Proof.
  induction a as [|[k' y] a IH]; simpl; auto.
  destruct (jsstring_eqb k' k); simpl; now rewrite IH.
Qed.

Lemma Obj_keys_app {V : Type} (a b : list (jsstring * V)) :
  Obj.keys (a ++ b) = Obj.keys a ++ Obj.keys b.
Proof. unfold Obj.keys. apply map_app. Qed.

(** Reading the keys of a table one by one with [get] removes the
    expired entries and nothing else. *)
Lemma swept_live_data (now ttl_seconds : N)
    (suf pre : list (jsstring * NodeCache.entry)) :
  NoDup (Obj.keys (pre ++ suf)) ->
  swept now (Obj.keys suf)
    {| NodeCache.stdTTL := ttl_seconds; NodeCache.data := pre ++ suf |}
  = {| NodeCache.stdTTL := ttl_seconds;
       NodeCache.data := pre ++ live_data now suf |}.
Proof.
  revert pre. induction suf as [|[k e] suf IH]; intros pre Hnd;
    [reflexivity|].
  pose proof Hnd as Hnd0. rewrite Obj_keys_app in Hnd.
  apply NoDup_remove in Hnd. destruct Hnd as [Hnd Hk].
  rewrite in_app_iff in Hk.
  assert (Hpre : Obj.get k pre = None) by (apply Obj_get_None_not_in; tauto).
  cbn [Obj.keys map fst swept live_data]. unfold NodeCache.get.
  cbn [NodeCache.data NodeCache.stdTTL].
  rewrite Obj_get_app, Hpre. cbn [Obj.get]. rewrite jsstring_eqb_refl.
  destruct (NodeCache.expired now e) eqn:X; cbn [snd].
  - rewrite Obj_delete_app. cbn [Obj.delete]. rewrite jsstring_eqb_refl.
    rewrite !Obj_delete_absent by tauto.
    apply IH. now rewrite Obj_keys_app.
  - replace (pre ++ (k, e) :: suf) with ((pre ++ [(k, e)]) ++ suf)
      by (now rewrite <- app_assoc).
    rewrite IH.
    + now rewrite <- app_assoc.
    + rewrite <- app_assoc. exact Hnd0.
Qed.

(** X7.  [saveCache] also sweeps the store (lines 35-41): reading every
    key with [get] deletes the entries that have expired.  For a store with
    distinct keys the call returns normally, the table afterwards is the
    table before without its expired entries, in the same order, the file
    holds the JSON text of the remaining values, and the only event is
    that write. *)
Theorem saveCache_purges_expired (st : state)
    (Hobj : NoDup (NodeCache.keys (cache st))) :
  let run := CachingProxy.saveCache st in
  fst run = Normal tt
  /\ NodeCache.data (cache (snd run))
     = live_data (clock st) (NodeCache.data (cache st))
  /\ NodeCache.stdTTL (cache (snd run)) = NodeCache.stdTTL (cache st)
  /\ file_content (disk (snd run))
     = Some (JSON.stringify
               (JObj (live_props (clock st) (NodeCache.data (cache st)))))
  /\ trace (snd run)
     = trace st
         ++ [FileWritten
               (JSON.stringify
                  (JObj (live_props (clock st)
                           (NodeCache.data (cache st)))))].
Proof.
  cbv zeta. rewrite saveCache_eq. cbn [fst snd cache disk trace].
  rewrite file_content_write, snapshot_text_live by assumption.
  unfold NodeCache.keys in *. destruct (cache st) as [ttl_seconds d].
  cbn [NodeCache.data NodeCache.stdTTL] in *.
  pose proof (swept_live_data (clock st) ttl_seconds d [] Hobj) as Hs.
  cbn [app] in Hs. unfold NodeCache.keys. cbn [NodeCache.data].
  rewrite Hs. repeat split.
Qed.

Lemma saveCache_purges_expired_witness :
  Obj.keys (NodeCache.data
              (cache (snd (CachingProxy.saveCache state_three_entries))))
  = [js "k1"; js "k2"].
Proof.
  destruct (saveCache_purges_expired state_three_entries) as [_ [H _]].
  - vm_compute. repeat constructor; simpl; intuition discriminate.
  - rewrite H. vm_compute. reflexivity.
Defined.

(** *** [loadCache] *)

(** What [set] at [now] makes of later lookups. *)
Lemma peek_set_at (now t : N) (key : jsstring) (x : json)
    (c : NodeCache.cache) :
  NodeCache.peek t key (NodeCache.set now key x c)
  = if (NodeCache.stdTTL c =? 0) || (t <=? now + NodeCache.stdTTL c * 1000)
    then Some x else None.
Proof.
  unfold NodeCache.peek, NodeCache.get, NodeCache.set. simpl.
  rewrite Obj_get_set_same. unfold NodeCache.expired. simpl.
  destruct (N.eqb_spec (NodeCache.stdTTL c) 0) as [E|E]; [reflexivity|].
  replace (now + NodeCache.stdTTL c * 1000 =? 0) with false
    by (symmetry; apply N.eqb_neq; lia).
  cbn [negb andb orb].
  destruct (N.leb_spec t (now + NodeCache.stdTTL c * 1000)) as [L|L].
  - replace (now + NodeCache.stdTTL c * 1000 <? t) with false
      by (symmetry; apply N.ltb_ge; lia). reflexivity.
  - replace (now + NodeCache.stdTTL c * 1000 <? t) with true
      by (symmetry; apply N.ltb_lt; lia). reflexivity.
Qed.

(** The same for the entries [loadCache] sets. *)
Lemma peek_restored_at (now t : N) (entries : list (jsstring * json))
    (c : NodeCache.cache) (k : jsstring) :
  NoDup (Obj.keys entries) ->
  NodeCache.peek t k (restored now entries c)
  = match Obj.get k entries with
    | Some x =>
        if (NodeCache.stdTTL c =? 0)
           || (t <=? now + NodeCache.stdTTL c * 1000)
        then Some x else None
    | None => NodeCache.peek t k c
    end.
Proof.
  revert c. induction entries as [|[k0 x0] es IH]; intros c Hnd;
    [reflexivity|].
  inversion Hnd as [|? ? Hk Hnd']; subst.
  cbn [restored Obj.get]. rewrite IH by assumption.
  destruct (jsstring_eqb k0 k) eqn:E.
  - apply jsstring_eqb_eq in E. subst.
    apply Obj_get_None_not_in in Hk. rewrite Hk. apply peek_set_at.
  - destruct (Obj.get k es); [reflexivity|].
    apply peek_set_other. intros ->. now rewrite jsstring_eqb_refl in E.
Qed.

(** The snapshot [saveCache] has written is loaded as the object of the
    entries that were alive. *)
Lemma loadCache_saved (st target : state) :
  NoDup (NodeCache.keys (cache st)) ->
  wf_cache (cache st) = true ->
  (forall content, disk st <> Fs.File false content) ->
  disk target = disk (snd (CachingProxy.saveCache st)) ->
  CachingProxy.loadCache target
  = (Normal tt,
     let props := live_props (clock st) (NodeCache.data (cache st)) in
     {| cache := restored (clock target) props (cache target);
        disk := disk target; clock := clock target; res := res target;
        trace := trace target
                   ++ map (fun p => CacheSet (fst p) (snd p)) props |}).
Proof.
  intros Hobj Hwf Hread Hdisk. rewrite saveCache_eq in Hdisk.
  cbn [snd disk] in Hdisk. rewrite snapshot_text_live in Hdisk by assumption.
  apply loadCache_object
    with (text := JSON.stringify
                    (JObj (live_props (clock st)
                             (NodeCache.data (cache st))))).
  - rewrite Hdisk. destruct (disk st) as [|[|] content]; try reflexivity.
    now destruct (Hread content).
  - apply parse_stringify. now apply live_props_wf.
Qed.

(** X8.  A snapshot carries values, not expiry times (lines 35-57).  For
    a store whose values a JSON text can carry (no infinity, NaN or
    negative zero among their numbers): after [saveCache] and a start of a
    new process at time [later], every value that was live at the time of
    saving is served again until [later + 3600000] ms, however old it was,
    and nothing is served after that. *)
Theorem restored_entries_get_full_ttl (st : state) (later : N)
    (Hobj : NoDup (NodeCache.keys (cache st)))
    (Hwf : wf_cache (cache st) = true)
    (Hread : forall content, disk st <> Fs.File false content) :
  let saved := snd (CachingProxy.saveCache st) in
  let fresh :=
    snd (CachingProxy.loadCache
           (CachingProxy.constructor (disk saved) later)) in
  forall k t,
    (t <= later + 3600000 ->
     NodeCache.peek t k (cache fresh)
     = NodeCache.peek (clock st) k (cache st))
    /\ (later + 3600000 < t -> NodeCache.peek t k (cache fresh) = None).
Proof.
  cbv zeta. intros k t.
  rewrite (loadCache_saved st) by (assumption || reflexivity).
  cbv zeta. cbn [snd cache clock CachingProxy.constructor].
  rewrite peek_restored_at by (now apply live_props_NoDup).
  rewrite get_live_props by assumption.
  cbn [NodeCache.stdTTL NodeCache.create N.eqb orb].
  change (3600 * 1000) with 3600000.
  destruct (NodeCache.peek (clock st) k (cache st)) as [x|]; split; intros H.
  - replace (t <=? later + 3600000) with true
      by (symmetry; apply N.leb_le; lia). reflexivity.
  - replace (t <=? later + 3600000) with false
      by (symmetry; apply N.leb_gt; lia). reflexivity.
  - reflexivity.
  - reflexivity.
Qed.

Lemma restored_entries_get_full_ttl_witness :
  let saved := snd (CachingProxy.saveCache state_three_entries) in
  let fresh :=
    snd (CachingProxy.loadCache
           (CachingProxy.constructor (disk saved) 5000000)) in
  NodeCache.peek 8600000 (js "k1") (cache fresh)
  = Some (JObj [(js "a", JNum number_1)])
  /\ NodeCache.peek 8600001 (js "k1") (cache fresh) = None.
Proof.
  cbv zeta.
  pose proof (restored_entries_get_full_ttl state_three_entries 5000000)
    as H.
  cbv zeta in H.
  destruct (H ltac:(vm_compute; repeat constructor; simpl;
                    intuition discriminate)
              ltac:(reflexivity)
              ltac:(intros content; discriminate)
              (js "k1") 8600000) as [H1 _].
  destruct (H ltac:(vm_compute; repeat constructor; simpl;
                    intuition discriminate)
              ltac:(reflexivity)
              ltac:(intros content; discriminate)
              (js "k1") 8600001) as [_ H2].
  split.
  - rewrite H1 by lia. vm_compute. reflexivity.
  - apply H2. lia.
Defined.

(** X9.  [loadCache] adds to the store, it does not replace it
    (lines 44-57).  When the file holds a JSON object with distinct
    property names, the call returns normally and leaves the file alone;
    afterwards a key of the object answers with the value of the file, even
    where the store had another value, and every other key answers as
    before. *)
Theorem loadCache_merges (st : state) (text : jsstring)
    (props : list (jsstring * json))
    (Hread : Fs.readFileSync (disk st) = Some text)
    (Hparse : JSON.parse text = Some (JObj props))
    (Hnames : NoDup (Obj.keys props)) :
  let run := CachingProxy.loadCache st in
  fst run = Normal tt
  /\ disk (snd run) = disk st
  /\ forall k,
      NodeCache.peek (clock st) k (cache (snd run))
      = match Obj.get k props with
        | Some x => Some x
        | None => NodeCache.peek (clock st) k (cache st)
        end.
Proof.
  cbv zeta. rewrite (loadCache_object st text props) by assumption.
  cbn [fst snd disk cache]. split; [reflexivity|]. split; [reflexivity|].
  intros k. now apply peek_restored.
Qed.

Lemma loadCache_merges_witness :
  let run := CachingProxy.loadCache state_with_snapshot in
  NodeCache.peek 1000 (js "mine") (cache (snd run)) = Some (JStr (js "kept"))
  /\ NodeCache.peek 1000 (js "other") (cache (snd run))
     = Some (JStr (js "new"))
  /\ NodeCache.peek 1000 (js "k") (cache (snd run))
     = Some (JArr [JNum number_1]).
Proof.
  cbv zeta.
  destruct (loadCache_merges state_with_snapshot
              (quoted "{'other':'new','k':[1]}")
              [(js "other", JStr (js "new")); (js "k", JArr [JNum number_1])])
    as [_ [_ H]].
  - reflexivity.
  - vm_compute. reflexivity.
  - repeat constructor; simpl; intuition discriminate.
  - rewrite !H. vm_compute. repeat split; reflexivity.
Defined.

(** *** Across a restart *)

(** Well-formed values are kept by the operations of the store. *)
Lemma delete_wf (k : jsstring) (d : list (jsstring * NodeCache.entry)) :
  forallb (fun p => wf_json (NodeCache.v (snd p))) d = true ->
  forallb (fun p => wf_json (NodeCache.v (snd p))) (Obj.delete k d) = true.
Proof.
  induction d as [|[k' e'] d IH]; simpl; auto.
  intros H. apply andb_true_iff in H. destruct H as [H1 H2].
  destruct (jsstring_eqb k' k); simpl; auto. now rewrite H1, IH.
Qed.

Lemma get_wf (now : N) (k : jsstring) (c : NodeCache.cache) :
  wf_cache c = true -> wf_cache (snd (NodeCache.get now k c)) = true.
Proof.
  unfold wf_cache, NodeCache.get. intros H.
  destruct (Obj.get k (NodeCache.data c)) as [e|]; auto.
  destruct (NodeCache.expired now e); auto.
  simpl. now apply delete_wf.
Qed.

Lemma set_wf (now : N) (k : jsstring) (x : json) (c : NodeCache.cache) :
  wf_json x = true -> wf_cache c = true ->
  wf_cache (NodeCache.set now k x c) = true.
Proof.
  intros Hx Hc. apply (restored_wf now [(k, x)] c); auto.
  cbn [forallb snd]. now rewrite Hx.
Qed.

Lemma swept_wf (now : N) (ks : list jsstring) (c : NodeCache.cache) :
  wf_cache c = true -> wf_cache (swept now ks c) = true.
Proof.
  revert c. induction ks as [|k ks IH]; intros c H; simpl; auto.
  apply IH. now apply get_wf.
Qed.

Lemma swept_keys_NoDup (now : N) (ks : list jsstring) (c : NodeCache.cache) :
  NoDup (NodeCache.keys c) -> NoDup (NodeCache.keys (swept now ks c)).
Proof.
  revert c. induction ks as [|k ks IH]; intros c H; simpl; auto.
  apply IH. now apply get_keys_NoDup.
Qed.

(** X10.  The store survives a restart (lines 124-126 with 44-57 and
    207-213).  A request answered as a MISS with a truthy body [P] that a
    JSON text can carry (no infinity, NaN or negative zero among its
    numbers, and the same for the values already stored) is answered as a
    HIT with the same [P] by a process started afterwards on the file the
    first one left, when it arrives within an hour of that start; the new
    process does not contact the origin. *)
Theorem cache_survives_restart
    (a : argv) (h : jsstring) (net : Axios.origin_server)
    (st : state) (req : Express.request) (P : json)
    (elapsed delay1 restart delay2 : N)
    (Hmode : clear_cache a = false)
    (Hhost : host (origin a) = Some h)
    (Hobj : NoDup (NodeCache.keys (cache st)))
    (Hwf : wf_cache (cache st) = true)
    (Hread : forall content, disk st <> Fs.File false content)
    (Hfresh : NodeCache.peek (clock st + delay1)
                (CachingProxy.generateCacheKey req) (cache st) = None)
    (Hnet : forall hist rq, net hist rq = (elapsed, Axios.Reply 200 P))
    (Htruthy : truthy P = true)
    (Hvalue : wf_json P = true)
    (Hsoon : delay2 <= 3600000) :
  survives_restart a net st req P delay1 restart delay2.
Proof.
  unfold survives_restart.
  rewrite (request_eq (origin a) net delay1). cbv zeta.
  erewrite handler_miss_store with (h := h) (s := 200) (P := P);
    [ | apply peek_None_truthy_value; exact Hfresh | exact Hhost
      | apply Hnet | reflexivity | reflexivity | exact Htruthy ].
  cbn [fst snd cache disk clock res trace Express.statusCode Express.fresh].
  set (key := CachingProxy.generateCacheKey req).
  set (now1 := clock st + delay1 + elapsed).
  set (c0 := snd (NodeCache.get (clock st + delay1) key (cache st))).
  set (c1 := NodeCache.set now1 key P c0).
  assert (Hobj1 : NoDup (NodeCache.keys c1)).
  { apply set_keys_NoDup. now apply get_keys_NoDup. }
  assert (Hwf1 : wf_cache c1 = true).
  { apply set_wf; [assumption|]. now apply get_wf. }
  rewrite snapshot_text_live by assumption.
  set (props := live_props now1 (NodeCache.data c1)).
  set (text := JSON.stringify (JObj props)).
  assert (Hload : CachingProxy.loadCache
                    (CachingProxy.constructor
                       (Fs.writeFileSync text (disk st)) restart)
                  = (Normal tt,
                     {| cache := restored restart props
                                   (NodeCache.create 3600);
                        disk := Fs.writeFileSync text (disk st);
                        clock := restart; res := Express.fresh;
                        trace := map (fun p => CacheSet (fst p) (snd p))
                                   props |})).
  { rewrite (loadCache_object
               (CachingProxy.constructor (Fs.writeFileSync text (disk st))
                  restart) text props).
    - reflexivity.
    - cbn [CachingProxy.constructor disk].
      destruct (disk st) as [|[|] content]; try reflexivity.
      now destruct (Hread content).
    - apply parse_stringify. now apply live_props_wf. }
  unfold main. rewrite Hmode. unfold CachingProxy.start, bind.
  rewrite Hload. unfold console_log, emit.
  cbn [fst snd cache disk clock res trace].
  split; [reflexivity|]. split; [reflexivity|].
  rewrite request_eq. cbv zeta. cbn [cache disk clock res trace].
  erewrite handler_hit with (hit := P).
  - cbn [fst snd res trace]. split; [reflexivity|].
    rewrite !forwarded_app. cbn [forwarded app].
    rewrite app_nil_r.
    clear. induction props as [|p props IH]; [reflexivity|exact IH].
  - cbn [cache clock]. fold key.
    fold (NodeCache.peek (restart + delay2) key
            (restored restart props (NodeCache.create 3600))).
    rewrite peek_restored_at by (now apply live_props_NoDup).
    unfold props. fold (NodeCache.data c1).
    rewrite get_live_props by assumption.
    unfold c1 at 1. rewrite peek_set_same.
    + cbn [NodeCache.stdTTL NodeCache.create N.eqb orb].
      replace (restart + delay2 <=? restart + 3600 * 1000) with true
        by (symmetry; apply N.leb_le; lia).
      simpl. now rewrite Htruthy.
    + destruct (N.eq_dec (NodeCache.stdTTL c0) 0); [now left | right; lia].
Qed.

Lemma cache_survives_restart_witness :
  survives_restart (argv_default origin_example) origin_a1
    (CachingProxy.constructor Fs.Missing 1000) request_get_x
    (JObj [(js "a", JNum number_1)]) 10 9000000 20.
Proof.
  apply (cache_survives_restart (argv_default origin_example)
           (js "origin.test") origin_a1
           (CachingProxy.constructor Fs.Missing 1000) request_get_x
           (JObj [(js "a", JNum number_1)]) 5 10 9000000 20).
  - reflexivity.
  - reflexivity.
  - constructor.
  - reflexivity.
  - intros content. discriminate.
  - reflexivity.
  - intros hist rq. reflexivity.
  - reflexivity.
  - reflexivity.
  - vm_compute. discriminate.
Defined.

(** *** The request handler *)

(** X1.  The request falls back on a second call when the origin answers
    304 and the proxy has nothing to serve (src/index.js, lines 129-150).
    With no usable entry under the key, a first reply 304 whose body is
    falsy makes the handler call the origin again: the first call carried
    the client's [if-none-match] and [if-modified-since], the second
    carries neither and keeps every other header but [host].  When the
    second status is 2xx, its body, truthy or not, is answered with status
    200 and [X-Cache: MISS], and is what the store then holds under the
    key of the request. *)
Theorem conditional_fallback_refetches
    (origin : origin_url) (h : jsstring) (net : Axios.origin_server)
    (delay e1 e2 s2 : N) (st : state) (req : Express.request)
    (d1 d2 : json)
    (Hhost : host origin = Some h)
    (Hmiss : truthy_opt
               (NodeCache.peek (clock st + delay)
                  (CachingProxy.generateCacheKey req) (cache st)) = false)
    (Hnet1 : net (forwarded (trace st)) (first_request origin h req)
             = (e1, Axios.Reply 304 d1))
    (Hempty : truthy d1 = false)
    (Hnet2 : net (forwarded (trace st) ++ [first_request origin h req])
               (second_request origin h req) = (e2, Axios.Reply s2 d2))
    (H2xx : 200 <= s2 < 300) :
  let run := CachingProxy.request origin net delay req st in
  fst run = Normal {| Express.statusCode := 200;
                      Express.xCache := Some Express.MISS;
                      Express.sent := Some d2 |}
  /\ (exists rq1 rq2,
         forwarded (trace (snd run)) = forwarded (trace st) ++ [rq1; rq2]
         /\ Obj.get (js "if-none-match") (Axios.headers rq1)
            = Obj.get (js "if-none-match") (Express.headers req)
         /\ Obj.get (js "if-modified-since") (Axios.headers rq1)
            = Obj.get (js "if-modified-since") (Express.headers req)
         /\ Obj.get (js "if-none-match") (Axios.headers rq2) = None
         /\ Obj.get (js "if-modified-since") (Axios.headers rq2) = None
         /\ forall name,
             name <> js "host" -> name <> js "if-none-match" ->
             name <> js "if-modified-since" ->
             Obj.get name (Axios.headers rq2)
             = Obj.get name (Express.headers req))
  /\ NodeCache.peek (clock (snd run)) (CachingProxy.generateCacheKey req)
       (cache (snd run)) = Some d2.
Proof.
  cbv zeta. rewrite request_eq. cbv zeta.
  assert (Hcached :
    truthy_value
      (fst (NodeCache.get (clock st + delay)
              (CachingProxy.generateCacheKey req) (cache st))) = None).
  { unfold NodeCache.peek in Hmiss.
    destruct (fst (NodeCache.get _ _ _)) as [v|]; simpl in *; [|reflexivity].
    now rewrite Hmiss. }
  erewrite handler_second_store
    with (h := h) (e1 := e1) (e2 := e2) (s2 := s2) (d1 := d1) (d2 := d2);
    [ | exact Hcached | exact Hhost | exact Hnet1 | reflexivity
      | exact Hempty | exact Hnet2 | reflexivity | ].
  2:{ unfold Axios.validateStatus_default.
      replace (200 <=? s2) with true by (symmetry; apply N.leb_le; lia).
      replace (s2 <? 300) with true by (symmetry; apply N.ltb_lt; lia).
      reflexivity. }
  cbn [fst snd cache disk clock res trace Express.statusCode Express.fresh].
  split; [reflexivity|]. split.
  { exists (first_request origin h req), (second_request origin h req).
    split; [rewrite forwarded_app; reflexivity|].
    split; [apply first_request_keeps_headers; discriminate|].
    split; [apply first_request_keeps_headers; discriminate|].
    split; [apply second_request_strips_headers|].
    split; [apply second_request_strips_headers|].
    intros name H1 H2 H3. simpl.
    rewrite Obj_get_set_other by assumption.
    rewrite Obj_get_delete_other by assumption.
    now apply Obj_get_delete_other. }
  rewrite (pruned_peek (clock st + delay + e1 + e2)
             (clock st + delay + e1 + e2)
             (NodeCache.set (clock st + delay + e1 + e2)
                (CachingProxy.generateCacheKey req) d2
                (snd (NodeCache.get (clock st + delay)
                        (CachingProxy.generateCacheKey req) (cache st)))))
    by (auto using swept_pruned; lia).
  apply peek_set_same. right. lia.
Qed.

Lemma conditional_fallback_refetches_witness :
  let run :=
    CachingProxy.request origin_example origin_not_modified 10
      request_conditional (CachingProxy.constructor Fs.Missing 1000) in
  fst run = Normal {| Express.statusCode := 200;
                      Express.xCache := Some Express.MISS;
                      Express.sent := Some (JStr []) |}
  /\ NodeCache.peek (clock (snd run))
       (CachingProxy.generateCacheKey request_conditional)
       (cache (snd run)) = Some (JStr []).
Proof.
  pose proof (conditional_fallback_refetches origin_example
                (js "origin.test") origin_not_modified 10 4 6 200
                (CachingProxy.constructor Fs.Missing 1000)
                request_conditional (JStr []) (JStr [])) as H.
  cbv zeta in *.
  destruct H as [H1 [_ H3]].
  - reflexivity.
  - reflexivity.
  - reflexivity.
  - reflexivity.
  - reflexivity.
  - lia.
  - split; [exact H1 | exact H3].
Defined.

(** A request that the store cannot answer is forwarded, and is never
    answered as a HIT. *)
Lemma miss_is_forwarded
    (origin : origin_url) (h : jsstring) (net : Axios.origin_server)
    (req : Express.request) (st : state) :
  truthy_value
    (fst (NodeCache.get (clock st) (CachingProxy.generateCacheKey req)
            (cache st))) = None ->
  host origin = Some h ->
  Express.xCache (res st) = None ->
  let run := CachingProxy.start_handler origin net req st in
  (exists evs,
      trace (snd run)
      = trace st ++ Forwarded (first_request origin h req) :: evs)
  /\ Express.xCache (res (snd run)) <> Some Express.HIT.
Proof.
  intros Hmiss Hhost Hres. cbv zeta.
  handler_paths origin net req st; try congruence;
    match goal with
    | H : host origin = Some ?h' |- _ =>
        assert (h' = h) by congruence; subst h'
    end;
    cbn [snd trace res Express.xCache];
    (split; [eexists; reflexivity | rewrite ?Hres; discriminate]).
Qed.

(** X2.  A stored value that is falsy never answers a request (line 85
    tests the value, not its presence).  Whenever the store holds a live
    falsy value under the key of the request, the request is forwarded to
    the origin as if nothing were stored, and whatever the origin does the
    response is not marked [X-Cache: HIT]. *)
Theorem falsy_entry_is_refetched
    (origin : origin_url) (h : jsstring) (net : Axios.origin_server)
    (delay : N) (st : state) (req : Express.request) (v : json)
    (Hhost : host origin = Some h)
    (Hentry : NodeCache.peek (clock st + delay)
                (CachingProxy.generateCacheKey req) (cache st) = Some v)
    (Hfalsy : truthy v = false) :
  let run := CachingProxy.request origin net delay req st in
  (exists evs,
      trace (snd run)
      = trace st ++ Forwarded (first_request origin h req) :: evs)
  /\ (forall r, fst run = Normal r -> Express.xCache r <> Some Express.HIT).
Proof.
  cbv zeta. rewrite request_eq. cbv zeta.
  set (st0 := {| cache := cache st; disk := disk st;
                 clock := clock st + delay; res := Express.fresh;
                 trace := trace st |}).
  destruct (miss_is_forwarded origin h net req st0) as [Hevs Hhit].
  - cbn [clock cache st0]. unfold NodeCache.peek in Hentry.
    rewrite Hentry. simpl. now rewrite Hfalsy.
  - exact Hhost.
  - reflexivity.
  - destruct (CachingProxy.start_handler origin net req st0)
      as [[u|e] st'] eqn:E; cbn [fst snd] in *.
    + split; [exact Hevs|]. intros r Hr. inversion Hr; subst. exact Hhit.
    + split; [exact Hevs|]. intros r Hr. discriminate.
Qed.

Lemma falsy_entry_is_refetched_witness :
  let run :=
    CachingProxy.request origin_example origin_a1 10 request_get_x
      state_falsy_entry in
  (exists evs,
      trace (snd run)
      = Forwarded (first_request origin_example (js "origin.test")
                     request_get_x) :: evs)
  /\ (forall r, fst run = Normal r -> Express.xCache r <> Some Express.HIT).
Proof.
  apply (falsy_entry_is_refetched origin_example (js "origin.test")
           origin_a1 10 state_falsy_entry request_get_x (JNum number_0)).
  - reflexivity.
  - vm_compute. reflexivity.
  - reflexivity.
Defined.

(** X5.  The lifetime of an entry is the hour of the constructor
    (line 14), counted from the moment it was stored.  For a truthy value
    stored at [stored] under the key of the request: a request arriving no
    later than [stored + 3600000] ms is answered with it as a HIT, with
    the store, the file and the traffic to the origin unchanged; a request
    arriving later is forwarded to the origin and is not a HIT. *)
Theorem entry_lifetime_boundary
    (origin : origin_url) (h : jsstring) (net : Axios.origin_server)
    (st : state) (req : Express.request) (P : json) (stored delay : N)
    (c : NodeCache.cache)
    (Hhost : host origin = Some h)
    (Httl : NodeCache.stdTTL c = 3600)
    (Hstored : cache st
               = NodeCache.set stored (CachingProxy.generateCacheKey req)
                   P c)
    (Htruthy : truthy P = true) :
  let run := CachingProxy.request origin net delay req st in
  (clock st + delay <= stored + 3600000 ->
   fst run = Normal {| Express.statusCode := 200;
                       Express.xCache := Some Express.HIT;
                       Express.sent := Some P |}
   /\ cache (snd run) = cache st
   /\ disk (snd run) = disk st
   /\ forwarded (trace (snd run)) = forwarded (trace st))
  /\ (stored + 3600000 < clock st + delay ->
      (exists evs,
          trace (snd run)
          = trace st ++ Forwarded (first_request origin h req) :: evs)
      /\ (forall r, fst run = Normal r ->
                    Express.xCache r <> Some Express.HIT)).
Proof.
  cbv zeta. rewrite request_eq. cbv zeta.
  set (key := CachingProxy.generateCacheKey req).
  set (st0 := {| cache := cache st; disk := disk st;
                 clock := clock st + delay; res := Express.fresh;
                 trace := trace st |}).
  assert (Hpeek : NodeCache.peek (clock st + delay) key (cache st)
                  = if clock st + delay <=? stored + 3600000
                    then Some P else None).
  { rewrite Hstored. unfold key. rewrite peek_set_at, Httl. reflexivity. }
  split; intros Htime.
  - replace (clock st + delay <=? stored + 3600000) with true in Hpeek
      by (symmetry; apply N.leb_le; lia).
    erewrite handler_hit with (hit := P).
    + cbn [fst snd cache disk res trace st0 Express.statusCode
           Express.fresh].
      repeat split. rewrite forwarded_app. simpl. apply app_nil_r.
    + cbn [clock cache st0]. fold key. unfold NodeCache.peek in Hpeek.
      rewrite Hpeek. simpl. now rewrite Htruthy.
  - replace (clock st + delay <=? stored + 3600000) with false in Hpeek
      by (symmetry; apply N.leb_gt; lia).
    destruct (miss_is_forwarded origin h net req st0) as [Hevs Hhit].
    + cbn [clock cache st0]. fold key. unfold NodeCache.peek in Hpeek.
      now rewrite Hpeek.
    + exact Hhost.
    + reflexivity.
    + destruct (CachingProxy.start_handler origin net req st0)
        as [[u|e] st'] eqn:E; cbn [fst snd] in *.
      * split; [exact Hevs|]. intros r Hr. inversion Hr; subst. exact Hhit.
      * split; [exact Hevs|]. intros r Hr. discriminate.
Qed.

Lemma entry_lifetime_boundary_witness :
  fst (CachingProxy.request origin_example origin_a1 3599000 request_get_x
         state_stored_at_1000)
  = Normal {| Express.statusCode := 200;
              Express.xCache := Some Express.HIT;
              Express.sent := Some (JStr (js "page")) |}
  /\ exists evs,
      trace (snd (CachingProxy.request origin_example origin_a1 3599001
                    request_get_x state_stored_at_1000))
      = Forwarded (first_request origin_example (js "origin.test")
                     request_get_x) :: evs.
Proof.
  split.
  - apply (entry_lifetime_boundary origin_example (js "origin.test")
             origin_a1 state_stored_at_1000 request_get_x
             (JStr (js "page")) 1000 3599000 (NodeCache.create 3600));
      reflexivity.
  - apply (entry_lifetime_boundary origin_example (js "origin.test")
             origin_a1 state_stored_at_1000 request_get_x
             (JStr (js "page")) 1000 3599001 (NodeCache.create 3600));
      reflexivity.
Defined.

(** X4.  When the origin given on the command line is not a URL,
    [new URL(origin)] throws inside the [try] before axios is called
    (line 102): nothing is forwarded and the snapshot file is not touched.
    The request is answered from the store when a truthy value is there,
    and otherwise with status 500 and the body of line 163 carrying the
    message of the TypeError. *)
Theorem invalid_origin_never_forwards
    (origin : origin_url) (net : Axios.origin_server)
    (delay : N) (st : state) (req : Express.request)
    (Hhost : host origin = None) :
  let run := CachingProxy.request origin net delay req st in
  let cached :=
    NodeCache.peek (clock st + delay) (CachingProxy.generateCacheKey req)
      (cache st) in
  forwarded (trace (snd run)) = forwarded (trace st)
  /\ disk (snd run) = disk st
  /\ fst run
     = Normal
         (match truthy_value cached with
          | Some hit => {| Express.statusCode := 200;
                           Express.xCache := Some Express.HIT;
                           Express.sent := Some hit |}
          | None => {| Express.statusCode := 500;
                       Express.xCache := None;
                       Express.sent :=
                         Some (error_body (TypeError (js "Invalid URL"))) |}
          end).
Proof.
  cbv zeta. rewrite request_eq. cbv zeta. unfold NodeCache.peek.
  destruct (truthy_value
              (fst (NodeCache.get (clock st + delay)
                      (CachingProxy.generateCacheKey req) (cache st))))
    as [hit|] eqn:Hcached.
  - erewrite handler_hit by exact Hcached.
    cbn [fst snd disk res trace Express.statusCode Express.fresh].
    repeat split. rewrite forwarded_app. simpl. apply app_nil_r.
  - erewrite handler_invalid_origin by (exact Hcached || exact Hhost).
    cbn [fst snd disk res trace Express.xCache Express.fresh].
    repeat split. rewrite forwarded_app. simpl. apply app_nil_r.
Qed.

Lemma invalid_origin_never_forwards_witness :
  let run :=
    CachingProxy.request origin_not_a_url origin_a1 10 request_get_x
      state_one_entry in
  forwarded (trace (snd run)) = []
  /\ fst run
     = Normal {| Express.statusCode := 500;
                 Express.xCache := None;
                 Express.sent :=
                         Some (error_body (TypeError (js "Invalid URL"))) |}.
Proof.
  destruct (invalid_origin_never_forwards origin_not_a_url origin_a1 10
              state_one_entry request_get_x) as [H1 [_ H3]].
  - reflexivity.
  - cbv zeta. split; [exact H1 | exact H3].
Defined.

(** X3.  What one run of the handler can do, whatever the origin, the
    request and the state.  It calls axios at most twice (a call follows
    the redirects it meets, up to [maxRedirects] of them) and sends at
    most one response.  A run that stores nothing leaves the snapshot file
    as it was and the store as the lookup of line 83 left it.  A run that
    sends no response at all is this one only: the origin is a valid URL
    and the first call ends, once its redirects are followed, with a
    status in 200..299 and a falsy body, so that none of the branches of
    lines 116, 122 and 130 is taken. *)
Theorem handler_effects_bounded
    (origin : origin_url) (net : Axios.origin_server)
    (req : Express.request) (st : state) :
  let run := CachingProxy.start_handler origin net req st in
  exists evs,
    trace (snd run) = trace st ++ evs
    /\ (List.length (forwarded evs) <= 2)%nat
    /\ (List.length (filter is_Responded evs) <= 1)%nat
    /\ (existsb is_CacheSet evs = false ->
        disk (snd run) = disk st
        /\ cache (snd run)
           = snd (NodeCache.get (clock st)
                    (CachingProxy.generateCacheKey req) (cache st)))
    /\ (existsb is_Responded evs = false ->
        exists h elapsed r s d,
          host origin = Some h
          /\ net (forwarded (trace st)) (first_request origin h req)
             = (elapsed, r)
          /\ settled r = Axios.Reply s d
          /\ CachingProxy.validateStatus s = true
          /\ s <> 304
          /\ truthy d = false).
Proof.
  cbv zeta.
  assert (Hhit : forall hit,
             truthy_value
               (fst (NodeCache.get (clock st)
                       (CachingProxy.generateCacheKey req) (cache st)))
             = Some hit ->
             cache st
             = snd (NodeCache.get (clock st)
                      (CachingProxy.generateCacheKey req) (cache st))).
  { intros hit H. apply truthy_value_Some in H. destruct H as [H _].
    symmetry. eapply get_Some_unchanged. exact H. }
  handler_paths origin net req st; cbn [snd trace disk cache];
    eexists; (split; [reflexivity|]);
    cbn [forwarded List.length filter is_Responded existsb is_CacheSet orb];
    (split; [lia|]); (split; [lia|]);
    (split; [ first [ discriminate | intros _; split; eauto ] | ]);
    first [ discriminate | intros _; eauto 12 ].
Qed.

(** *** The server over many requests *)

(** What [saveCache] writes is read by [JSON.parse] as an object, here for
    a store whose values are well formed. *)
Lemma written_snapshot_loadable (now : N) (c : NodeCache.cache)
    (d : Fs.node) :
  NoDup (NodeCache.keys c) -> wf_cache c = true ->
  snapshot_loadable (Fs.writeFileSync (snapshot_text now c) d).
Proof.
  intros Hnd Hwf. rewrite snapshot_text_live by assumption.
  eexists. eexists. split; [apply file_content_write|].
  apply parse_stringify. now apply live_props_wf.
Qed.

(** One run of the handler keeps the invariants of the store, and leaves
    the file untouched or loadable. *)
Lemma start_handler_sound
    (origin : origin_url) (net : Axios.origin_server)
    (req : Express.request) (st : state) :
  wf_origin net ->
  NoDup (NodeCache.keys (cache st)) ->
  wf_cache (cache st) = true ->
  let run := CachingProxy.start_handler origin net req st in
  wf_cache (cache (snd run)) = true
  /\ (disk (snd run) = disk st \/ snapshot_loadable (disk (snd run))).
Proof.
  intros Hnet Hnd Hwf. cbv zeta.
  pose proof (get_keys_NoDup (clock st) (CachingProxy.generateCacheKey req)
                (cache st) Hnd) as Hnd0.
  pose proof (get_wf (clock st) (CachingProxy.generateCacheKey req)
                (cache st) Hwf) as Hwf0.
  handler_paths origin net req st; cbn [snd cache disk];
    try (split; [assumption | now left]).
  - split.
    + apply swept_wf. apply set_wf; [|assumption]. eapply Hnet; eassumption.
    + right. apply written_snapshot_loadable.
      * now apply set_keys_NoDup.
      * apply set_wf; [|assumption]. eapply Hnet; eassumption.
  - split.
    + apply swept_wf. apply set_wf; [|assumption]. eapply Hnet; eassumption.
    + right. apply written_snapshot_loadable.
      * now apply set_keys_NoDup.
      * apply set_wf; [|assumption]. eapply Hnet; eassumption.
Qed.

(** X11.  Invariants of the running server (lines 81-167), for any
    sequence of requests handled one after the other, with an origin whose
    bodies are well-formed JSON values.  Every request returns to express
    without an exception escaping the handler; the time-to-live of the
    store stays what it was; its keys stay distinct and its values well
    formed; and the snapshot file is either untouched or holds a text that
    [JSON.parse] reads as an object, so that the next start can load
    it. *)
Theorem serve_keeps_invariants
    (origin : origin_url) (net : Axios.origin_server)
    (reqs : list (N * Express.request)) (st : state)
    (Hnet : wf_origin net)
    (Hobj : NoDup (NodeCache.keys (cache st)))
    (Hwf : wf_cache (cache st) = true) :
  let run := CachingProxy.serve origin net reqs st in
  (exists rs, fst run = Normal rs /\ List.length rs = List.length reqs)
  /\ NodeCache.stdTTL (cache (snd run)) = NodeCache.stdTTL (cache st)
  /\ NoDup (NodeCache.keys (cache (snd run)))
  /\ wf_cache (cache (snd run)) = true
  /\ (disk (snd run) = disk st \/ snapshot_loadable (disk (snd run))).
Proof.
  cbv zeta. revert st Hobj Hwf.
  induction reqs as [|[delay req] reqs IH]; intros st Hobj Hwf.
  - simpl. split; [exists []; split; reflexivity|].
    repeat split; auto.
  - set (st0 := {| cache := cache st; disk := disk st;
                   clock := clock st + delay; res := Express.fresh;
                   trace := trace st |}).
    pose proof (start_handler_returns origin net req st0)
      as [Hret [Httl Hnd]].
    pose proof (start_handler_sound origin net req st0 Hnet Hobj Hwf)
      as [Hwf' Hdisk].
    cbv zeta in *. cbn [CachingProxy.serve]. unfold bind. rewrite request_eq.
    cbv zeta. fold st0.
    destruct (CachingProxy.start_handler origin net req st0)
      as [[u|e] st1] eqn:E; cbn [fst snd] in *; [|discriminate].
    specialize (Hnd Hobj).
    destruct (IH st1 Hnd Hwf') as [[rs [Hrs Hlen]] [I1 [I2 [I3 I4]]]].
    destruct (CachingProxy.serve origin net reqs st1) as [[rs'|e'] st2] eqn:E2;
      cbn [fst snd] in *; [|discriminate].
    inversion Hrs; subst rs'. unfold ret. cbn [fst snd].
    split; [exists (res st1 :: rs); split; [reflexivity | simpl; lia]|].
    split; [rewrite I1, Httl; reflexivity|].
    split; [assumption|]. split; [assumption|].
    destruct I4 as [I4|I4]; [|now right].
    rewrite I4. destruct Hdisk as [Hd|Hd]; [left; exact Hd | now right].
Qed.

(** The sample origin answers with well-formed bodies. *)
Lemma origin_a1_wf : wf_origin origin_a1.
Proof.
  intros hist rq elapsed r s d H Hr. unfold origin_a1 in H.
  inversion H; subst. inversion Hr; subst. vm_compute. reflexivity.
Qed.

Lemma serve_keeps_invariants_witness :
  let run :=
    CachingProxy.serve origin_example origin_a1
      [(10, request_get_x); (20, request_conditional); (30, request_get_x)]
      (CachingProxy.constructor Fs.Missing 1000) in
  (exists rs, fst run = Normal rs /\ List.length rs = 3%nat)
  /\ NodeCache.stdTTL (cache (snd run)) = 3600
  /\ NoDup (NodeCache.keys (cache (snd run)))
  /\ wf_cache (cache (snd run)) = true
  /\ (disk (snd run) = Fs.Missing \/ snapshot_loadable (disk (snd run))).
Proof.
  apply (serve_keeps_invariants origin_example origin_a1
           [(10, request_get_x); (20, request_conditional);
            (30, request_get_x)]
           (CachingProxy.constructor Fs.Missing 1000)).
  - exact origin_a1_wf.
  - constructor.
  - reflexivity.
Defined.

(** *** The command line *)




(** X13.  [--clear-cache] followed by a start (lines 60-66 and 207-213):
    whatever the file held, the clearing run returns normally, and a
    process started afterwards on what it left returns normally with an
    empty store and no file, so that no key has an answer at any time. *)
Theorem clear_then_start_is_empty
    (a1 a2 : argv) (d : Fs.node) (now later : N)
    (Hclear : clear_cache a1 = true)
    (Hstart : clear_cache a2 = false) :
  let cleared := main a1 d now in
  let started := main a2 (disk (snd cleared)) later in
  fst cleared = Normal tt
  /\ fst started = Normal tt
  /\ NodeCache.data (cache (snd started)) = []
  /\ disk (snd started) = Fs.Missing
  /\ forall k t, NodeCache.peek t k (cache (snd started)) = None.
Proof.
  cbv zeta. unfold main. rewrite Hclear, Hstart.
  destruct d as [|readable content]; vm_compute; repeat split.
Qed.

Lemma clear_then_start_is_empty_witness :
  let cleared :=
    main {| port := 3000; origin := origin_example; clear_cache := true;
            ttl := 60 |}
      (Fs.File true (quoted "{'k':1}")) 0 in
  let started :=
    main (argv_default origin_example) (disk (snd cleared)) 5000 in
  NodeCache.data (cache (snd started)) = []
  /\ disk (snd started) = Fs.Missing.
Proof.
  destruct (clear_then_start_is_empty
              {| port := 3000; origin := origin_example;
                 clear_cache := true; ttl := 60 |}
              (argv_default origin_example)
              (Fs.File true (quoted "{'k':1}")) 0 5000)
    as [_ [_ [H3 [H4 _]]]].
  - reflexivity.
  - reflexivity.
  - cbv zeta. split; [exact H3 | exact H4].
Defined.

(** *** What a response says, and where requests go *)


(** Both requests of the handler are the incoming request redirected. *)
Lemma first_request_targets (origin : origin_url) (h : jsstring)
    (req : Express.request) :
  host origin = Some h -> targets_origin origin req (first_request origin h req).
Proof.
  intros Hh. repeat split.
  - exists h. split; [exact Hh|]. apply Obj_get_set_same.
  - intros name H1 _ _. simpl. now apply Obj_get_set_other.
Qed.

Lemma second_request_targets (origin : origin_url) (h : jsstring)
    (req : Express.request) :
  host origin = Some h ->
  targets_origin origin req (second_request origin h req).
Proof.
  intros Hh. repeat split.
  - exists h. split; [exact Hh|]. apply Obj_get_set_same.
  - intros name H1 H2 H3. simpl.
    rewrite Obj_get_set_other by assumption.
    rewrite Obj_get_delete_other by assumption.
    now apply Obj_get_delete_other.
Qed.

(** X15.  Where the handler sends requests (lines 97-103 and 132-138).
    Every request it forwards, in every run, is the incoming request
    redirected to the origin: the same method, the URL of the origin
    followed by the URL of the request, the host of the origin in place of
    the client's [host] header, and every other header of the client
    unchanged, except possibly the two conditional ones. *)
Theorem forwarded_requests_target_origin
    (origin : origin_url) (net : Axios.origin_server)
    (req : Express.request) (st : state) :
  let run := CachingProxy.start_handler origin net req st in
  exists rqs,
    forwarded (trace (snd run)) = forwarded (trace st) ++ rqs
    /\ Forall (targets_origin origin req) rqs.
Proof.
  cbv zeta.
  handler_paths origin net req st; cbn [snd trace];
    rewrite forwarded_app; cbn [forwarded app];
    eexists; (split; [reflexivity|]);
    repeat first
      [ apply Forall_nil
      | apply Forall_cons;
        [ first [ now apply first_request_targets
                | now apply second_request_targets ] | ] ].
Qed.
